(** * AI-Legal-Secretary: the client-side synchronisation and versioning core

    A shallow embedding of
    - [services/versionService] (second half of
      [src/services/persistenceService.ts]): [getStoredVersion],
      [incrementVersion];
    - [services/persistenceService] (first half of the same file):
      [exportData], [parseImportData];
    - [services/syncService] ([src/unnamed/part_004]): [parseResponse],
      [fetchCloudData], [saveCloudData];
    - the state and the handlers of the [App] component
      ([src/unnamed/part_000]): [handleCloudSync], [handleAddTemplate],
      [handleDeleteTemplate], [handleFileChange], [handleExport],
      [saveSettings], the first render, and the effects that save
      locally and start the auto-save timer;
    - the types of [src/unnamed/part_003];
    - the template manager ([src/unnamed/part_002]):
      [addTemplateResult], [handleBatchAnalyze], [handleFileSelect],
      [handleRemoveFile], [getBase64], [downloadOriginalFile];
    - the drafting workspace ([src/components/DraftingWorkspace.tsx]):
      [handleDraft], [handleMissingValueChange],
      [handleRedraftWithMissingInfo].

    The JavaScript the program runs on is modelled as far as the
    program uses it.  Strings are sequences of UTF-16 code units,
    [list N].  Numbers are binary64 values: NaN, the two infinities,
    the integers of magnitude at most 2^53, and every other finite
    value as an odd multiple of a power of two, with the rounding to
    nearest (ties to even) of IEEE 754 written out.  [JSON.parse] and
    [JSON.stringify] follow the ECMAScript grammar and serialization.
    The LZ-String library, which the page loads and the sources only
    declare, is a parameter.  An asynchronous handler is a function of
    the state it starts in and of what the network answers. *)

From Stdlib Require Import ZArith NArith List Ascii String Bool Lia.
From Stdlib Require Import DecimalFacts DecimalPos DecimalN.
From stdpp Require Import base option list gmap.

Local Open Scope N_scope.

(** ** Strings *)

Definition jsstring : Type := list N.

(** [str] turns an ASCII literal into the code units it denotes. *)
Definition str (s : string) : jsstring :=
  map N_of_ascii (list_ascii_of_string s).

Definition jsstring_eqb (a b : jsstring) : bool := bool_decide (a = b).

(** *** Characters

    The code units of the ASCII characters the program and the grammars
    name. *)

Abbreviation c_BS := (8%N) (only parsing).
Abbreviation c_TAB := (9%N) (only parsing).
Abbreviation c_LF := (10%N) (only parsing).
Abbreviation c_FF := (12%N) (only parsing).
Abbreviation c_CR := (13%N) (only parsing).
Abbreviation c_SPACE := (32%N) (only parsing).
Abbreviation c_QUOTE := (34%N) (only parsing).
Abbreviation c_PLUS := (43%N) (only parsing).
Abbreviation c_COMMA := (44%N) (only parsing).
Abbreviation c_MINUS := (45%N) (only parsing).
Abbreviation c_DOT := (46%N) (only parsing).
Abbreviation c_SLASH := (47%N) (only parsing).
Abbreviation c_0 := (48%N) (only parsing).
Abbreviation c_9 := (57%N) (only parsing).
Abbreviation c_COLON := (58%N) (only parsing).
Abbreviation c_A := (65%N) (only parsing).
Abbreviation c_B := (66%N) (only parsing).
Abbreviation c_E := (69%N) (only parsing).
Abbreviation c_F := (70%N) (only parsing).
Abbreviation c_O := (79%N) (only parsing).
Abbreviation c_X := (88%N) (only parsing).
Abbreviation c_LBRACKET := (91%N) (only parsing).
Abbreviation c_BACKSLASH := (92%N) (only parsing).
Abbreviation c_RBRACKET := (93%N) (only parsing).
Abbreviation c_a := (97%N) (only parsing).
Abbreviation c_b := (98%N) (only parsing).
Abbreviation c_e := (101%N) (only parsing).
Abbreviation c_f := (102%N) (only parsing).
Abbreviation c_n := (110%N) (only parsing).
Abbreviation c_o := (111%N) (only parsing).
Abbreviation c_r := (114%N) (only parsing).
Abbreviation c_t := (116%N) (only parsing).
Abbreviation c_u := (117%N) (only parsing).
Abbreviation c_x := (120%N) (only parsing).
Abbreviation c_LBRACE := (123%N) (only parsing).
Abbreviation c_RBRACE := (125%N) (only parsing).

(** [s.split(sep)] for a one-character separator: the empty string
    splits into one empty piece. *)
Fixpoint split (sep : N) (s : jsstring) : list jsstring :=
  match s with
  | [] => [[]]
  | c :: s' =>
      if c =? sep then [] :: split sep s'
      else match split sep s' with
           | [] => [[c]]
           | p :: ps => (c :: p) :: ps
           end
  end.

(** ** Numbers *)

Inductive number : Type :=
| NaN
| Int (z : Z)   (* an integer [z] with [|z| <= 2^53]; the two zeros are one *)
| Bin (neg : bool) (m : positive) (e : Z)
                (* any other finite value: [m * 2^e], [m] odd, negated
                   when [neg] *)
| Inf (neg : bool).
                (* an infinity, the negative one when [neg] *)

Definition MAX_EXACT : Z := 9007199254740992.   (* 2^53 *)

(** *** Rounding to binary64

    A finite binary64 value is a multiple [q * 2^u] of a power of two
    with [q < 2^53], [-1074 <= u] and [q * 2^u < 2^1024]. *)

Definition EMIN : Z := (-1074)%Z.

(** The multiple [q * 2^u] nearest to the positive rational
    [num / den], ties to the even [q]; [u] is the exponent for which
    the quotient has 53 bits, and not below [EMIN]. *)
Definition nearest (num den : Z) : Z * Z :=
  let scaled (u : Z) :=
    if (0 <=? u)%Z then (num, den * 2 ^ u)%Z else (num * 2 ^ (- u), den)%Z in
  let u1 := Z.max (Z.log2 num - Z.log2 den - 52) EMIN in
  let '(num1, den1) := scaled u1 in
  let u := if (num1 / den1 <? 2 ^ 52)%Z && (EMIN <? u1)%Z then (u1 - 1)%Z else u1 in
  let '(n, d) := scaled u in
  let q := (n / d)%Z in
  let r := (n mod d)%Z in
  (if (d <? 2 * r)%Z || ((d =? 2 * r)%Z && Z.odd q) then (q + 1)%Z else q, u).

(** [p = m * 2^n] with [m] odd. *)
Fixpoint odd_part (p : positive) : positive * Z :=
  match p with
  | xO p' => let '(m, n) := odd_part p' in (m, (n + 1)%Z)
  | _ => (p, 0%Z)
  end.

(** The number [q * 2^u], negated when [neg]. *)
Definition normalize (neg : bool) (q u : Z) : number :=
  match q with
  | Zpos p =>
      let '(m, n) := odd_part p in
      let e := (u + n)%Z in
      let v := (Zpos m * 2 ^ e)%Z in
      if (0 <=? e)%Z && (v <=? MAX_EXACT)%Z
      then Int (if neg then (- v)%Z else v)
      else Bin neg m e
  | _ => Int 0
  end.

(** The binary64 value of the positive rational [num / den], negated
    when [neg]: an infinity from 2^1024 on. *)
Definition round_ratio (neg : bool) (num den : Z) : number :=
  let '(q, u) := nearest num den in
  if (0 <=? u)%Z && (2 ^ 1024 <=? q * 2 ^ u)%Z then Inf neg
  else normalize neg q u.

(** The magnitude of a [Bin] as a fraction. *)
Definition ratio (m : positive) (e : Z) : Z * Z :=
  if (0 <=? e)%Z then (Zpos m * 2 ^ e, 1)%Z else (Zpos m, 2 ^ (- e))%Z.

Definition isNaN (x : number) : bool :=
  match x with NaN => true | _ => false end.

(** StrWhiteSpaceChar of the StringNumericLiteral grammar: WhiteSpace
    and LineTerminator code points. *)
Definition is_StrWhiteSpaceChar (c : N) : bool :=
  ((9 <=? c) && (c <=? 13)) || (c =? 32) || (c =? 160) || (c =? 5760)
  || ((8192 <=? c) && (c <=? 8202)) || (c =? 8232) || (c =? 8233)
  || (c =? 8239) || (c =? 8287) || (c =? 12288) || (c =? 65279).

Fixpoint drop_ws (s : jsstring) : jsstring :=
  match s with
  | c :: s' => if is_StrWhiteSpaceChar c then drop_ws s' else s
  | [] => []
  end.

Definition trim (s : jsstring) : jsstring := rev (drop_ws (rev (drop_ws s))).

Definition is_digit (c : N) : bool := (c_0 <=? c) && (c <=? c_9).

(** Value of a digit in base [b] (letters count from ten, both cases). *)
Definition digit_in (b c : N) : option N :=
  let v := if (c_0 <=? c) && (c <=? c_9) then Some (c - c_0)
           else if (c_a <=? c) && (c <=? c_f) then Some (c - c_a + 10)
           else if (c_A <=? c) && (c <=? c_F) then Some (c - c_A + 10)
           else None in
  match v with
  | Some d => if d <? b then Some d else None
  | None => None
  end.

(** Value of a run of base-[b] digits, most significant first; [None]
    when some character is not a digit of that base. *)
Fixpoint digits_value (b : N) (acc : N) (s : jsstring) : option N :=
  match s with
  | [] => Some acc
  | c :: s' =>
      match digit_in b c with
      | Some d => digits_value b (b * acc + d) s'
      | None => None
      end
  end.

(** A non-empty run of digits. *)
Definition digits1_value (b : N) (s : jsstring) : option N :=
  match s with [] => None | _ => digits_value b 0 s end.

(** Cuts [s] at the first character satisfying [p]: the part before it,
    and the part after it when there is one. *)
Fixpoint cut_at (p : N -> bool) (s : jsstring) : jsstring * option jsstring :=
  match s with
  | [] => ([], None)
  | c :: s' =>
      if p c then ([], Some s')
      else let '(a, b) := cut_at p s' in (c :: a, b)
  end.

(** The number with exact mathematical value [m * 10^e], [m] and [e]
    integers, rounded as binary64 does: exact when it is an integer of
    magnitude at most 2^53, the nearest binary64 value otherwise. *)
Definition round_decimal (neg : bool) (m : N) (e : Z) : number :=
  let sign (v : Z) := if neg then (- v)%Z else v in
  let fit (v : Z) :=
    if (v <=? MAX_EXACT)%Z then Int (sign v) else round_ratio neg v 1 in
  if m =? 0 then Int 0
  else if (0 <=? e)%Z then fit (Z.of_N m * 10 ^ e)%Z
  else
    let p := (10 ^ (- e))%Z in
    if (Z.of_N m mod p =? 0)%Z then fit (Z.of_N m / p)%Z
    else round_ratio neg (Z.of_N m) p.

(** An optional sign: whether it is a minus, and what follows it. *)
Definition take_sign (s : jsstring) : bool * jsstring :=
  match s with
  | c :: u => if c =? c_PLUS then (false, u)
              else if c =? c_MINUS then (true, u)
              else (false, s)
  | [] => (false, s)
  end.

(** SignedInteger of an ExponentPart. *)
Definition signed_integer (s : jsstring) : option Z :=
  let '(neg, ds) := take_sign s in
  (fun n => if neg then (- Z.of_N n)%Z else Z.of_N n) <$> digits1_value 10 ds.

(** StrUnsignedDecimalLiteral other than [Infinity]:
    [digits . digits? exp?], [. digits exp?] or [digits exp?]. *)
Definition unsigned_decimal (neg : bool) (s : jsstring) : number :=
  let '(mant, expo) := cut_at (fun c => (c =? c_e) || (c =? c_E)) s in
  let '(ipart, fpart) := cut_at (fun c => c =? c_DOT) mant in
  let frac := default [] fpart in
  let shape_ok :=
    match ipart, fpart with
    | [], None => false
    | [], Some [] => false
    | _, _ => true
    end in
  match shape_ok, digits_value 10 0 (ipart ++ frac),
        match expo with None => Some 0%Z | Some x => signed_integer x end with
  | true, Some m, Some x => round_decimal neg m (x - Z.of_nat (length frac))
  | _, _, _ => NaN
  end.

Definition Infinity_lit : jsstring := str "Infinity".

(** StrDecimalLiteral: an optional sign before the unsigned literal. *)
Definition str_decimal (s : jsstring) : number :=
  let '(neg, u) := take_sign s in
  if jsstring_eqb u Infinity_lit then Inf neg else unsigned_decimal neg u.

(** The base announced by the second character of a [0x], [0o] or [0b]
    literal. *)
Definition base_of_prefix (p : N) : option N :=
  if (p =? c_x) || (p =? c_X) then Some 16
  else if (p =? c_o) || (p =? c_O) then Some 8
  else if (p =? c_b) || (p =? c_B) then Some 2
  else None.

(** NonDecimalIntegerLiteral: [0x], [0o] and [0b] literals, unsigned. *)
Definition non_decimal (s : jsstring) : option number :=
  match s with
  | z :: p :: ds =>
      match (if z =? c_0 then base_of_prefix p else None) with
      | Some b =>
          Some match digits1_value b ds with
               | Some v => if (Z.of_N v <=? MAX_EXACT)%Z then Int (Z.of_N v)
                           else round_ratio false (Z.of_N v) 1
               | None => NaN
               end
      | None => None
      end
  | _ => None
  end.

(** [Number(s)] on a string: StringToNumber. *)
Definition Number (s : jsstring) : number :=
  let t := trim s in
  match t with
  | [] => Int 0
  | _ => match non_decimal t with
         | Some x => x
         | None => str_decimal t
         end
  end.

(** [x++]: [x + 1] rounded.  2^53 + 1 is not a binary64 value and
    rounds (to even) back to 2^53; adding one to a finite number does
    not reach 2^1024.  The three operations of the carry chain have a
    result on every number; they are written in the option type of the
    chain. *)
Definition incr (x : number) : option number :=
  match x with
  | NaN => Some NaN
  | Int z => Some (Int (if (z <? MAX_EXACT)%Z then z + 1 else z)%Z)
  | Bin neg m e =>
      let '(num, den) := ratio m e in
      let num' := (if neg then den - num else num + den)%Z in
      Some (if (num' =? 0)%Z then Int 0
            else let '(q, u) := nearest (Z.abs num') den in
                 normalize (num' <? 0)%Z q u)
  | Inf neg => Some (Inf neg)
  end.

(** [x > k]. *)
Definition gt (x : number) (k : Z) : option bool :=
  match x with
  | NaN => Some false
  | Int z => Some (k <? z)%Z
  | Bin neg m e =>
      let '(num, den) := ratio m e in
      Some (k * den <? (if neg then - num else num))%Z
  | Inf neg => Some (negb neg)
  end.

Fixpoint uint_chars (d : Decimal.uint) : jsstring :=
  match d with
  | Decimal.Nil => []
  | Decimal.D0 d => 48 :: uint_chars d
  | Decimal.D1 d => 49 :: uint_chars d
  | Decimal.D2 d => 50 :: uint_chars d
  | Decimal.D3 d => 51 :: uint_chars d
  | Decimal.D4 d => 52 :: uint_chars d
  | Decimal.D5 d => 53 :: uint_chars d
  | Decimal.D6 d => 54 :: uint_chars d
  | Decimal.D7 d => 55 :: uint_chars d
  | Decimal.D8 d => 56 :: uint_chars d
  | Decimal.D9 d => 57 :: uint_chars d
  end.

(** Decimal digits of a natural number, without leading zeros. *)
Definition dec (n : N) : jsstring := uint_chars (N.to_uint n).

(** An integer in decimal, with its sign when it is negative. *)
Definition int_string (z : Z) : jsstring :=
  if (z <? 0)%Z then c_MINUS :: dec (Z.abs_N z) else dec (Z.abs_N z).

(** *** Number::toString

    For a finite non-zero [x], the digits [s], their number [k] and the
    position [n] of the decimal point are such that [s * 10^(n-k)]
    reads back as [x], with [k] least and then [s * 10^(n-k)] nearest
    to [x]. *)

(** [x * 10^p] for a fraction [x]. *)
Definition scale10 (x : Z * Z) (p : Z) : Z * Z :=
  let '(num, den) := x in
  if (0 <=? p)%Z then (num * 10 ^ p, den)%Z else (num, den * 10 ^ (- p))%Z.

(** The [n] with [10^(n-1) <= x < 10^n], looked for around the estimate
    that the binary logarithms give. *)
Definition decimal_exponent (x : Z * Z) : Z :=
  let est := ((Z.log2 (fst x) - Z.log2 (snd x)) * 30103 / 100000)%Z in
  let fits (n : Z) :=
    let '(a, b) := scale10 x (1 - n) in
    let '(c, d) := scale10 x (- n) in
    (b <=? a)%Z && (c <? d)%Z in
  default est (find fits (map (fun i => (est - 1 + Z.of_nat i)%Z) (seq 0 5))).

(** The [k]-digit [s] for [x = m * 2^e] with decimal exponent [n]: the
    first [k], from the given one on, for which one of the two
    [k]-digit neighbours of [x] reads back as [x]; seventeen digits
    always do. *)
Fixpoint shortest (m : positive) (e n k : Z) (more : nat) : Z * Z :=
  let '(a, b) := scale10 (ratio m e) (k - n) in
  let lo := (a / b)%Z in
  let hi := (lo + 1)%Z in
  let below := (a - lo * b)%Z in
  let above := (hi * b - a)%Z in
  let near := if (below <? above)%Z then lo
              else if (above <? below)%Z then hi
              else if Z.even lo then lo else hi in
  let back (c : Z) :=
    let '(cn, cd) := scale10 (c, 1%Z) (n - k) in
    match round_ratio false cn cd with
    | Bin _ m' e' => (m' =? m)%positive && (e' =? e)%Z
    | _ => false
    end in
  match more with
  | O => (near, k)
  | S more' =>
      match back lo, back hi with
      | true, true => (near, k)
      | true, false => (lo, k)
      | false, true => (hi, k)
      | false, false => shortest m e n (k + 1) more'
      end
  end.

(** The digits [s] (there are [k]) with the decimal point after the
    first [n] of them: plain from 10^-6 up to 10^21, with an exponent
    otherwise. *)
Definition format_decimal (s k n : Z) : jsstring :=
  let ds := dec (Z.to_N s) in
  if (-5 <=? n)%Z && (n <=? 21)%Z then
    if (k <=? n)%Z then ds ++ replicate (Z.to_nat (n - k)) c_0
    else if (0 <? n)%Z then take (Z.to_nat n) ds ++ c_DOT :: drop (Z.to_nat n) ds
    else c_0 :: c_DOT :: replicate (Z.to_nat (- n)) c_0 ++ ds
  else
    let x := (n - 1)%Z in
    let exponent :=
      c_e :: (if (0 <=? x)%Z then c_PLUS else c_MINUS) :: dec (Z.abs_N x) in
    match ds with
    | d :: (_ :: _) as r => d :: c_DOT :: r ++ exponent
    | _ => ds ++ exponent
    end.

(** The magnitude [m * 2^e] in decimal. *)
Definition bin_string (m : positive) (e : Z) : jsstring :=
  let n := decimal_exponent (ratio m e) in
  let '(s, k) := shortest m e n 1 16 in
  if (s =? 10 ^ k)%Z then format_decimal (10 ^ (k - 1)) k (n + 1)
  else format_decimal s k n.

(** Number::toString: an integer of magnitude at most 2^53 prints as
    its decimal digits. *)
Definition ToString (x : number) : option jsstring :=
  match x with
  | NaN => Some (str "NaN")
  | Int z => Some (int_string z)
  | Bin neg m e => Some (if neg then c_MINUS :: bin_string m e else bin_string m e)
  | Inf neg => Some (if neg then c_MINUS :: Infinity_lit else Infinity_lit)
  end.

(** ** Versioning ([services/versionService])

    [src/services/persistenceService.ts], lines 45 to 86. *)

(** [localStorage]: a store from keys to strings. *)
Abbreviation Storage := (gmap jsstring jsstring).

Definition VERSION_KEY : jsstring := str "legal_app_version".
Definition DEFAULT_VERSION : jsstring := str "1.0.0".

(** [localStorage.getItem(VERSION_KEY) || DEFAULT_VERSION], in a
    browser: an absent entry and an empty one both give the default. *)
Definition getStoredVersion (ls : Storage) : jsstring :=
  match ls !! VERSION_KEY with
  | Some (c :: v) => c :: v
  | _ => DEFAULT_VERSION
  end.

(** [parts.length !== 3 || parts.some(isNaN)] *)
Definition invalid_format (parts : list number) : bool :=
  negb (Nat.eqb (length parts) 3) || existsb isNaN parts.

(** The carry chain and the template literal
    [`${major}.${minor}.${patch}`]. *)
Definition rollover (major minor patch : number) : option jsstring :=
  patch ← incr patch;                                     (* patch++ *)
  over ← gt patch 9;                                      (* if (patch > 9) *)
  '(patch, minor) ← (if over : bool
                     then minor' ← incr minor; Some (Int 0, minor')
                     else Some (patch, minor));
  over ← gt minor 9;                                      (* if (minor > 9) *)
  '(minor, major) ← (if over : bool
                     then major' ← incr major; Some (Int 0, major')
                     else Some (minor, major));
  a ← ToString major;
  b ← ToString minor;
  c ← ToString patch;
  Some (a ++ c_DOT :: b ++ c_DOT :: c).

(** [incrementVersion(currentVersion)]: the returned version and the
    store after [localStorage.setItem]. *)
Definition incrementVersion (ls : Storage) (currentVersion : jsstring)
  : option (jsstring * Storage) :=
  let parts := map Number (split c_DOT currentVersion) in
  if invalid_format parts then
    let resetVersion := str "1.0.1" in
    Some (resetVersion, <[VERSION_KEY := resetVersion]> ls)
  else
    match parts with
    | [major; minor; patch] =>
        newVersion ← rollover major minor patch;
        Some (newVersion, <[VERSION_KEY := newVersion]> ls)
    | _ => None
    end.

(** The revision string [major.minor.patch] of three naturals. *)
Definition version_string (major minor patch : N) : jsstring :=
  dec major ++ c_DOT :: dec minor ++ c_DOT :: dec patch.

(** Digit-rollover addition, as the specification words it. *)
Definition rollover_spec (major minor patch : N) : N * N * N :=
  if patch + 1 <=? 9 then (major, minor, patch + 1)
  else if minor + 1 <=? 9 then (major, minor + 1, 0)
  else (major + 1, 0, 0).

(** [x++] on an integer of magnitude at most 2^53. *)
Definition succ_sat (z : Z) : Z := if (z <? MAX_EXACT)%Z then (z + 1)%Z else z.

(** The carry chain of [incrementVersion] on three integers. *)
Definition carry (major minor patch : Z) : Z * Z * Z :=
  let patch := succ_sat patch in
  let '(patch, minor) :=
    if (9 <? patch)%Z then (0%Z, succ_sat minor) else (patch, minor) in
  let '(minor, major) :=
    if (9 <? minor)%Z then (0%Z, succ_sat major) else (minor, major) in
  (major, minor, patch).

(** The revision string of three integers. *)
Definition revision (major minor patch : Z) : jsstring :=
  int_string major ++ c_DOT :: int_string minor ++ c_DOT :: int_string patch.

(** A run of decimal digits. *)
Definition all_digits (s : jsstring) : Prop := Forall (fun c => is_digit c = true) s.

(** ** JSON values

    The values [JSON.parse] returns and [JSON.stringify] accepts.  An
    object lists its own properties in enumeration order. *)

#[local] Set Warnings "-register-all".

Inductive json : Type :=
| JNull
| JBool (b : bool)
| JNum (n : number)
| JStr (s : jsstring)
| JArr (items : list json)
| JObj (members : list (jsstring * json)).

(** ToBoolean. *)
Definition truthy (v : json) : bool :=
  match v with
  | JNull => false
  | JBool b => b
  | JNum NaN => false
  | JNum (Int z) => negb (z =? 0)%Z
  | JNum (Bin _ _ _) | JNum (Inf _) => true
  | JStr s => match s with [] => false | _ => true end
  | JArr _ | JObj _ => true
  end.

Fixpoint assoc (k : jsstring) (members : list (jsstring * json)) : option json :=
  match members with
  | [] => None
  | (k', v) :: r => if jsstring_eqb k k' then Some v else assoc k r
  end.

(** [v.k] for a value [v] other than [null] and a name [k] that no
    built-in prototype defines ([record], [compressed], [data],
    [templates], [version], [id]): the own property of an object,
    [undefined] ([None]) otherwise. *)
Definition get (v : json) (k : jsstring) : option json :=
  match v with
  | JObj members => assoc k members
  | _ => None
  end.

(** [Array.isArray(x)] for a property that may be [undefined]. *)
Definition isArray (x : option json) : bool :=
  match x with Some (JArr _) => true | _ => false end.

(** ToBoolean of a property that may be [undefined]. *)
Definition truthy_opt (x : option json) : bool :=
  match x with Some v => truthy v | None => false end.

(** *** Property creation order

    [JSON.parse] creates the properties of an object one by one: a name
    seen again keeps its place and takes the new value, an array index
    goes among the array indices in ascending order, any other name goes
    last. *)

Definition array_index (k : jsstring) : option N :=
  match digits1_value 10 k with
  | Some n => if jsstring_eqb (dec n) k && (n <=? 4294967294) then Some n else None
  | None => None
  end.

Fixpoint has_key (k : jsstring) (members : list (jsstring * json)) : bool :=
  match members with
  | [] => false
  | (k', _) :: r => jsstring_eqb k k' || has_key k r
  end.

Fixpoint update (k : jsstring) (v : json) (members : list (jsstring * json))
  : list (jsstring * json) :=
  match members with
  | [] => []
  | (k', v') :: r =>
      if jsstring_eqb k k' then (k', v) :: r else (k', v') :: update k v r
  end.

Fixpoint insert_index (n : N) (k : jsstring) (v : json)
  (members : list (jsstring * json)) : list (jsstring * json) :=
  match members with
  | [] => [(k, v)]
  | (k', v') :: r =>
      match array_index k' with
      | Some n' => if n <? n' then (k, v) :: members
                   else (k', v') :: insert_index n k v r
      | None => (k, v) :: members
      end
  end.

Definition define_property (k : jsstring) (v : json)
  (members : list (jsstring * json)) : list (jsstring * json) :=
  if has_key k members then update k v members
  else match array_index k with
       | Some n => insert_index n k v members
       | None => members ++ [(k, v)]
       end.

Definition build_object (members : list (jsstring * json)) : list (jsstring * json) :=
  fold_left (fun acc kv => define_property (fst kv) (snd kv) acc) members [].

(** ** [JSON.stringify] *)

(** The hexadecimal digit of a value below sixteen, in lower case. *)
Definition hex_digit (d : N) : N := if d <? 10 then c_0 + d else c_a + (d - 10).

(** [\uXXXX], in lower case. *)
Definition unicode_escape (c : N) : jsstring :=
  [c_BACKSLASH; c_u; hex_digit (c / 4096 mod 16); hex_digit (c / 256 mod 16);
   hex_digit (c / 16 mod 16); hex_digit (c mod 16)].

Definition is_high_surrogate (c : N) : bool := (55296 <=? c) && (c <=? 56319).
Definition is_low_surrogate (c : N) : bool := (56320 <=? c) && (c <=? 57343).

(** A code unit that is not a surrogate, inside a quoted string. *)
Definition quote_unit (c : N) : jsstring :=
  if c =? c_BS then [c_BACKSLASH; c_b]
  else if c =? c_TAB then [c_BACKSLASH; c_t]
  else if c =? c_LF then [c_BACKSLASH; c_n]
  else if c =? c_FF then [c_BACKSLASH; c_f]
  else if c =? c_CR then [c_BACKSLASH; c_r]
  else if c =? c_QUOTE then [c_BACKSLASH; c_QUOTE]
  else if c =? c_BACKSLASH then [c_BACKSLASH; c_BACKSLASH]
  else if c <? 32 then unicode_escape c
  else [c].

(** A surrogate pair is kept, a lone surrogate is escaped. *)
Fixpoint quote_body (s : jsstring) : jsstring :=
  match s with
  | [] => []
  | c :: s' =>
      if is_high_surrogate c then
        match s' with
        | d :: s'' =>
            if is_low_surrogate d then c :: d :: quote_body s''
            else unicode_escape c ++ quote_body s'
        | [] => unicode_escape c
        end
      else if is_low_surrogate c then unicode_escape c ++ quote_body s'
      else quote_unit c ++ quote_body s'
  end.

Definition QuoteJSONString (s : jsstring) : jsstring :=
  c_QUOTE :: quote_body s ++ [c_QUOTE].

Definition newline_indent (ind : nat) : jsstring := c_LF :: repeat c_SPACE ind.

Fixpoint join (sep : jsstring) (l : list jsstring) : jsstring :=
  match l with
  | [] => []
  | x :: r => match r with [] => x | _ => x ++ sep ++ join sep r end
  end.

(** The brackets around the serialized elements or properties: nothing
    between them when there are none, no white space when the gap is
    empty, one element per indented line otherwise. *)
Definition wrap (opening closing : N) (gap ind : nat) (parts : list jsstring)
  : jsstring :=
  match parts with
  | [] => [opening; closing]
  | _ =>
      match gap with
      | O => opening :: join [c_COMMA] parts ++ [closing]
      | _ => opening :: newline_indent (ind + gap)
               ++ join (c_COMMA :: newline_indent (ind + gap)) parts
               ++ newline_indent ind ++ [closing]
      end
  end.

(** SerializeJSONProperty at indentation [ind], with a gap of [gap]
    spaces.  A NaN and an infinity are written [null]; of the finite
    numbers only the integers of magnitude at most 2^53 have a
    serialization in the model (see [JSON_stringify]). *)
Fixpoint serialize (gap ind : nat) (v : json) : jsstring :=
  match v with
  | JNull => str "null"
  | JBool b => if b then str "true" else str "false"
  | JNum (Int z) => int_string z
  | JNum _ => str "null"
  | JStr s => QuoteJSONString s
  | JArr items =>
      wrap c_LBRACKET c_RBRACKET gap ind (map (serialize gap (ind + gap)) items)
  | JObj members =>
      wrap c_LBRACE c_RBRACE gap ind
        (map (fun kv => QuoteJSONString (fst kv) ++ c_COLON
                        :: match gap with O => [] | _ => [c_SPACE] end
                        ++ serialize gap (ind + gap) (snd kv)) members)
  end.

(** Every finite number in the value is an integer of magnitude at
    most 2^53. *)
Fixpoint tracked (v : json) : bool :=
  match v with
  | JNum (Bin _ _ _) => false
  | JArr items => forallb tracked items
  | JObj members => forallb (fun kv => tracked (snd kv)) members
  | _ => true
  end.

(** [JSON.stringify(v, null, space)] for a number [space] (at most ten
    spaces are used); [None] when [v] holds another finite number. *)
Definition JSON_stringify (v : json) (space : nat) : option jsstring :=
  if tracked v then Some (serialize (Nat.min space 10) 0 v) else None.

(** ** [JSON.parse] *)

Definition is_json_ws (c : N) : bool :=
  (c =? c_SPACE) || (c =? c_TAB) || (c =? c_LF) || (c =? c_CR).

Fixpoint skip_ws (s : jsstring) : jsstring :=
  match s with
  | c :: s' => if is_json_ws c then skip_ws s' else s
  | [] => []
  end.

(** The longest run of decimal digits at the front, and the rest. *)
Fixpoint span_digits (s : jsstring) : jsstring * jsstring :=
  match s with
  | c :: s' =>
      if is_digit c then let '(d, r) := span_digits s' in (c :: d, r)
      else ([], s)
  | [] => ([], [])
  end.

(** After an opening quote: the characters up to the closing quote,
    escapes decoded, and what follows the closing quote. *)
Fixpoint parse_string_body (s : jsstring) : option (jsstring * jsstring) :=
  match s with
  | [] => None
  | c :: s1 =>
      if c =? c_QUOTE then Some ([], s1)
      else if c =? c_BACKSLASH then
        match s1 with
        | [] => None
        | e :: s2 =>
            if e =? c_u then
              match s2 with
              | h1 :: h2 :: h3 :: h4 :: s3 =>
                  match digits_value 16 0 [h1; h2; h3; h4], parse_string_body s3 with
                  | Some u, Some (t, r) => Some (u :: t, r)
                  | _, _ => None
                  end
              | _ => None
              end
            else
              let unit :=
                if e =? c_QUOTE then Some c_QUOTE
                else if e =? c_BACKSLASH then Some c_BACKSLASH
                else if e =? c_SLASH then Some c_SLASH
                else if e =? c_b then Some c_BS
                else if e =? c_f then Some c_FF
                else if e =? c_n then Some c_LF
                else if e =? c_r then Some c_CR
                else if e =? c_t then Some c_TAB
                else None in
              match unit, parse_string_body s2 with
              | Some u, Some (t, r) => Some (u :: t, r)
              | _, _ => None
              end
        end
      else if c <? 32 then None
      else match parse_string_body s1 with
           | Some (t, r) => Some (c :: t, r)
           | None => None
           end
  end.

(** The parts of a JSON number, [-? int frac? exp?]: each takes its
    part from the front of the text and returns the rest. *)
Definition number_sign (s : jsstring) : bool * jsstring :=
  match s with
  | c :: u => if c =? c_MINUS then (true, u) else (false, s)
  | [] => (false, s)
  end.

(** [int]: a single zero, or digits that do not begin with zero. *)
Definition number_int (s : jsstring) : option (jsstring * jsstring) :=
  match s with
  | c :: u =>
      if c =? c_0 then Some ([c_0], u)
      else if is_digit c then Some (span_digits s)
      else None
  | [] => None
  end.

(** [frac]: a point and at least one digit, or nothing. *)
Definition number_frac (s : jsstring) : option (jsstring * jsstring) :=
  match s with
  | c :: u =>
      if c =? c_DOT then
        match span_digits u with
        | ([], _) => None
        | (d, r) => Some (d, r)
        end
      else Some ([], s)
  | [] => Some ([], s)
  end.

(** [exp]: [e] or [E], an optional sign and at least one digit, or
    nothing. *)
Definition number_exp (s : jsstring) : option (Z * jsstring) :=
  match s with
  | c :: u =>
      if (c =? c_e) || (c =? c_E) then
        let '(eneg, u) := take_sign u in
        match span_digits u with
        | ([], _) => None
        | (d, r) =>
            (fun n => ((if eneg : bool then (- Z.of_N n)%Z else Z.of_N n), r))
              <$> digits_value 10 0 d
        end
      else Some (0%Z, s)
  | [] => Some (0%Z, s)
  end.

Definition parse_number (s : jsstring) : option (number * jsstring) :=
  let '(neg, s) := number_sign s in
  '(ipart, s) ← number_int s;
  '(frac, s) ← number_frac s;
  '(x, s) ← number_exp s;
  m ← digits_value 10 0 (ipart ++ frac);
  Some (round_decimal neg m (x - Z.of_nat (length frac)), s).

(** [s] begins with the literal [lit]: what follows it. *)
Fixpoint expect (lit s : jsstring) : option jsstring :=
  match lit with
  | [] => Some s
  | c :: lit' =>
      match s with
      | d :: s' => if c =? d then expect lit' s' else None
      | [] => None
      end
  end.

(** One JSON value, white space before it skipped, and the text after
    it; [elements] and [members] read what follows an opening bracket
    that is not closed at once. *)
Definition value_step
  (elements : jsstring -> option (list json * jsstring))
  (members : jsstring -> option (list (jsstring * json) * jsstring))
  (s : jsstring) : option (json * jsstring) :=
  match skip_ws s with
  | [] => None
  | c :: r =>
      if c =? c_QUOTE then
        '(t, r') ← parse_string_body r; Some (JStr t, r')
      else if c =? c_LBRACKET then
        match skip_ws r with
        | [] => None
        | d :: r' =>
            if d =? c_RBRACKET then Some (JArr [], r')
            else '(items, r'') ← elements r; Some (JArr items, r'')
        end
      else if c =? c_LBRACE then
        match skip_ws r with
        | [] => None
        | d :: r' =>
            if d =? c_RBRACE then Some (JObj [], r')
            else '(kvs, r'') ← members r; Some (JObj (build_object kvs), r'')
        end
      else if c =? c_t then r' ← expect (str "rue") r; Some (JBool true, r')
      else if c =? c_f then r' ← expect (str "alse") r; Some (JBool false, r')
      else if c =? c_n then r' ← expect (str "ull") r; Some (JNull, r')
      else '(n, r') ← parse_number (c :: r); Some (JNum n, r')
  end.

(** The elements of an array up to its closing bracket: a value, then
    a comma and more elements, or the bracket. *)
Definition elements_step
  (value : jsstring -> option (json * jsstring))
  (elements : jsstring -> option (list json * jsstring))
  (s : jsstring) : option (list json * jsstring) :=
  '(v, r) ← value s;
  match skip_ws r with
  | [] => None
  | c :: r' =>
      if c =? c_COMMA then '(vs, r'') ← elements r'; Some (v :: vs, r'')
      else if c =? c_RBRACKET then Some ([v], r')
      else None
  end.

(** The members of an object up to its closing brace, in the order of
    the text: a quoted name, a colon, a value, then a comma and more
    members, or the brace. *)
Definition members_step
  (value : jsstring -> option (json * jsstring))
  (members : jsstring -> option (list (jsstring * json) * jsstring))
  (s : jsstring) : option (list (jsstring * json) * jsstring) :=
  match skip_ws s with
  | [] => None
  | q :: r0 =>
      if q =? c_QUOTE then
        '(k, r1) ← parse_string_body r0;
        match skip_ws r1 with
        | [] => None
        | colon :: r2 =>
            if colon =? c_COLON then
              '(v, r) ← value r2;
              match skip_ws r with
              | [] => None
              | c :: r' =>
                  if c =? c_COMMA then
                    '(kvs, r'') ← members r'; Some ((k, v) :: kvs, r'')
                  else if c =? c_RBRACE then Some ([(k, v)], r')
                  else None
              end
            else None
        end
      else None
  end.

(** The parser; [fuel] bounds the number of nested calls. *)
Fixpoint parse_value (fuel : nat) (s : jsstring) : option (json * jsstring) :=
  match fuel with
  | O => None
  | S fuel => value_step (parse_elements fuel) (parse_members fuel) s
  end
with parse_elements (fuel : nat) (s : jsstring) : option (list json * jsstring) :=
  match fuel with
  | O => None
  | S fuel => elements_step (parse_value fuel) (parse_elements fuel) s
  end
with parse_members (fuel : nat) (s : jsstring)
  : option (list (jsstring * json) * jsstring) :=
  match fuel with
  | O => None
  | S fuel => members_step (parse_value fuel) (parse_members fuel) s
  end.

(** [JSON.parse(text)]; [None] is a SyntaxError. *)
Definition JSON_parse (text : jsstring) : option json :=
  match parse_value (2 * length text + 2) text with
  | Some (v, r) => match skip_ws r with [] => Some v | _ => None end
  | None => None
  end.

(** ** Data model ([types], [src/unnamed/part_003]) *)

Record OriginalFile : Type := {
  file_name : jsstring;
  file_data : jsstring;      (* base64 text *)
  file_mimeType : jsstring;
}.

Record Template : Type := {
  id : jsstring;
  name : jsstring;
  category : jsstring;
  description : jsstring;
  structure : jsstring;
  placeholders : list jsstring;
  createdAt : Z;             (* a [Date.now()] time stamp *)
  originalFile : option OriginalFile;
}.

(** The object a [Template] is at run time.  The collection in the
    application state holds run-time values: what a fetch or an import
    stores there is only checked to be an array. *)
Definition Template_to_json (t : Template) : json :=
  JObj ([(str "id", JStr (id t));
         (str "name", JStr (name t));
         (str "category", JStr (category t));
         (str "description", JStr (description t));
         (str "structure", JStr (structure t));
         (str "placeholders", JArr (map JStr (placeholders t)));
         (str "createdAt", JNum (Int (createdAt t)))]
        ++ match originalFile t with
           | Some f => [(str "originalFile",
                         JObj [(str "name", JStr (file_name f));
                               (str "data", JStr (file_data f));
                               (str "mimeType", JStr (file_mimeType f))])]
           | None => []
           end).

Record CloudConfig : Type := {
  endpoint : jsstring;
  apiKey : jsstring;
}.

(** [CloudData]: [{version, templates, lastUpdated}]. *)
Definition CloudData (version : json) (templates : list json) (lastUpdated : Z) : json :=
  JObj [(str "version", version);
        (str "templates", JArr templates);
        (str "lastUpdated", JNum (Int lastUpdated))].

(** ** Errors and results *)

Inductive error : Type :=
| SyncError (status : Z) (statusText : jsstring) (* "Sync Error: <status> <statusText>" *)
| SaveError (status : Z) (statusText : jsstring) (* "Save Error: <status> <statusText>" *)
| FetchRejected         (* [fetch] rejects: the network failed *)
| BodySyntaxError       (* [res.json()] rejects: the body is not JSON *)
| DecompressionError    (* the cloud data is broken or incompatible *)
| InvalidFileError      (* the file is invalid or corrupted *)
| JsonReadError         (* error while reading the JSON file *)
| FileReadError.        (* the file could not be read *)

Inductive result (A : Type) : Type :=
| Ok (a : A)
| Err (e : error).

Arguments Ok {A} a.
Arguments Err {A} e.

(** ** The LZ-String library

    [declare const LZString]: the library is loaded by the page and only
    its interface is part of the sources.  [decompressFromUTF16] gives
    [None] where the library returns [null]. *)
Record LZStringLib : Type := {
  compressToUTF16 : jsstring -> jsstring;
  decompressFromUTF16 : jsstring -> option jsstring;
}.

(** What the library promises: decompression undoes compression. *)
Definition lz_roundtrip (LZString : LZStringLib) : Prop :=
  forall s, s <> [] ->
    decompressFromUTF16 LZString (compressToUTF16 LZString s) = Some s.

(** A stand-in for the library, for the instances below: it keeps the
    text as it is and, as the library does, gives [null] on the empty
    string. *)
Definition plain_codec : LZStringLib :=
  {| compressToUTF16 := fun s => s;
     decompressFromUTF16 := fun s => match s with [] => None | _ => Some s end |}.

(** Another stand-in, which answers the empty string with the empty
    string. *)
Definition verbatim_codec : LZStringLib :=
  {| compressToUTF16 := fun s => s;
     decompressFromUTF16 := fun s => Some s |}.

(** ** The remote sync client ([services/syncService],
    [src/unnamed/part_004]) *)

Record Request : Type := {
  method : jsstring;
  url : jsstring;
  headers : list (jsstring * jsstring);
  request_body : option jsstring;
}.

Record Response : Type := {
  ok : bool;
  status : Z;
  statusText : jsstring;
  body : jsstring;
}.

(** What [fetch] does with a request: it rejects, or a response
    arrives. *)
Inductive fetch_outcome : Type :=
| Rejected
| Responded (res : Response).

Definition network : Type := Request -> fetch_outcome.

(** The headers of both requests: the key, when there is one, under
    three conventions at once. *)
Definition request_headers (config : CloudConfig) : list (jsstring * jsstring) :=
  (str "Content-Type", str "application/json")
  :: match apiKey config with
     | [] => []
     | key => [(str "X-Access-Key", key);
               (str "X-Master-Key", key);
               (str "Authorization", str "Bearer " ++ key)]
     end.

Section SyncService.

Context (LZString : LZStringLib).

(** The compression step of [saveCloudData]:
    [LZString.compressToUTF16(JSON.stringify(data))]. *)
Definition compress (data : json) : option jsstring :=
  compressToUTF16 LZString <$> JSON_stringify data 0.

(** The decompression step of [parseResponse]: an empty or missing
    result and a text that does not parse both end in the same error. *)
Definition decompress (data : jsstring) : result json :=
  match decompressFromUTF16 LZString data with
  | Some (c :: decompressedString) =>
      match JSON_parse (c :: decompressedString) with
      | Some parsedData => Ok parsedData
      | None => Err DecompressionError
      end
  | _ => Err DecompressionError
  end.

(** [rawResponse && rawResponse.record ? rawResponse.record : rawResponse] *)
Definition unwrap_record (rawResponse : json) : json :=
  if truthy rawResponse then
    match get rawResponse (str "record") with
    | Some record => if truthy record then record else rawResponse
    | None => rawResponse
    end
  else rawResponse.

(** [payload && payload.compressed === true && typeof payload.data === 'string']:
    the compressed text, when the payload is flagged so. *)
Definition compressed_data (payload : json) : option jsstring :=
  if truthy payload then
    match get payload (str "compressed"), get payload (str "data") with
    | Some (JBool true), Some (JStr data) => Some data
    | _, _ => None
    end
  else None.

Definition parseResponse (rawResponse : json) : result json :=
  let payload := unwrap_record rawResponse in
  match compressed_data payload with
  | Some data => decompress data
  | None =>
      if truthy payload && isArray (get payload (str "templates"))
      then Ok payload
      else Ok payload
  end.

Definition fetchCloudData (net : network) (config : CloudConfig) : result json :=
  match net {| method := str "GET"; url := endpoint config;
               headers := request_headers config; request_body := None |} with
  | Rejected => Err FetchRejected
  | Responded res =>
      if negb (ok res) then Err (SyncError (status res) (statusText res))
      else match JSON_parse (body res) with
           | Some json => parseResponse json
           | None => Err BodySyntaxError
           end
  end.

(** The body of the PUT request:
    [{compressed: true, data: compressedString, updatedAt: <ISO time>}]. *)
Definition compressed_payload (data : json) (updatedAt : jsstring) : option json :=
  compressedString ← compress data;
  Some (JObj [(str "compressed", JBool true);
              (str "data", JStr compressedString);
              (str "updatedAt", JStr updatedAt)]).

(** [None] when the data holds a number that [JSON_stringify] does not
    cover. *)
Definition saveCloudData (net : network) (config : CloudConfig) (data : json)
  (updatedAt : jsstring) : option (result unit) :=
  payload ← compressed_payload data updatedAt;
  text ← JSON_stringify payload 0;
  match net {| method := str "PUT"; url := endpoint config;
               headers := request_headers config; request_body := Some text |} with
  | Rejected => Some (Err FetchRejected)
  | Responded res =>
      if negb (ok res) then Some (Err (SaveError (status res) (statusText res)))
      else Some (Ok tt)
  end.

End SyncService.

(** ** Import and export ([services/persistenceService])

    [src/services/persistenceService.ts], lines 1 to 45. *)

Record File : Type := {
  filename : jsstring;
  content : jsstring;
}.

(** [exportData(templates, version)] at time [now]: the file the
    browser downloads.  [None] when the collection holds a number that
    [JSON_stringify] does not cover. *)
Definition exportData (templates : list json) (version : jsstring) (now : Z)
  : option File :=
  let data := JObj [(str "version", JStr version);
                    (str "templates", JArr templates);
                    (str "exportedAt", JNum (Int now))] in
  text ← JSON_stringify data 2;
  Some {| filename := str "legal_secretary_backup_Vr_" ++ version ++ str ".json";
          content := text |}.

(** What [FileReader.readAsText] gives: the text, or a read error. *)
Inductive file_read : Type :=
| ReadText (text : jsstring)
| ReadFailed.

(** [parseImportData(file)]: the promise resolves with
    [{templates, version}] or rejects.  Reading a property of [null]
    throws inside the [try], and the [catch] rejects. *)
Definition parseImportData (file : file_read) : result (list json * json) :=
  match file with
  | ReadFailed => Err FileReadError
  | ReadText text =>
      match JSON_parse text with
      | None => Err JsonReadError
      | Some JNull => Err JsonReadError
      | Some data =>
          let templates := get data (str "templates") in
          let version := get data (str "version") in
          if negb (truthy_opt templates) || negb (isArray templates)
             || negb (truthy_opt version)
          then Err InvalidFileError
          else match templates, version with
               | Some (JArr templates), Some version => Ok (templates, version)
               | _, _ => Err InvalidFileError
               end
      end
  end.

(** ** The application state coordinator ([App], [src/unnamed/part_000])

    The state holds what the [useState] hooks hold.  The collection and
    the revision are run-time values: a fetch or an import stores what
    it received, checked only as far as the handlers check it.  The
    handlers below write the store through [incrementVersion] only; the
    effects that mirror the collection and the revision to local
    storage are events of their own, further down. *)

(** The clock, read when a handler runs: [Date.now()], and
    [new Date()] as [toISOString()] and [toLocaleTimeString()] print
    it. *)
Record Date : Type := {
  Date_now : Z;
  toISOString : jsstring;
  toLocaleTimeString : jsstring;
}.

Record AppState : Type := {
  templates : list json;
  version : json;
  cloudConfig : CloudConfig;
  isSyncing : bool;
  lastSyncTime : jsstring;
  localStorage : Storage;
  saveTimer : option nat;   (* the pending debounced save and its delay, in ms *)
}.

Definition setTemplates (ts : list json) (st : AppState) : AppState :=
  {| templates := ts; version := version st; cloudConfig := cloudConfig st;
     isSyncing := isSyncing st; lastSyncTime := lastSyncTime st;
     localStorage := localStorage st; saveTimer := saveTimer st |}.

Definition setVersion (v : json) (st : AppState) : AppState :=
  {| templates := templates st; version := v; cloudConfig := cloudConfig st;
     isSyncing := isSyncing st; lastSyncTime := lastSyncTime st;
     localStorage := localStorage st; saveTimer := saveTimer st |}.

Definition setIsSyncing (b : bool) (st : AppState) : AppState :=
  {| templates := templates st; version := version st; cloudConfig := cloudConfig st;
     isSyncing := b; lastSyncTime := lastSyncTime st;
     localStorage := localStorage st; saveTimer := saveTimer st |}.

Definition setLastSyncTime (t : jsstring) (st : AppState) : AppState :=
  {| templates := templates st; version := version st; cloudConfig := cloudConfig st;
     isSyncing := isSyncing st; lastSyncTime := t;
     localStorage := localStorage st; saveTimer := saveTimer st |}.

Definition setLocalStorage (ls : Storage) (st : AppState) : AppState :=
  {| templates := templates st; version := version st; cloudConfig := cloudConfig st;
     isSyncing := isSyncing st; lastSyncTime := lastSyncTime st;
     localStorage := ls; saveTimer := saveTimer st |}.

Definition setSaveTimer (t : option nat) (st : AppState) : AppState :=
  {| templates := templates st; version := version st; cloudConfig := cloudConfig st;
     isSyncing := isSyncing st; lastSyncTime := lastSyncTime st;
     localStorage := localStorage st; saveTimer := t |}.

Definition endpoint_set (st : AppState) : bool :=
  match endpoint (cloudConfig st) with [] => false | _ => true end.

Section Coordinator.

Context (LZString : LZStringLib).

(** The body of the [try] of [handleCloudSync], started in state [st]:
    what the state is when the request has completed.  [None] when the
    data to save holds a number that [JSON_stringify] does not cover. *)
Definition sync_body (net : network) (fetchOnly : bool) (date : Date)
  (st : AppState) : option AppState :=
  if fetchOnly then
    match fetchCloudData LZString net (cloudConfig st) with
    | Ok data =>
        match (if truthy data then get data (str "templates") else None) with
        | Some (JArr ts) =>
            let st := setTemplates ts st in
            let st := match get data (str "version") with
                      | Some v => if truthy v then setVersion v st else st
                      | None => st
                      end in
            Some (setLastSyncTime (toLocaleTimeString date) st)
        | _ => Some st
        end
    | Err _ => Some st      (* caught and logged *)
    end
  else
    r ← saveCloudData LZString net (cloudConfig st)
          (CloudData (version st) (templates st) (Date_now date)) (toISOString date);
    match r with
    | Ok _ => Some (setLastSyncTime (toLocaleTimeString date) st)
    | Err _ => Some st      (* caught and logged *)
    end.

(** [handleCloudSync(fetchOnly)]: nothing without an endpoint;
    otherwise the syncing flag is raised, the body runs, and the
    [finally] lowers the flag. *)
Definition handleCloudSync (net : network) (fetchOnly : bool) (date : Date)
  (st : AppState) : option AppState :=
  if endpoint_set st then
    st' ← sync_body net fetchOnly date (setIsSyncing true st);
    Some (setIsSyncing false st')
  else Some st.

End Coordinator.

(** The auto-save effect, which runs when the collection, the revision
    or the endpoint has changed: the pending timer is cleared, and a new
    one of two seconds is started when an endpoint is configured. *)
Definition autoSaveEffect (st : AppState) : AppState :=
  setSaveTimer (if endpoint_set st then Some 2000%nat else None) st.

(** How a handler that updates the collection and then calls
    [incrementVersion] ends, and the state of the next render. *)
Inductive ending : Type :=
| Returns (st : AppState)
    (* the handler returned: both updates are applied *)
| Throws (st : AppState)
    (* [incrementVersion] raised a TypeError, which leaves the handler:
       the update of the collection, queued before, is applied, the
       revision and the store are as they were *)
| RenderRaises (ls : Storage).
    (* the function given to [setTemplates] raised when React ran it:
       there is no next render; the store is as the handler left it *)

(** [const newVer = incrementVersion(version); setVersion(newVer)] in a
    handler whose earlier updates give [st].  The revision must be a
    string: [split] is not a function of other values. *)
Definition bump_version (st : AppState) : option ending :=
  match version st with
  | JStr v =>
      '(newVer, ls) ← incrementVersion (localStorage st) v;
      Some (Returns (setVersion (JStr newVer) (setLocalStorage ls st)))
  | _ => Some (Throws st)
  end.

(** [handleAddTemplate(newTemplate)] *)
Definition handleAddTemplate (newTemplate : json) (st : AppState) : option ending :=
  bump_version (setTemplates (newTemplate :: templates st) st).

(** [t.id === id], for [t] other than [null]. *)
Definition has_id (id : jsstring) (t : json) : bool :=
  match get t (str "id") with
  | Some (JStr s) => jsstring_eqb s id
  | _ => false
  end.

(** [t.id !== id]; reading a property of [null] throws. *)
Definition id_differs (id : jsstring) (t : json) : option bool :=
  match t with
  | JNull => None
  | _ => Some (negb (has_id id t))
  end.

(** [prev.filter(t => t.id !== id)]; [None] when it raises. *)
Fixpoint filter_templates (id : jsstring) (prev : list json) : option (list json) :=
  match prev with
  | [] => Some []
  | t :: rest =>
      keep ← id_differs id t;
      kept ← filter_templates id rest;
      Some (if keep : bool then t :: kept else kept)
  end.

(** The store a handler leaves. *)
Definition store_after (e : ending) : Storage :=
  match e with
  | Returns st | Throws st => localStorage st
  | RenderRaises ls => ls
  end.

(** [handleDeleteTemplate(id)].  The filter runs when React applies
    the update, after the handler: with a [null] in the collection it
    raises there. *)
Definition handleDeleteTemplate (id : jsstring) (st : AppState) : option ending :=
  match filter_templates id (templates st) with
  | Some ts => bump_version (setTemplates ts st)
  | None => e ← bump_version st; Some (RenderRaises (store_after e))
  end.

(** What the user is told at the end of [handleFileChange]. *)
Inductive notice : Type :=
| RestoreSucceeded
| RestoreFailed (e : error).

(** [handleFileChange]: no file chosen, or a file and the answer the
    user gives when asked to confirm. *)
Definition handleFileChange (file : option file_read) (confirmed : bool)
  (st : AppState) : AppState * option notice :=
  match file with
  | None => (st, None)
  | Some f =>
      match parseImportData f with
      | Ok (importedTemplates, importedVersion) =>
          if confirmed then
            (setVersion importedVersion (setTemplates importedTemplates st),
             Some RestoreSucceeded)
          else (st, None)
      | Err e => (st, Some (RestoreFailed e))
      end
  end.

(** ** Vocabulary of the statements *)

(** The result of reading one more character [c] before [x]. *)
Definition cons_result (c : N) (x : option (jsstring * jsstring))
  : option (jsstring * jsstring) :=
  match x with Some (t, r) => Some (c :: t, r) | None => None end.

(** Text that may follow a number: it does not continue it. *)
Definition delimited (rest : jsstring) : Prop :=
  match rest with
  | [] => True
  | c :: _ => is_digit c = false /\ c <> 46 /\ c <> 101 /\ c <> 69
  end.

(** Decimal digits without a leading zero, or the single digit zero. *)
Definition canonical_digits (d : jsstring) : Prop :=
  all_digits d /\ match d with
                  | [] => False
                  | c :: t => c = 48 -> t = []
                  end.

(** A parser leaves less text than it was given. *)
Definition shrinks {A} (p : jsstring -> option (A * jsstring)) : Prop :=
  forall s x r, p s = Some (x, r) -> (length r < length s)%nat.

(** [q] gives what [p] gives on the texts shorter than [n]. *)
Definition extends {A} (n : nat) (p q : jsstring -> option (A * jsstring)) : Prop :=
  forall s x, (length s < n)%nat -> p s = Some x -> q s = Some x.

(** White space of the JSON grammar. *)
Definition all_ws (s : jsstring) : Prop := Forall (fun c => is_json_ws c = true) s.

(** The nested calls the parser makes on the serialization of a
    value. *)
Fixpoint json_size (v : json) : nat :=
  match v with
  | JArr items => S (fold_right (fun x n => S (json_size x + n)) 0%nat items)
  | JObj members =>
      S (fold_right (fun kv n => S (json_size (snd kv) + n)) 0%nat members)
  | _ => 1
  end.

(** The values that a round trip through JSON text gives back: every
    number is an integer of magnitude at most 2^53, and every object lists its properties
    in the order their creation gives. *)
Fixpoint serializable (v : json) : Prop :=
  match v with
  | JNum (Int z) => (Z.abs z <= MAX_EXACT)%Z
  | JNum _ => False
  | JArr items => fold_right (fun x P => serializable x /\ P) True items
  | JObj members =>
      build_object members = members
      /\ fold_right (fun kv P => serializable (snd kv) /\ P) True members
  | _ => True
  end.

(** The serialization of a value begins with a character that starts a
    value. *)
Definition value_start (c : N) : Prop :=
  is_json_ws c = false /\ c <> 93 /\ c <> 125.

(** The statement of the round trip for one value, as the induction
    carries it. *)
Definition roundtrips (x : json) : Prop :=
  serializable x -> forall gap ind fuel rest,
    (json_size x <= fuel)%nat -> delimited rest ->
    parse_value fuel (serialize gap ind x ++ rest) = Some (x, rest).

(** The payloads the remote store returns: [{compressed: true, data}],
    a payload under [record], and the legacy [{templates, version}]. *)
Definition compressed_record (data : jsstring) : json :=
  JObj [(str "compressed", JBool true); (str "data", JStr data)].

Definition under_record (payload : json) : json :=
  JObj [(str "record", payload)].

Definition legacy_payload (templates : list json) (version : jsstring) : json :=
  JObj [(str "templates", JArr templates); (str "version", JStr version)].

(** *** Sample data *)

Definition sample_template : Template :=
  {| id := str "tpl-001";
     name := str "Leave request";
     category := str "Administration";
     description := str "A standard leave request.";
     structure := str "To: {{RECIPIENT}} From: {{EMPLOYEE}}";
     placeholders := [str "RECIPIENT"; str "EMPLOYEE"];
     createdAt := 1700000000000;
     originalFile := None |}.

Definition sample_collection : list json :=
  [Template_to_json sample_template].

Definition sample_cloud_data : json :=
  CloudData (JStr (str "1.0.3")) sample_collection 1700000000500.

(** A store that answers every request with status 200 and the given
    body, one that answers with status 500, and a network that is
    down. *)
Definition respond_with (text : jsstring) : network :=
  fun _ => Responded {| ok := true; status := 200; statusText := str "OK";
                        body := text |}.

Definition respond_500 : network :=
  fun _ => Responded {| ok := false; status := 500;
                        statusText := str "Internal Server Error"; body := [] |}.

Definition network_down : network := fun _ => Rejected.

Definition sample_config : CloudConfig :=
  {| endpoint := str "https://api.example.org/b/1"; apiKey := str "key" |}.

Definition sample_state : AppState :=
  {| templates := sample_collection;
     version := JStr (str "1.0.5");
     cloudConfig := sample_config;
     isSyncing := false;
     lastSyncTime := [];
     localStorage := <[VERSION_KEY := str "1.0.5"]> ∅;
     saveTimer := None |}.

Definition sample_date : Date :=
  {| Date_now := 1700000000500;
     toISOString := str "2023-11-14T22:13:20.500Z";
     toLocaleTimeString := str "22:13:20" |}.

(** The text of a remote payload with an empty revision. *)
Definition empty_revision_body : jsstring :=
  serialize 0 0 (JObj [(str "version", JStr []); (str "templates", JArr [])]).

(** Two templates with the same [id] and one with another. *)
Definition duplicate_collection : list json :=
  [JObj [(str "id", JStr (str "a")); (str "name", JStr (str "first"))];
   JObj [(str "id", JStr (str "b")); (str "name", JStr (str "second"))];
   JObj [(str "id", JStr (str "a")); (str "name", JStr (str "third"))]].

(** A state at revision ["1.0.0"] and a template that is not in it. *)
Definition fresh_state : AppState :=
  setVersion (JStr (str "1.0.0"))
    (setLocalStorage (<[VERSION_KEY := str "1.0.0"]> ∅) sample_state).

Definition other_template : json :=
  JObj [(str "id", JStr (str "tpl-002")); (str "name", JStr (str "Contract"))].

(** ** Vocabulary of the further properties *)

(** The versions that the application gives itself: those that
    [incrementVersion] resets, and those whose three parts are integers
    of magnitude at most 2^53. *)
Definition reset_or_integers (v : jsstring) : Prop :=
  invalid_format (map Number (split c_DOT v)) = true
  \/ exists a b c, map Number (split c_DOT v) = [Int a; Int b; Int c].

(** The request [saveCloudData] sends with the body [text], and what
    it makes of the outcome. *)
Definition put_request (config : CloudConfig) (text : jsstring) : Request :=
  {| method := str "PUT"; url := endpoint config;
     headers := request_headers config; request_body := Some text |}.

Definition save_outcome (o : fetch_outcome) : result unit :=
  match o with
  | Rejected => Err FetchRejected
  | Responded res =>
      if negb (ok res) then Err (SaveError (status res) (statusText res)) else Ok tt
  end.

(** What a JSONBin store answers to a GET: the stored payload under
    [record], beside [metadata]. *)
Definition jsonbin_body (payload metadata : json) : json :=
  JObj [(str "record", payload); (str "metadata", metadata)].

(** ** Further handlers and effects of the coordinator
    ([App], [src/unnamed/part_000]) *)

(** [handleExport]: [exportData(templates, version)], at the time
    [now].  [None] when the revision is not a string, which
    [exportData] is not modelled on, or when the collection holds a
    number that [JSON_stringify] does not cover. *)
Definition handleExport (now : Z) (st : AppState) : option File :=
  match version st with
  | JStr v => exportData (templates st) v now
  | _ => None
  end.

(** A handler is a closure of the render that created it: the
    collection is updated from the state the call finds
    ([setTemplates(prev => ...)]), the revision is computed from the
    [version] that render saw.  [handleAddTemplate] and
    [handleDeleteTemplate] above are the handlers of the latest render,
    [seen = version st]. *)
Definition bump_version_of (seen : json) (st : AppState) : option ending :=
  match seen with
  | JStr v =>
      '(newVer, ls) ← incrementVersion (localStorage st) v;
      Some (Returns (setVersion (JStr newVer) (setLocalStorage ls st)))
  | _ => Some (Throws st)
  end.

Definition handleAddTemplate_of (seen : json) (newTemplate : json) (st : AppState)
  : option ending :=
  bump_version_of seen (setTemplates (newTemplate :: templates st) st).

Definition handleDeleteTemplate_of (seen : json) (id : jsstring) (st : AppState)
  : option ending :=
  match filter_templates id (templates st) with
  | Some ts => bump_version_of seen (setTemplates ts st)
  | None => e ← bump_version_of seen st; Some (RenderRaises (store_after e))
  end.

(** The state of the next render, when there is one. *)
Definition next_render (e : ending) : option AppState :=
  match e with
  | Returns st | Throws st => Some st
  | RenderRaises _ => None
  end.

(** *** Local persistence *)

Definition TEMPLATES_KEY : jsstring := str "legal_templates".
Definition CLOUD_CONFIG_KEY : jsstring := str "legal_cloud_config".

(** The object a [CloudConfig] is at run time, [{endpoint, apiKey}],
    and the configuration an object with two strings is. *)
Definition CloudConfig_to_json (c : CloudConfig) : json :=
  JObj [(str "endpoint", JStr (endpoint c)); (str "apiKey", JStr (apiKey c))].

Definition CloudConfig_of_json (v : json) : option CloudConfig :=
  match get v (str "endpoint"), get v (str "apiKey") with
  | Some (JStr e), Some (JStr k) => Some {| endpoint := e; apiKey := k |}
  | _, _ => None
  end.

Definition setCloudConfig (c : CloudConfig) (st : AppState) : AppState :=
  {| templates := templates st; version := version st; cloudConfig := c;
     isSyncing := isSyncing st; lastSyncTime := lastSyncTime st;
     localStorage := localStorage st; saveTimer := saveTimer st |}.

(** [saveSettings(newConfig)] *)
Definition saveSettings (newConfig : CloudConfig) (st : AppState) : option AppState :=
  text ← JSON_stringify (CloudConfig_to_json newConfig) 0;
  Some (setLocalStorage (<[CLOUD_CONFIG_KEY := text]> (localStorage st))
          (setCloudConfig newConfig st)).

(** The effect that runs when the collection has changed:
    [localStorage.setItem('legal_templates', JSON.stringify(templates))].
    [None] when the collection holds a number that [JSON_stringify]
    does not cover. *)
Definition persistTemplatesEffect (st : AppState) : option AppState :=
  text ← JSON_stringify (JArr (templates st)) 0;
  Some (setLocalStorage (<[TEMPLATES_KEY := text]> (localStorage st)) st).

(** The effect that runs when the revision has changed:
    [localStorage.setItem('legal_app_version', version)].  [None] when
    the revision is not a string: the conversion of other values to a
    string is not modelled. *)
Definition persistVersionEffect (st : AppState) : option AppState :=
  match version st with
  | JStr v =>
      Some (setLocalStorage (<[str "legal_app_version" := v]> (localStorage st)) st)
  | _ => None
  end.

Section Mount.

(** The collection the application starts with when nothing is
    stored. *)
Context (INITIAL_TEMPLATES : list json).

(** The initial value of [cloudConfig]:
    [saved ? JSON.parse(saved) : { endpoint: '', apiKey: '' }].  [None]
    when the stored text does not parse (a SyntaxError) or is not an
    object with two strings. *)
Definition initialCloudConfig (ls : Storage) : option CloudConfig :=
  match ls !! CLOUD_CONFIG_KEY with
  | Some (c :: saved) => v ← JSON_parse (c :: saved); CloudConfig_of_json v
  | _ => Some {| endpoint := []; apiKey := [] |}
  end.

(** The initial value of [templates]:
    [saved ? JSON.parse(saved) : INITIAL_TEMPLATES].  [None] when the
    stored text does not parse or is not an array. *)
Definition initialTemplates (ls : Storage) : option (list json) :=
  match ls !! TEMPLATES_KEY with
  | Some (c :: saved) =>
      match JSON_parse (c :: saved) with
      | Some (JArr ts) => Some ts
      | _ => None
      end
  | _ => Some INITIAL_TEMPLATES
  end.

(** The state of the first render, from what local storage holds. *)
Definition initialState (ls : Storage) : option AppState :=
  config ← initialCloudConfig ls;
  ts ← initialTemplates ls;
  Some {| templates := ts;
          version := JStr (getStoredVersion ls);
          cloudConfig := config;
          isSyncing := false;
          lastSyncTime := [];
          localStorage := ls;
          saveTimer := None |}.

End Mount.

(** *** Runs of the application *)

(** One event: a handler or an effect that runs until it returns or
    raises.  The handlers that add and delete come with the revision
    their render saw. *)
Inductive event : Type :=
| AddTemplate (seen : json) (newTemplate : json)
| DeleteTemplate (seen : json) (id : jsstring)
| CloudSync (net : network) (fetchOnly : bool) (date : Date)
| FileChange (file : option file_read) (confirmed : bool)
| SaveSettings (newConfig : CloudConfig)
| PersistTemplates
| PersistVersion
| AutoSave.

Definition run (LZString : LZStringLib) (e : event) (st : AppState) : option AppState :=
  match e with
  | AddTemplate seen newTemplate =>
      e ← handleAddTemplate_of seen newTemplate st; next_render e
  | DeleteTemplate seen id =>
      e ← handleDeleteTemplate_of seen id st; next_render e
  | CloudSync net fetchOnly date => handleCloudSync LZString net fetchOnly date st
  | FileChange file confirmed => Some (fst (handleFileChange file confirmed st))
  | SaveSettings newConfig => saveSettings newConfig st
  | PersistTemplates => persistTemplatesEffect st
  | PersistVersion => persistVersionEffect st
  | AutoSave => Some (autoSaveEffect st)
  end.

Fixpoint run_all (LZString : LZStringLib) (es : list event) (st : AppState)
  : option AppState :=
  match es with
  | [] => Some st
  | e :: es => st' ← run LZString e st; run_all LZString es st'
  end.

(** ** The template manager ([components/TemplateManager],
    [src/unnamed/part_002])

    The manager reads files, asks the model to analyse them, and adds
    the templates it builds through [onAddTemplate].  What the browser
    and the model answer is given to the handlers as an environment. *)

(** [x || d], for a property [x] that may be [undefined]. *)
Definition or_else (x : option json) (d : json) : json :=
  match x with
  | Some v => if truthy v then v else d
  | None => d
  end.

Definition OriginalFile_to_json (f : OriginalFile) : json :=
  JObj [(str "name", JStr (file_name f));
        (str "data", JStr (file_data f));
        (str "mimeType", JStr (file_mimeType f))].

(** The [newTemplate] of [addTemplateResult(result, originalFile)], for
    a [result] other than [null], with what [crypto.randomUUID()] and
    [Date.now()] give.  An [originalFile] that is [undefined] is a
    property that reads [undefined] and that [JSON.stringify] leaves
    out: it is left out here. *)
Definition newTemplate (uuid : jsstring) (now : Z) (result : json)
  (originalFile : option OriginalFile) : json :=
  JObj ([(str "id", JStr uuid);
         (str "name", or_else (get result (str "name")) (JStr (str "Untitled Template")));
         (str "category", or_else (get result (str "category")) (JStr (str "General")));
         (str "description",
          or_else (get result (str "description")) (JStr (str "Imported template")));
         (str "structure", or_else (get result (str "structure")) (JStr []));
         (str "placeholders", or_else (get result (str "placeholders")) (JArr []));
         (str "createdAt", JNum (Int now))]
        ++ match originalFile with
           | Some f => [(str "originalFile", OriginalFile_to_json f)]
           | None => []
           end).

(** [result.name && result.structure]; reading a property of [null]
    throws. *)
Definition has_structure (result : json) : option bool :=
  match result with
  | JNull => None
  | _ => Some (truthy_opt (get result (str "name"))
               && truthy_opt (get result (str "structure")))
  end.

(** What is caught while an input is processed: an error with its
    message, raised by the analysis or by reading the file, the
    TypeError of reading a property of a [null] result, or the
    TypeError that leaves [onAddTemplate]. *)
Inductive cause : Type :=
| Message (message : jsstring)
| NullResult
| AdditionRaised.

(** The entries of [errors]: for the typed text, for a file that
    raised, for a file without a template structure. *)
Inductive batch_error : Type :=
| ManualInputError (c : cause)
| FileError (fileName : jsstring) (c : cause)
| NoStructure (fileName : jsstring).

(** What the [error] of the manager holds after a batch, when it is not
    [null]: the number of templates made with the errors met, or that
    no template could be made. *)
Inductive batch_report : Type :=
| CompletedWithErrors (successCount : nat) (errors : list batch_error)
| NothingCreated.

(** What [analyzeTemplate] does: it resolves to a result or raises. *)
Inductive analysis : Type :=
| Analysed (result : json)
| Raised (message : jsstring).

(** What [extractFileContent] and then [analyzeTemplate] do with a
    file. *)
Inductive extraction : Type :=
| Extracted (originalFile : OriginalFile) (a : analysis)
| ExtractionRaised (message : jsstring).

(** [prev.filter((_, i) => i !== index)], counting from [i]. *)
Fixpoint filter_index {A} (i index : nat) (prev : list A) : list A :=
  match prev with
  | [] => []
  | x :: rest =>
      if Nat.eqb i index then filter_index (S i) index rest
      else x :: filter_index (S i) index rest
  end.

Section TemplateManager.

(** The [File] objects the user selects, and their [name]. *)
Context {UserFile : Type} (name_of : UserFile -> jsstring).

(** The environment of a batch: what the analysis of the typed text
    gives, what the [i]-th file gives, and what [crypto.randomUUID()]
    and [Date.now()] give when the template of an input is built: of
    the typed text at 0, of the [i]-th file at [S i]. *)
Record Environment : Type := {
  analyse_text : analysis;
  analyse_file : nat -> UserFile -> extraction;
  randomUUID : nat -> jsstring;
  Date_now_at : nat -> Z;
}.

Record ManagerState : Type := {
  inputText : jsstring;
  selectedFiles : list UserFile;
  errorState : option batch_report;   (* the [error] of the manager *)
}.

(** [handleFileSelect], on the files of the input element. *)
Definition handleFileSelect (files : list UserFile) (m : ManagerState) : ManagerState :=
  match files with
  | [] => m
  | _ => {| inputText := inputText m;
            selectedFiles := selectedFiles m ++ files;
            errorState := None |}
  end.

(** [handleRemoveFile(index)] *)
Definition handleRemoveFile (index : nat) (m : ManagerState) : ManagerState :=
  {| inputText := inputText m;
     selectedFiles := filter_index 0 index (selectedFiles m);
     errorState := errorState m |}.

(** The state of a batch under way: the application state, and the
    local [successCount] and [errors]. *)
Record progress : Type := {
  appState : AppState;
  successCount : nat;
  errors : list batch_error;
}.

Definition push (e : batch_error) (p : progress) : progress :=
  {| appState := appState p; successCount := successCount p; errors := errors p ++ [e] |}.

Section Batch.

(** The [onAddTemplate] of the render that started the batch. *)
Context (onAddTemplate : json -> AppState -> option ending).
Context (env : Environment).

(** [addTemplateResult(result, originalFile)], for the input at
    [position]. *)
Definition addTemplateResult (position : nat) (result : json)
  (originalFile : option OriginalFile) (st : AppState) : option ending :=
  onAddTemplate
    (newTemplate (randomUUID env position) (Date_now_at env position)
       result originalFile)
    st.

(** The body of a [try] once the analysis has answered: a usable
    result is added and counted; an error is caught and pushed as
    [raised] says, also the one that leaves the addition, after which
    the template is in the collection and is not counted; a result
    without structure is pushed as [empty] says.  [None] when a part of
    the revision is an infinity, or when there is no next render, which
    an addition does not lead to. *)
Definition process (position : nat) (a : analysis) (originalFile : option OriginalFile)
  (raised : cause -> batch_error) (empty : option batch_error) (p : progress)
  : option progress :=
  match a with
  | Raised message => Some (push (raised (Message message)) p)
  | Analysed result =>
      match has_structure result with
      | None => Some (push (raised NullResult) p)
      | Some true =>
          e ← addTemplateResult position result originalFile (appState p);
          match e with
          | Returns st =>
              Some {| appState := st; successCount := S (successCount p);
                      errors := errors p |}
          | Throws st =>
              Some {| appState := st; successCount := successCount p;
                      errors := errors p ++ [raised AdditionRaised] |}
          | RenderRaises _ => None
          end
      | Some false =>
          Some match empty with Some e => push e p | None => p end
      end
  end.

(** The loop over the selected files, from the [i]-th on. *)
Fixpoint process_files (i : nat) (files : list UserFile) (p : progress)
  : option progress :=
  match files with
  | [] => Some p
  | file :: rest =>
      p' ← match analyse_file env i file with
           | ExtractionRaised message =>
               Some (push (FileError (name_of file) (Message message)) p)
           | Extracted originalFile a =>
               process (S i) a (Some originalFile) (FileError (name_of file))
                 (Some (NoStructure (name_of file))) p
           end;
      process_files (S i) rest p'
  end.

(** The [error] shown at the end. *)
Definition report (p : progress) : option batch_report :=
  match errors p, successCount p with
  | _ :: _, n => Some (CompletedWithErrors n (errors p))
  | [], S _ => None
  | [], O => Some NothingCreated
  end.

(** [handleBatchAnalyze]: the manager and the application once the
    batch has run, when nothing else changes the application state
    meanwhile. *)
Definition handleBatchAnalyze (m : ManagerState) (st : AppState)
  : option (ManagerState * AppState) :=
  let typed := match trim (inputText m) with [] => false | _ => true end in
  match selectedFiles m, typed with
  | [], false => Some (m, st)
  | _, _ =>
      let p0 := {| appState := st; successCount := 0; errors := [] |} in
      p1 ← (if typed
            then process 0 (analyse_text env) None ManualInputError None p0
            else Some p0);
      p2 ← process_files 0 (selectedFiles m) p1;
      Some ({| inputText := match successCount p1 with
                            | O => inputText m
                            | S _ => []
                            end;
               selectedFiles := [];
               errorState := report p2 |},
            appState p2)
  end.

End Batch.

End TemplateManager.

(** *** The templates a batch makes *)

(** What holds of a batch under way that was started in [st], when the
    templates [sofar] have been handed to [onAddTemplate], every call
    of which returned ([ret]) or every call of which raised, leaving
    the state [g] makes of the one with the template added. *)
Definition batch_invariant (g : AppState -> AppState) (ret : bool) (st : AppState)
  (sofar : list json) (p : progress) : Prop :=
  appState p = match sofar with
               | [] => st
               | _ :: _ => g (setTemplates (rev sofar ++ templates st) st)
               end
  /\ successCount p = (if ret then length sofar else 0%nat)
  /\ (ret = false -> (length sofar <= length (errors p))%nat).


(** The result of an analysis that [addTemplateResult] is called on:
    one with a name and a structure. *)
Definition usable (a : analysis) : option json :=
  match a with
  | Analysed result =>
      match has_structure result with
      | Some true => Some result
      | _ => None
      end
  | Raised _ => None
  end.

(** The templates made from the files, from the [i]-th on, in the
    order of the files. *)
Fixpoint made_of_files {UserFile : Type} (env : @Environment UserFile) (i : nat)
  (files : list UserFile) : list json :=
  match files with
  | [] => []
  | file :: rest =>
      match analyse_file env i file with
      | Extracted originalFile a =>
          match usable a with
          | Some result =>
              [newTemplate (randomUUID env (S i)) (Date_now_at env (S i)) result
                 (Some originalFile)]
          | None => []
          end
      | ExtractionRaised _ => []
      end ++ made_of_files env (S i) rest
  end.

(** The templates a batch makes: from the typed text, when it is not
    blank, then from the files. *)
Definition made {UserFile : Type} (env : @Environment UserFile)
  (m : @ManagerState UserFile) : list json :=
  match trim (inputText m) with
  | [] => []
  | _ => match usable (analyse_text env) with
         | Some result => [newTemplate (randomUUID env 0) (Date_now_at env 0) result None]
         | None => []
         end
  end ++ made_of_files env 0 (selectedFiles m).

(** *** Stored files *)

(** [res.split(',')[1]], of the data URL the reader gives; [None] is
    [undefined]. *)
Definition getBase64 (res : jsstring) : option jsstring :=
  nth_error (split c_COMMA res) 1.

(** [originalFileObj], once [getBase64] has given a string. *)
Definition originalFileObj (fileName fileType res : jsstring) : option OriginalFile :=
  base64Data ← getBase64 res;
  Some {| file_name := fileName;
          file_data := base64Data;
          file_mimeType := match fileType with
                           | [] => str "application/octet-stream"
                           | _ => fileType
                           end |}.

(** The link [downloadOriginalFile(fileData)] clicks. *)
Record Link : Type := {
  href : jsstring;
  download : jsstring;
}.

Definition downloadOriginalFile (fileData : OriginalFile) : Link :=
  {| href := str "data:" ++ file_mimeType fileData ++ str ";base64," ++ file_data fileData;
     download := file_name fileData |}.

(** *** Sample data of the template manager *)

(** What an analysis returns: a result with a name and a structure. *)
Definition sample_result (name : string) : json :=
  JObj [(str "name", JStr (str name));
        (str "structure", JStr (str "To: {{RECIPIENT}}"))].

Definition sample_original (name : string) : OriginalFile :=
  {| file_name := str name; file_data := str "QUJD"; file_mimeType := str "text/plain" |}.

(** An environment in which the typed text cannot be analysed, a file
    named ["b.txt"] has no structure, and every other file gives a
    template. *)
Definition sample_environment : @Environment jsstring :=
  {| analyse_text := Raised (str "quota exceeded");
     analyse_file := fun i file =>
       if jsstring_eqb file (str "b.txt")
       then Extracted (sample_original "b.txt") (Analysed (JObj []))
       else Extracted (sample_original "a.txt") (Analysed (sample_result "Notice"));
     randomUUID := fun position => str "uuid-" ++ dec (N.of_nat position);
     Date_now_at := fun position => 1700000000000%Z |}.

Definition sample_manager : @ManagerState jsstring :=
  {| inputText := [];
     selectedFiles := [str "a.txt"; str "b.txt"; str "c.txt"];
     errorState := None |}.

(** ** The drafting workspace ([src/components/DraftingWorkspace.tsx]) *)

(** What [draftDocument] does: it resolves to a result or raises. *)
Inductive drafting : Type :=
| Drafted (data : json)
| DraftRaised (message : jsstring).

(** The [error] of the workspace, when it is not [null]: a template
    must be added first, the message of the error raised, or the
    message shown for an error that has none. *)
Inductive draft_error : Type :=
| NoTemplates
| DraftFailed (message : jsstring)
| DraftFailedUnknown.

(** The state of the workspace.  [missingValues] is an object of
    strings: its properties, in their order. *)
Record WorkspaceState : Type := {
  request : jsstring;
  isDrafting : bool;
  draftResult : option json;          (* [result] *)
  draftError : option draft_error;    (* [error] *)
  missingValues : list (jsstring * json);
}.

(** What stands between the request and the supplementary information:
    two line feeds, the heading in brackets, a colon and a line
    feed. *)
Definition SUPPLEMENT_HEADING : jsstring :=
  [10; 10; 91; 84; 72; 212; 78; 71; 32; 84; 73; 78; 32; 66; 7892; 32; 83; 85; 78; 71;
   32; 84; 7914; 32; 78; 71; 431; 7900; 73; 32; 68; 217; 78; 71; 93; 58; 10].

(** [handleDraft(supplementaryInfo)], with the templates of the
    application and what [draftDocument] answers on a text. *)
Definition handleDraft (templates : list json) (answer : jsstring -> drafting)
  (supplementaryInfo : option jsstring) (w : WorkspaceState) : WorkspaceState :=
  let info := match supplementaryInfo with
              | Some (c :: s) => Some (c :: s)
              | _ => None
              end in
  let textToDraft := match info with
                     | Some s => request w ++ SUPPLEMENT_HEADING ++ s
                     | None => request w
                     end in
  match trim textToDraft with
  | [] => w
  | _ =>
      let kept := match info with Some _ => draftResult w | None => None end in
      let values := match info with Some _ => missingValues w | None => [] end in
      match templates with
      | [] => {| request := request w; isDrafting := false; draftResult := kept;
                 draftError := Some NoTemplates; missingValues := values |}
      | _ =>
          match answer textToDraft with
          | Drafted data =>
              {| request := request w; isDrafting := false; draftResult := Some data;
                 draftError := None; missingValues := [] |}
          | DraftRaised message =>
              {| request := request w; isDrafting := false; draftResult := kept;
                 draftError := Some match message with
                                    | [] => DraftFailedUnknown
                                    | _ => DraftFailed message
                                    end;
                 missingValues := values |}
          end
      end
  end.

(** [handleMissingValueChange(field, value)]: the object
    [{...prev, [field]: value}]. *)
Definition handleMissingValueChange (field value : jsstring) (w : WorkspaceState)
  : WorkspaceState :=
  {| request := request w; isDrafting := isDrafting w; draftResult := draftResult w;
     draftError := draftError w;
     missingValues := define_property field (JStr value) (build_object (missingValues w)) |}.

(** The lines of [infoString]: one for each entry whose value is not
    blank.  [None] is a TypeError: [trim] is not a function of a value
    that is not a string. *)
Fixpoint info_lines (entries : list (jsstring * json)) : option (list jsstring) :=
  match entries with
  | [] => Some []
  | (key, value) :: rest =>
      match value with
      | JStr value =>
          lines ← info_lines rest;
          Some match trim value with
               | [] => lines
               | _ => (str "- " ++ key ++ str ": " ++ value) :: lines
               end
      | _ => None
      end
  end.

Definition infoString (missingValues : list (jsstring * json)) : option jsstring :=
  join [c_LF] <$> info_lines missingValues.

(** [handleRedraftWithMissingInfo] *)
Definition handleRedraftWithMissingInfo (templates : list json)
  (answer : jsstring -> drafting) (w : WorkspaceState) : option WorkspaceState :=
  info ← infoString (missingValues w);
  Some match info with
       | [] => w
       | _ => handleDraft templates answer (Some info) w
       end.

(** A string with a character that is not white space. *)
Definition nonblank (s : jsstring) : Prop :=
  Exists (fun c => is_StrWhiteSpaceChar c = false) s.

(** An object of strings. *)
Definition strings (members : list (jsstring * json)) : Prop :=
  Forall (fun kv => exists s, snd kv = JStr s) members.

(** * Properties *)

(** *** Facts about digit strings *)

Lemma uint_chars_digits d : all_digits (uint_chars d).
Proof. induction d; constructor; auto. Qed.

Lemma dec_digits n : all_digits (dec n).
Proof. apply uint_chars_digits. Qed.

Lemma dec_nonempty n : dec n <> [].
Proof.
  unfold dec. destruct n as [|p]; [discriminate|]. simpl.
  pose proof (DecimalPos.Unsigned.to_uint_nonnil p) as H.
  destruct (Pos.to_uint p); simpl; congruence.
Qed.

Lemma digit_in_10 c : is_digit c = true -> digit_in 10 c = Some (c - 48).
Proof.
  unfold is_digit, digit_in. intros H. rewrite H.
  apply andb_true_iff in H as [H1 H2].
  apply N.leb_le in H1, H2.
  destruct (N.ltb_spec (c - 48) 10); [reflexivity | lia].
Qed.

Lemma digits_value_acc (d : Decimal.uint) (acc : positive) :
  digits_value 10 (Npos acc) (uint_chars d) = Some (Npos (Pos.of_uint_acc d acc)).
Proof.
  revert acc. induction d; intros acc; simpl; try reflexivity;
    rewrite <- IHd; f_equal; lia.
Qed.

Lemma digits_value_uint (d : Decimal.uint) :
  digits_value 10 0 (uint_chars d) = Some (N.of_uint d).
Proof.
  unfold N.of_uint.
  induction d; simpl; try reflexivity; try assumption;
    match goal with
    | |- digits_value 10 ?a _ = _ =>
        let v := eval vm_compute in a in change a with v
    end; apply digits_value_acc.
Qed.

Lemma digits_value_dec n : digits_value 10 0 (dec n) = Some n.
Proof.
  unfold dec. rewrite digits_value_uint. f_equal.
  apply DecimalN.Unsigned.of_to.
Qed.

Lemma digit_not_ws c : is_digit c = true -> is_StrWhiteSpaceChar c = false.
Proof.
  unfold is_digit, is_StrWhiteSpaceChar. intros H.
  apply andb_true_iff in H as [H1 H2]. apply N.leb_le in H1, H2.
  repeat match goal with
         | |- context [?a <=? ?b] => destruct (N.leb_spec a b); try lia
         | |- context [?a =? ?b] => destruct (N.eqb_spec a b); try lia
         end; reflexivity.
Qed.

Lemma drop_ws_digits s : all_digits s -> drop_ws s = s.
Proof.
  intros H. destruct H as [|c s Hc Hs]; [reflexivity|].
  simpl. now rewrite (digit_not_ws c Hc).
Qed.

Lemma all_digits_rev s : all_digits s -> all_digits (rev s).
Proof. apply List.Forall_rev. Qed.

Lemma trim_digits s : all_digits s -> trim s = s.
Proof.
  intros H. unfold trim. rewrite (drop_ws_digits s H).
  rewrite (drop_ws_digits _ (all_digits_rev s H)). apply rev_involutive.
Qed.

Lemma cut_at_none (p : N -> bool) s :
  Forall (fun c => p c = false) s -> cut_at p s = (s, None).
Proof.
  induction 1 as [|c s Hc Hs IH]; simpl; [reflexivity|].
  now rewrite Hc, IH.
Qed.

Lemma digits_no (p : N -> bool) s :
  (forall c, is_digit c = true -> p c = false) ->
  all_digits s -> Forall (fun c => p c = false) s.
Proof. intros Hp H. eapply Forall_impl; [exact H|]. exact Hp. Qed.

Ltac digit_case :=
  let H := fresh in
  unfold is_digit; intros ? H;
  apply andb_true_iff in H as [?%N.leb_le ?%N.leb_le];
  repeat match goal with
         | |- context [?a =? ?b] => destruct (N.eqb_spec a b); try lia
         end; try reflexivity.

Lemma base_of_prefix_digit p : is_digit p = true -> base_of_prefix p = None.
Proof. unfold base_of_prefix. revert p. digit_case. Qed.

Lemma non_decimal_digits s : all_digits s -> non_decimal s = None.
Proof.
  intros H. destruct H as [|c s Hc Hs]; [reflexivity|].
  destruct Hs as [|p ds Hp Hds]; simpl; [reflexivity|].
  assert (E : base_of_prefix p = None).
  { unfold base_of_prefix. clear Hds. revert p Hp. digit_case. }
  rewrite E. now destruct (c =? 48).
Qed.

Lemma take_sign_digit c s : is_digit c = true -> take_sign (c :: s) = (false, c :: s).
Proof. unfold take_sign. revert c. digit_case. Qed.

(** [Number] on a non-empty run of decimal digits. *)
Lemma Number_digits s v :
  s <> [] -> all_digits s -> digits_value 10 0 s = Some v ->
  Number s = round_decimal false v 0.
Proof.
  intros Hne Hd Hv. unfold Number. rewrite (trim_digits s Hd).
  rewrite (non_decimal_digits s Hd).
  destruct s as [|c s]; [congruence|].
  assert (Hc : is_digit c = true) by now inversion Hd.
  unfold str_decimal. rewrite (take_sign_digit c s Hc).
  assert (E : jsstring_eqb (c :: s) Infinity_lit = false).
  { unfold jsstring_eqb. apply bool_decide_eq_false. intros E. inversion E. now subst c. }
  rewrite E. unfold unsigned_decimal.
  rewrite (cut_at_none _ (c :: s)).
  2:{ apply digits_no; [|exact Hd]. digit_case. }
  rewrite (cut_at_none _ (c :: s)).
  2:{ apply digits_no; [|exact Hd]. digit_case. }
  simpl default. rewrite app_nil_r, Hv. reflexivity.
Qed.

Lemma Number_dec n :
  (Z.of_N n <= MAX_EXACT)%Z -> Number (dec n) = Int (Z.of_N n).
Proof.
  intros H.
  rewrite (Number_digits (dec n) n (dec_nonempty n) (dec_digits n) (digits_value_dec n)).
  unfold round_decimal. destruct (N.eqb_spec n 0) as [->|Hn]; [reflexivity|].
  simpl. rewrite Z.mul_1_r.
  destruct (Z.leb_spec (Z.of_N n) MAX_EXACT); [reflexivity | lia].
Qed.

Lemma ToString_nat n : ToString (Int (Z.of_N n)) = Some (dec n).
Proof.
  cbn [ToString]. unfold int_string.
  destruct (Z.ltb_spec (Z.of_N n) 0); [lia|].
  now rewrite Zabs2N.id.
Qed.

(** *** Facts about [split] *)

Lemma split_no_sep sep s :
  Forall (fun c => (c =? sep) = false) s -> split sep s = [s].
Proof.
  induction 1 as [|c s Hc Hs IH]; simpl; [reflexivity|].
  now rewrite Hc, IH.
Qed.

Lemma split_app sep a r :
  Forall (fun c => (c =? sep) = false) a ->
  split sep (a ++ sep :: r) = a :: split sep r.
Proof.
  induction 1 as [|c s Hc Hs IH]; simpl.
  - now rewrite N.eqb_refl.
  - now rewrite Hc, IH.
Qed.

Lemma dec_no_dot n : Forall (fun c => (c =? 46) = false) (dec n).
Proof. apply digits_no; [|apply dec_digits]. digit_case. Qed.

Lemma split_version a b c :
  split 46 (version_string a b c) = [dec a; dec b; dec c].
Proof.
  unfold version_string.
  rewrite (split_app 46 _ _ (dec_no_dot a)), (split_app 46 _ _ (dec_no_dot b)).
  now rewrite (split_no_sep 46 _ (dec_no_dot c)).
Qed.

(** *** The carry chain on naturals *)

Lemma incr_nat n :
  (Z.of_N n < MAX_EXACT)%Z -> incr (Int (Z.of_N n)) = Some (Int (Z.of_N (n + 1))).
Proof.
  intros H. unfold incr.
  destruct (Z.ltb_spec (Z.of_N n) MAX_EXACT); [|lia].
  do 2 f_equal. lia.
Qed.

Lemma gt_nat n : gt (Int (Z.of_N n)) 9 = Some (negb (n <=? 9)).
Proof.
  unfold gt. f_equal.
  destruct (Z.ltb_spec 9 (Z.of_N n)), (N.leb_spec n 9); simpl; try reflexivity; lia.
Qed.

Lemma rollover_nat (major minor patch : N) :
  (Z.of_N major < MAX_EXACT)%Z -> minor <= 9 -> patch <= 9 ->
  rollover (Int (Z.of_N major)) (Int (Z.of_N minor)) (Int (Z.of_N patch))
  = Some (let '(a, b, c) := rollover_spec major minor patch in version_string a b c).
Proof.
  intros HM Hm Hp. unfold rollover, rollover_spec.
  assert (Hs : (9 < MAX_EXACT)%Z) by reflexivity.
  rewrite (incr_nat patch) by lia. cbn [mbind option_bind].
  rewrite gt_nat. cbn [mbind option_bind].
  destruct (patch + 1 <=? 9); cbn [negb mbind option_bind].
  - rewrite gt_nat. apply N.leb_le in Hm. rewrite Hm. cbn [negb mbind option_bind].
    now rewrite !ToString_nat.
  - rewrite (incr_nat minor) by lia. cbn [mbind option_bind].
    rewrite gt_nat. cbn [mbind option_bind].
    change (Int 0) with (Int (Z.of_N 0)).
    destruct (minor + 1 <=? 9); cbn [negb mbind option_bind].
    + now rewrite !ToString_nat.
    + rewrite (incr_nat major) by lia. cbn [mbind option_bind].
      now rewrite !ToString_nat.
Qed.

Lemma getStoredVersion_insert (ls : Storage) (v : jsstring) :
  v <> [] -> getStoredVersion (<[VERSION_KEY := v]> ls) = v.
Proof.
  intros Hv. unfold getStoredVersion. rewrite lookup_insert_eq.
  destruct v; congruence.
Qed.

Lemma version_string_nonempty a b c : version_string a b c <> [].
Proof.
  unfold version_string. pose proof (dec_nonempty a).
  destruct (dec a); [congruence | discriminate].
Qed.

(** C4 (as amended): for a revision [major.minor.patch] of naturals with
    [minor] and [patch] at most 9 and [major] at most 2^53 - 1 (the
    largest integer whose successor is still a binary64 value),
    [incrementVersion] returns the digit-rollover successor, and it
    stores that value under the version key, where [getStoredVersion]
    reads it back. *)
Theorem incrementVersion_rollover (ls : Storage) (major minor patch : N) :
  (Z.of_N major < MAX_EXACT)%Z -> minor <= 9 -> patch <= 9 ->
  let '(a, b, c) := rollover_spec major minor patch in
  incrementVersion ls (version_string major minor patch)
  = Some (version_string a b c, <[VERSION_KEY := version_string a b c]> ls)
  /\ getStoredVersion (<[VERSION_KEY := version_string a b c]> ls)
     = version_string a b c.
Proof.
  intros HM Hm Hp.
  pose proof (rollover_nat major minor patch HM Hm Hp) as HR.
  destruct (rollover_spec major minor patch) as [[a b] c].
  split; [|apply getStoredVersion_insert, version_string_nonempty].
  unfold incrementVersion. rewrite split_version. simpl map.
  unfold MAX_EXACT in *.
  rewrite !Number_dec by (unfold MAX_EXACT; lia).
  simpl invalid_format. cbv iota. now rewrite HR.
Qed.

(** The two instances the specification names: ["1.9.9"] gives
    ["2.0.0"] and ["9.9.9"] gives ["10.0.0"]. *)
Lemma incrementVersion_rollover_witness :
  incrementVersion ∅ (str "1.9.9")
  = Some (str "2.0.0", <[VERSION_KEY := str "2.0.0"]> ∅)
  /\ incrementVersion ∅ (str "9.9.9")
     = Some (str "10.0.0", <[VERSION_KEY := str "10.0.0"]> ∅).
Proof.
  split.
  - apply (incrementVersion_rollover ∅ 1 9 9); [reflexivity | lia | lia].
  - apply (incrementVersion_rollover ∅ 9 9 9); [reflexivity | lia | lia].
Defined.

(** The examples of the function's own comment: ["1.0.9"] gives
    ["1.1.0"], and a revision read back from an empty store is the
    default. *)
Example incrementVersion_carry :
  fst <$> incrementVersion ∅ (str "1.0.9") = Some (str "1.1.0")
  /\ fst <$> incrementVersion ∅ (getStoredVersion ∅) = Some (str "1.0.1").
Proof. split; vm_compute; reflexivity. Qed.

(** C4 as stated, with the major component unbounded, fails at
    2^53: the successor of 9007199254740992 is not a binary64 value, the
    sum rounds back, and the carry out of ["9007199254740992.9.9"] is
    lost. *)
Lemma incrementVersion_major_unbounded_counterexample :
  fst <$> incrementVersion ∅ (version_string 9007199254740992 9 9)
  = Some (str "9007199254740992.0.0")
  /\ rollover_spec 9007199254740992 9 9 = (9007199254740993, 0, 0)
  /\ fst <$> incrementVersion ∅ (version_string 9007199254740992 9 9)
     <> Some (version_string 9007199254740993 0 0).
Proof.
  split; [vm_compute; reflexivity|]. split; [reflexivity|].
  vm_compute. discriminate.
Qed.

(** *** The format guard *)

Lemma invalid_format_spec (parts : list jsstring) :
  invalid_format (map Number parts) = true
  <-> (length parts <> 3%nat \/ exists p, p ∈ parts /\ Number p = NaN).
Proof.
  unfold invalid_format. rewrite orb_true_iff, negb_true_iff, Nat.eqb_neq.
  rewrite length_map.
  assert (E : existsb isNaN (map Number parts) = true
              <-> exists p, p ∈ parts /\ Number p = NaN).
  { rewrite existsb_exists. split.
    - intros (x & Hx & Hn). apply in_map_iff in Hx as (p & <- & Hp).
      exists p. split; [now apply list_elem_of_In|]. now destruct (Number p).
    - intros (p & Hp & Hn). exists (Number p). split.
      + apply in_map. now apply list_elem_of_In.
      + now rewrite Hn. }
  now rewrite E.
Qed.

(** C5 (as amended): when the ['.']-split of the input does not have
    exactly three parts, or has a part that [Number] coerces to NaN,
    [incrementVersion] discards the input, returns ["1.0.1"], and stores
    ["1.0.1"] under the version key. *)
Theorem incrementVersion_reset (ls : Storage) (s : jsstring) :
  (length (split 46 s) <> 3%nat \/ exists p, p ∈ split 46 s /\ Number p = NaN) ->
  incrementVersion ls s = Some (str "1.0.1", <[VERSION_KEY := str "1.0.1"]> ls)
  /\ getStoredVersion (<[VERSION_KEY := str "1.0.1"]> ls) = str "1.0.1".
Proof.
  intros H. apply invalid_format_spec in H.
  split; [|now apply getStoredVersion_insert].
  unfold incrementVersion. now rewrite H.
Qed.

(** The malformed inputs the specification names: ["abc"] and
    ["not-a-version"] are one part that is NaN, ["1.2"] has two parts. *)
Lemma incrementVersion_reset_witness :
  incrementVersion ∅ (str "not-a-version")
  = Some (str "1.0.1", <[VERSION_KEY := str "1.0.1"]> ∅)
  /\ incrementVersion ∅ (str "abc")
     = Some (str "1.0.1", <[VERSION_KEY := str "1.0.1"]> ∅)
  /\ incrementVersion ∅ (str "1.2")
     = Some (str "1.0.1", <[VERSION_KEY := str "1.0.1"]> ∅).
Proof.
  split; [|split].
  - apply (incrementVersion_reset ∅ (str "not-a-version")).
    right. exists (str "not-a-version"). split; [|reflexivity].
    vm_compute. apply list_elem_of_here.
  - apply (incrementVersion_reset ∅ (str "abc")).
    right. exists (str "abc"). split; [|reflexivity].
    vm_compute. apply list_elem_of_here.
  - apply (incrementVersion_reset ∅ (str "1.2")).
    left. vm_compute. lia.
Defined.

(** C5 as stated fails at ["1..2"]: its middle component is empty, so
    it is not three integers, yet the empty part coerces to 0 and the
    input goes through the carry chain. *)
Lemma incrementVersion_reset_counterexample :
  split 46 (str "1..2") = [str "1"; []; str "2"]
  /\ incrementVersion ∅ (str "1..2")
     = Some (str "1.0.3", <[VERSION_KEY := str "1.0.3"]> ∅)
  /\ fst <$> incrementVersion ∅ (str "1..2") <> Some (str "1.0.1").
Proof.
  split; [reflexivity|]. split; [vm_compute; reflexivity|].
  vm_compute. discriminate.
Qed.

(** *** What the guard lets through *)

Lemma unsigned_decimal_digits (neg : bool) s v :
  s <> [] -> all_digits s -> digits_value 10 0 s = Some v ->
  unsigned_decimal neg s = round_decimal neg v 0.
Proof.
  intros Hne Hd Hv. unfold unsigned_decimal.
  rewrite (cut_at_none _ s).
  2:{ apply digits_no; [|exact Hd]. digit_case. }
  rewrite (cut_at_none _ s).
  2:{ apply digits_no; [|exact Hd]. digit_case. }
  simpl default. rewrite app_nil_r, Hv. destruct s; [congruence | reflexivity].
Qed.

Lemma drop_ws_digit_head d t : d <> [] -> all_digits d -> drop_ws (d ++ t) = d ++ t.
Proof.
  intros Hne Hd. destruct Hd as [|c d Hc Hd]; [congruence|].
  simpl. now rewrite (digit_not_ws c Hc).
Qed.

Lemma rev_dec_nonempty n : rev (dec n) <> [].
Proof.
  intros E. apply (f_equal (@rev N)) in E. rewrite rev_involutive in E.
  now apply (dec_nonempty n).
Qed.

(** [Number] on a minus sign before the digits of a natural. *)
Lemma Number_minus_dec n :
  n <> 0 -> (Z.of_N n <= MAX_EXACT)%Z -> Number (45 :: dec n) = Int (- Z.of_N n).
Proof.
  intros Hn Hb. unfold Number.
  assert (Ht : trim (45 :: dec n) = 45 :: dec n).
  { unfold trim. change (drop_ws (45 :: dec n)) with (45 :: dec n).
    change (rev (45 :: dec n)) with (rev (dec n) ++ [45]).
    rewrite drop_ws_digit_head.
    - rewrite rev_app_distr. simpl. now rewrite rev_involutive.
    - apply rev_dec_nonempty.
    - apply all_digits_rev, dec_digits. }
  rewrite Ht.
  pose proof (dec_nonempty n) as Hne. pose proof (dec_digits n) as Hd.
  destruct (dec n) as [|c s] eqn:E; [congruence|].
  assert (Hnd : non_decimal (45 :: c :: s) = None) by reflexivity.
  rewrite Hnd. unfold str_decimal.
  change (take_sign (45 :: c :: s)) with (true, c :: s). cbv beta iota.
  assert (Hc : is_digit c = true) by now inversion Hd.
  assert (Ei : jsstring_eqb (c :: s) Infinity_lit = false).
  { unfold jsstring_eqb. apply bool_decide_eq_false. intros Ei. inversion Ei. now subst c. }
  rewrite Ei, <- E.
  rewrite (unsigned_decimal_digits true (dec n) n (dec_nonempty n) (dec_digits n)
             (digits_value_dec n)).
  unfold round_decimal. destruct (N.eqb_spec n 0) as [|_]; [contradiction|].
  simpl. rewrite Z.mul_1_r.
  destruct (Z.leb_spec (Z.of_N n) MAX_EXACT); [reflexivity | lia].
Qed.

(** [Number] reads back what [ToString] prints, on the integers of
    magnitude at most 2^53. *)
Lemma Number_int_string z :
  (Z.abs z <= MAX_EXACT)%Z -> Number (int_string z) = Int z.
Proof.
  intros Hb. unfold int_string. destruct (Z.ltb_spec z 0).
  - rewrite Number_minus_dec; [f_equal; lia | lia | lia].
  - rewrite Number_dec; [f_equal; lia | lia].
Qed.

Lemma cut_at_app (p : N -> bool) a c r :
  Forall (fun x => p x = false) a -> p c = true ->
  cut_at p (a ++ c :: r) = (a, Some r).
Proof.
  intros Ha Hc. induction Ha as [|x a Hx _ IH]; simpl.
  - now rewrite Hc.
  - now rewrite Hx, IH.
Qed.

(** The SignedInteger of an exponent, as [int_string] prints it. *)
Lemma signed_integer_int_string x : signed_integer (int_string x) = Some x.
Proof.
  unfold signed_integer, int_string. destruct (Z.ltb_spec x 0).
  - change (take_sign (45 :: dec (Z.abs_N x))) with (true, dec (Z.abs_N x)).
    cbv beta iota. unfold digits1_value.
    pose proof (dec_nonempty (Z.abs_N x)) as Hne.
    destruct (dec (Z.abs_N x)) eqn:E; [congruence|]. rewrite <- E, digits_value_dec.
    cbn [fmap option_fmap option_map]. f_equal. lia.
  - pose proof (dec_nonempty (Z.abs_N x)) as Hne. pose proof (dec_digits (Z.abs_N x)) as Hd.
    destruct (dec (Z.abs_N x)) as [|c t] eqn:E; [congruence|].
    assert (Hc : is_digit c = true) by now inversion Hd.
    rewrite (take_sign_digit c t Hc). unfold digits1_value.
    rewrite <- E, digits_value_dec.
    cbn [fmap option_fmap option_map]. f_equal. lia.
Qed.

Lemma normalize_number neg q u : normalize neg q u <> NaN.
Proof.
  unfold normalize. destruct q as [|p|p]; try discriminate.
  destruct (odd_part p). destruct (_ && _); discriminate.
Qed.

Lemma round_ratio_number neg num den : round_ratio neg num den <> NaN.
Proof.
  unfold round_ratio. destruct (nearest num den) as [q u].
  destruct (_ && _); [discriminate | apply normalize_number].
Qed.

Lemma round_decimal_number neg m e : round_decimal neg m e <> NaN.
Proof.
  unfold round_decimal.
  repeat match goal with
         | |- (if ?b then _ else _) <> _ => destruct b
         end; try discriminate; apply round_ratio_number.
Qed.

(** [Number] on a literal in exponent notation: digits, [e], and a
    signed integer. *)
Lemma Number_exponent (m : N) (x : Z) :
  Number (dec m ++ 101 :: int_string x) = round_decimal false m x.
Proof.
  pose proof (dec_nonempty m) as Hne. pose proof (dec_digits m) as Hd.
  assert (Hx : exists d, int_string x = d ++ dec (Z.abs_N x)
                         /\ Forall (fun c => (c =? 46) = false) d).
  { unfold int_string. destruct (x <? 0)%Z.
    - exists [45]. split; [reflexivity | repeat constructor].
    - exists []. split; [reflexivity | constructor]. }
  destruct Hx as (sg & Ex & _).
  unfold Number.
  assert (Ht : trim (dec m ++ 101 :: int_string x) = dec m ++ 101 :: int_string x).
  { unfold trim. rewrite (drop_ws_digit_head _ _ Hne Hd).
    rewrite Ex, rev_app_distr. cbn [rev]. rewrite rev_app_distr, <- !app_assoc.
    rewrite drop_ws_digit_head;
      [| apply rev_dec_nonempty | apply all_digits_rev, dec_digits].
    rewrite !rev_app_distr, !rev_involutive. cbn [rev app].
    now rewrite <- !app_assoc. }
  rewrite Ht.
  destruct (dec m) as [|c t] eqn:E; [congruence|].
  assert (Hc : is_digit c = true) by now inversion Hd.
  assert (Hnd : non_decimal ((c :: t) ++ 101 :: int_string x) = None).
  { unfold non_decimal. cbn [app]. destruct t as [|c2 t]; cbn [app].
    - destruct (c =? 48); reflexivity.
    - assert (Hc2 : is_digit c2 = true).
      { inversion Hd as [|? ? _ Hd']. now inversion Hd'. }
      rewrite (base_of_prefix_digit c2 Hc2). destruct (c =? 48); reflexivity. }
  rewrite Hnd. cbn [app]. unfold str_decimal.
  rewrite (take_sign_digit c _ Hc).
  assert (Ei : jsstring_eqb (c :: t ++ 101 :: int_string x) Infinity_lit = false).
  { unfold jsstring_eqb. apply bool_decide_eq_false. intros Ei. inversion Ei. now subst c. }
  rewrite Ei. unfold unsigned_decimal.
  change (c :: t ++ 101 :: int_string x) with ((c :: t) ++ 101 :: int_string x).
  rewrite (cut_at_app _ (c :: t) 101 (int_string x)); [| |reflexivity].
  2:{ apply digits_no; [|exact Hd]. digit_case. }
  rewrite (cut_at_none _ (c :: t)).
  2:{ apply digits_no; [|exact Hd]. digit_case. }
  simpl default. rewrite app_nil_r, <- E, digits_value_dec, signed_integer_int_string.
  cbn [length]. now rewrite Z.sub_0_r.
Qed.

Lemma incr_total x : exists y, incr x = Some y.
Proof. destruct x as [|z|neg m e|neg]; cbn [incr]; eauto. destruct (ratio m e). eauto. Qed.

Lemma gt_total x k : exists b, gt x k = Some b.
Proof. destruct x as [|z|neg m e|neg]; cbn [gt]; eauto. destruct (ratio m e). eauto. Qed.

Lemma ToString_total x : exists s, ToString x = Some s.
Proof. destruct x; cbn [ToString]; eauto. Qed.

(** The carry chain returns on every three numbers. *)
Lemma rollover_total (major minor patch : number) :
  exists v, rollover major minor patch = Some v.
Proof.
  unfold rollover.
  destruct (incr_total patch) as (p1 & ->). cbn [mbind option_bind].
  destruct (gt_total p1 9) as (o1 & ->). cbn [mbind option_bind].
  assert (H1 : exists p2 m2, (if o1 then minor' ← incr minor; Some (Int 0, minor')
                              else Some (p1, minor)) = Some (p2, m2)).
  { destruct o1; [|eauto].
    destruct (incr_total minor) as (m1 & ->). cbn [mbind option_bind]. eauto. }
  destruct H1 as (p2 & m2 & ->). cbn [mbind option_bind].
  destruct (gt_total m2 9) as (o2 & ->). cbn [mbind option_bind].
  assert (H2 : exists m3 M3, (if o2 then major' ← incr major; Some (Int 0, major')
                              else Some (m2, major)) = Some (m3, M3)).
  { destruct o2; [|eauto].
    destruct (incr_total major) as (M1 & ->). cbn [mbind option_bind]. eauto. }
  destruct H2 as (m3 & M3 & ->). cbn [mbind option_bind].
  destruct (ToString_total M3) as (a & ->).
  destruct (ToString_total m3) as (b & ->).
  destruct (ToString_total p2) as (c & ->).
  cbn [mbind option_bind]. eauto.
Qed.

(** The carry chain on three integers of magnitude at most 2^53. *)
Lemma rollover_Int (major minor patch : Z) :
  rollover (Int major) (Int minor) (Int patch)
  = Some (let '(a, b, c) := carry major minor patch in revision a b c).
Proof.
  unfold rollover, carry, revision, succ_sat. cbn [incr gt mbind option_bind].
  destruct (9 <? _)%Z; cbn [incr gt mbind option_bind];
    destruct (9 <? _)%Z; reflexivity.
Qed.

Lemma int_string_no_dot z : Forall (fun c => (c =? 46) = false) (int_string z).
Proof.
  unfold int_string. destruct (z <? 0)%Z; [constructor; [reflexivity|]|]; apply dec_no_dot.
Qed.

Lemma split_revision a b c :
  split 46 (revision a b c) = [int_string a; int_string b; int_string c].
Proof.
  unfold revision.
  rewrite (split_app 46 _ _ (int_string_no_dot a)), (split_app 46 _ _ (int_string_no_dot b)).
  now rewrite (split_no_sep 46 _ (int_string_no_dot c)).
Qed.

(** C9: the guard rejects a string exactly when its ['.']-split does
    not have three parts or has a part that [Number] coerces to NaN.  A
    string whose split has exactly three parts, none of them coerced to
    NaN, is not reset: its result is that of the carry chain on the
    three coerced numbers, stored under the version key, and there
    always is one.  [Number] coerces an empty part
    to 0, an integer with its sign to that integer, and digits with an
    exponent to the binary64 value of the decimal, which is not NaN;
    three integers of either sign, of magnitude at most 2^53, go
    through the carry chain as numbers.  So ["1..2"] gives ["1.0.3"],
    ["1.-3.2"] gives ["1.-3.3"], and ["1e-1.0.0"], whose first part is
    0.1, gives ["0.1.0.1"]; a patch of 0.5 becomes 1.5, and one of 9.5
    exceeds 9 when one is added and is carried. *)
Theorem incrementVersion_guard :
  (forall s, invalid_format (map Number (split 46 s)) = true
             <-> (length (split 46 s) <> 3%nat
                  \/ exists p, p ∈ split 46 s /\ Number p = NaN))
  /\ (forall ls s a b c,
        split 46 s = [a; b; c] ->
        Number a <> NaN -> Number b <> NaN -> Number c <> NaN ->
        invalid_format (map Number (split 46 s)) = false
        /\ incrementVersion ls s
           = (v ← rollover (Number a) (Number b) (Number c);
              Some (v, <[VERSION_KEY := v]> ls))
        /\ exists v, incrementVersion ls s = Some (v, <[VERSION_KEY := v]> ls))
  /\ Number [] = Int 0
  /\ (forall z, (Z.abs z <= MAX_EXACT)%Z -> Number (int_string z) = Int z)
  /\ (forall m x, Number (dec m ++ c_e :: int_string x) = round_decimal false m x
                  /\ round_decimal false m x <> NaN)
  /\ (forall ls a b c,
        (Z.abs a <= MAX_EXACT)%Z -> (Z.abs b <= MAX_EXACT)%Z ->
        (Z.abs c <= MAX_EXACT)%Z ->
        incrementVersion ls (int_string a ++ c_DOT :: int_string b ++ c_DOT :: int_string c)
        = let '(a', b', c') := carry a b c in
          let v := int_string a' ++ c_DOT :: int_string b' ++ c_DOT :: int_string c' in
          Some (v, <[VERSION_KEY := v]> ls))
  /\ incrementVersion ∅ (str "1..2")
     = Some (str "1.0.3", <[VERSION_KEY := str "1.0.3"]> ∅)
  /\ incrementVersion ∅ (str "1.-3.2")
     = Some (str "1.-3.3", <[VERSION_KEY := str "1.-3.3"]> ∅)
  /\ Number (str "1e-1") = Bin false 3602879701896397 (-55)
  /\ incrementVersion ∅ (str "1e-1.0.0")
     = Some (str "0.1.0.1", <[VERSION_KEY := str "0.1.0.1"]> ∅)
  /\ incrementVersion ∅ (str "1.0.5e-1")
     = Some (str "1.0.1.5", <[VERSION_KEY := str "1.0.1.5"]> ∅)
  /\ incrementVersion ∅ (str "1.0.95e-1")
     = Some (str "1.1.0", <[VERSION_KEY := str "1.1.0"]> ∅).
Proof.
  split; [intros s; apply invalid_format_spec|].
  split.
  { intros ls s a b c Hs Ha Hb Hc.
    assert (Hg : invalid_format (map Number (split 46 s)) = false).
    { apply not_true_is_false. intros H. apply invalid_format_spec in H.
      rewrite Hs in H. destruct H as [H | (p & Hp & Hn)]; [now apply H|].
      repeat (apply elem_of_cons in Hp as [-> | Hp]; [congruence|]).
      now apply elem_of_nil in Hp. }
    split; [exact Hg|].
    assert (E : incrementVersion ls s
                = (v ← rollover (Number a) (Number b) (Number c);
                   Some (v, <[VERSION_KEY := v]> ls))).
    { unfold incrementVersion. rewrite Hg, Hs. reflexivity. }
    split; [exact E|].
    destruct (rollover_total (Number a) (Number b) (Number c)) as [v Hv].
    exists v. rewrite E, Hv. reflexivity. }
  split; [reflexivity|].
  split; [exact Number_int_string|].
  split; [intros m x; split; [apply Number_exponent | apply round_decimal_number]|].
  split.
  { intros ls a b c Ha Hb Hc. unfold incrementVersion.
    change (int_string a ++ 46 :: int_string b ++ 46 :: int_string c)
      with (revision a b c).
    rewrite split_revision. cbn [map]. rewrite !Number_int_string by assumption.
    cbn [invalid_format length existsb isNaN Nat.eqb negb orb].
    rewrite rollover_Int. destruct (carry a b c) as [[a' b'] c']. reflexivity. }
  repeat split; vm_compute; reflexivity.
Qed.

(** The inputs with a negative part and with a part in exponent
    notation: they pass the guard and have the result of the carry
    chain on the numbers [Number] gives. *)
Lemma incrementVersion_guard_witness :
  (invalid_format (map Number (split 46 (str "1.-3.2"))) = false
   /\ incrementVersion ∅ (str "1.-3.2")
      = (v ← rollover (Number (str "1")) (Number (str "-3")) (Number (str "2"));
         Some (v, <[VERSION_KEY := v]> ∅))
   /\ exists v, incrementVersion ∅ (str "1.-3.2") = Some (v, <[VERSION_KEY := v]> ∅))
  /\ (invalid_format (map Number (split 46 (str "1e-1.0.0"))) = false
      /\ incrementVersion ∅ (str "1e-1.0.0")
         = (v ← rollover (Number (str "1e-1")) (Number (str "0")) (Number (str "0"));
            Some (v, <[VERSION_KEY := v]> ∅))
      /\ exists v, incrementVersion ∅ (str "1e-1.0.0") = Some (v, <[VERSION_KEY := v]> ∅)).
Proof.
  split.
  - apply (proj1 (proj2 incrementVersion_guard) ∅ (str "1.-3.2")
             (str "1") (str "-3") (str "2"));
      [reflexivity | vm_compute; discriminate ..].
  - apply (proj1 (proj2 incrementVersion_guard) ∅ (str "1e-1.0.0")
             (str "1e-1") (str "0") (str "0"));
      [reflexivity | vm_compute; discriminate ..].
Defined.

(** The empty string coerces to 0, a negative literal to its value. *)
Example Number_empty_and_negative :
  Number [] = Int 0 /\ Number (str "-3") = Int (-3) /\ Number (str "abc") = NaN.
Proof. repeat split. Qed.

(** Binary64 at work.  A decimal is read as the nearest value, a tie
    going to the even one; a sum is rounded the same way; a number
    prints with the fewest digits that read back as it, in plain
    notation from 10^-6 up to 10^21 and with an exponent outside. *)
Example binary64_rounding :
  Number (str "9007199254740993") = Int 9007199254740992
  /\ Number (str "9007199254740995") = Bin false 2251799813685249 2
  /\ (Number (str "0.1") = Number (str "1e-1")
      /\ Number (str "0.1") = Number (str "0.1000000000000000055511151231257827"))
  /\ Number (str "1e400") = Inf false
  /\ Number (str "-1e400") = Inf true
  /\ Number (str "1e-400") = Int 0
  /\ Number (str "0x20000000000001") = Int 9007199254740992
  /\ (x ← incr (Number (str "9007199254740994")); ToString x)
     = Some (str "9007199254740996")
  /\ (x ← incr (Number (str "0.1")); ToString x) = Some (str "1.1")
  /\ (x ← incr (Number (str "-0.5")); ToString x) = Some (str "0.5")
  /\ (x ← incr (Number (str "-1e300")); ToString x) = Some (str "-1e+300")
  /\ (x ← incr (Number (str "-Infinity")); ToString x) = Some (str "-Infinity").
Proof. vm_compute. repeat split. Qed.

Example binary64_printing :
  ToString (Number (str "0.30000000000000004")) = Some (str "0.30000000000000004")
  /\ ToString (Number (str "1e21")) = Some (str "1e+21")
  /\ ToString (Number (str "999999999999999999999")) = Some (str "1e+21")
  /\ ToString (Number (str "123456789012345678901")) = Some (str "123456789012345680000")
  /\ ToString (Number (str "0.000001")) = Some (str "0.000001")
  /\ ToString (Number (str "0.0000001")) = Some (str "1e-7")
  /\ ToString (Number (str "1.5e-7")) = Some (str "1.5e-7")
  /\ ToString (Number (str "5e-324")) = Some (str "5e-324")
  /\ ToString (Number (str "1.7976931348623157e308"))
     = Some (str "1.7976931348623157e+308")
  /\ ToString (Number (str "-12.50")) = Some (str "-12.5")
  /\ ToString (Number (str "Infinity")) = Some (str "Infinity")
  /\ gt (Number (str "9.000000000000002")) 9 = Some true
  /\ gt (Number (str "9.0000000000000001")) 9 = Some false
  /\ gt (Number (str "-Infinity")) 9 = Some false.
Proof. vm_compute. repeat split. Qed.

(** ** JSON: [JSON.parse] undoes [JSON.stringify] *)

(** *** Strings *)

Lemma parse_raw c s :
  c <> 34 -> c <> 92 -> 32 <= c ->
  parse_string_body (c :: s) = cons_result c (parse_string_body s).
Proof.
  intros H1 H2 H3. simpl.
  destruct (N.eqb_spec c 34); [lia|]. destruct (N.eqb_spec c 92); [lia|].
  destruct (N.ltb_spec c 32); [lia|]. reflexivity.
Qed.

Lemma digit_in_hex d : d < 16 -> digit_in 16 (hex_digit d) = Some d.
Proof.
  intros H.
  assert (d = 0 \/ d = 1 \/ d = 2 \/ d = 3 \/ d = 4 \/ d = 5 \/ d = 6 \/ d = 7
          \/ d = 8 \/ d = 9 \/ d = 10 \/ d = 11 \/ d = 12 \/ d = 13 \/ d = 14
          \/ d = 15) as Hd by lia.
  repeat (destruct Hd as [-> | Hd]; [reflexivity|]). now subst d.
Qed.

Lemma parse_unicode_escape c s :
  c < 65536 ->
  parse_string_body (unicode_escape c ++ s) = cons_result c (parse_string_body s).
Proof.
  intros H. unfold unicode_escape.
  cbn [app parse_string_body N.eqb Pos.eqb].
  unfold digits_value.
  rewrite !digit_in_hex by (zify; Z.to_euclidean_division_equations; lia).
  replace (16 * (16 * (16 * (16 * 0 + c / 4096 mod 16) + c / 256 mod 16)
                 + c / 16 mod 16) + c mod 16) with c
    by (zify; Z.to_euclidean_division_equations; lia).
  reflexivity.
Qed.

Lemma parse_quote_unit c s :
  is_high_surrogate c = false -> is_low_surrogate c = false ->
  parse_string_body (quote_unit c ++ s) = cons_result c (parse_string_body s).
Proof.
  intros _ _. unfold quote_unit.
  repeat match goal with
         | |- context [if ?a =? ?b then _ else _] =>
             destruct (N.eqb_spec a b); [subst; reflexivity|]
         end.
  destruct (N.ltb_spec c 32).
  - apply parse_unicode_escape. lia.
  - apply parse_raw; assumption.
Qed.

Lemma surrogate_raw c s :
  is_high_surrogate c = true \/ is_low_surrogate c = true ->
  parse_string_body (c :: s) = cons_result c (parse_string_body s)
  /\ c < 65536.
Proof.
  unfold is_high_surrogate, is_low_surrogate.
  rewrite !andb_true_iff, !N.leb_le. intros H.
  split; [apply parse_raw|]; lia.
Qed.

Lemma quote_body_cons c s :
  quote_body (c :: s)
  = if is_high_surrogate c then
      match s with
      | d :: s'' =>
          if is_low_surrogate d then c :: d :: quote_body s''
          else unicode_escape c ++ quote_body s
      | [] => unicode_escape c
      end
    else if is_low_surrogate c then unicode_escape c ++ quote_body s
    else quote_unit c ++ quote_body s.
Proof. reflexivity. Qed.

Lemma parse_quote_body (s rest : jsstring) :
  parse_string_body (quote_body s ++ 34 :: rest) = Some (s, rest).
Proof.
  remember (length s) as n eqn:Hn. revert s Hn.
  induction n as [n IH] using lt_wf_ind. intros s Hn.
  destruct s as [|c s]; [reflexivity|]. rewrite quote_body_cons.
  destruct (is_high_surrogate c) eqn:Hh.
  - destruct (surrogate_raw c [] (or_introl Hh)) as [_ Hc].
    destruct s as [|d s].
    + rewrite parse_unicode_escape by exact Hc. reflexivity.
    + destruct (is_low_surrogate d) eqn:Hl.
      * cbn [app].
        rewrite (proj1 (surrogate_raw c _ (or_introl Hh))).
        rewrite (proj1 (surrogate_raw d _ (or_intror Hl))).
        rewrite (IH (length s)); [reflexivity | simpl in Hn; lia | reflexivity].
      * rewrite <- app_assoc, parse_unicode_escape by exact Hc.
        rewrite (IH (length (d :: s))); [reflexivity | simpl in *; lia | reflexivity].
  - destruct (is_low_surrogate c) eqn:Hl.
    + destruct (surrogate_raw c [] (or_intror Hl)) as [_ Hc].
      rewrite <- app_assoc, parse_unicode_escape by exact Hc.
      rewrite (IH (length s)); [reflexivity | simpl in Hn; lia | reflexivity].
    + rewrite <- app_assoc, parse_quote_unit by assumption.
      rewrite (IH (length s)); [reflexivity | simpl in Hn; lia | reflexivity].
Qed.

(** *** Numbers *)

Lemma span_digits_app d rest :
  all_digits d -> delimited rest -> span_digits (d ++ rest) = (d, rest).
Proof.
  intros Hd Hr. induction Hd as [|c d Hc Hd IH]; simpl.
  - destruct rest as [|c r]; [reflexivity|].
    simpl. destruct Hr as [-> _]. reflexivity.
  - now rewrite Hc, IH.
Qed.

Lemma nzhead_no_zero d : match Decimal.nzhead d with Decimal.D0 _ => False | _ => True end.
Proof. induction d; simpl; auto. Qed.

Lemma unorm_canonical d :
  match Decimal.unorm d with
  | Decimal.D0 Decimal.Nil => True
  | Decimal.D0 _ => False
  | Decimal.Nil => False
  | _ => True
  end.
Proof.
  unfold Decimal.unorm. pose proof (nzhead_no_zero d) as H.
  destruct (Decimal.nzhead d); simpl in *; try exact I; contradiction.
Qed.

Lemma dec_canonical n : canonical_digits (dec n).
Proof.
  split; [apply dec_digits|]. unfold dec.
  pose proof (unorm_canonical (N.to_uint n)) as H.
  rewrite <- DecimalN.Unsigned.to_of, DecimalN.Unsigned.of_to in H.
  destruct (N.to_uint n) as [|u|u|u|u|u|u|u|u|u|u]; simpl; try easy.
  destruct u; easy.
Qed.

Lemma number_sign_digits (neg : bool) c t :
  is_digit c = true ->
  number_sign ((if neg then [45] else []) ++ c :: t) = (neg, c :: t).
Proof.
  intros Hc. destruct neg; [reflexivity|]. cbn [app number_sign].
  assert (c <> 45).
  { unfold is_digit in Hc. apply andb_true_iff in Hc as [?%N.leb_le ?%N.leb_le]. lia. }
  destruct (N.eqb_spec c 45); [contradiction | reflexivity].
Qed.

Lemma number_int_canonical d rest :
  canonical_digits d -> delimited rest -> number_int (d ++ rest) = Some (d, rest).
Proof.
  intros [Hd Hc] Hr. destruct d as [|c t]; [easy|].
  assert (Hdig : is_digit c = true) by now inversion Hd.
  cbn [app number_int]. destruct (N.eqb_spec c 48) as [->|Hz].
  - now rewrite (Hc eq_refl).
  - rewrite Hdig. f_equal. apply (span_digits_app (c :: t) rest Hd Hr).
Qed.

Lemma number_frac_delimited rest : delimited rest -> number_frac rest = Some ([], rest).
Proof.
  intros Hr. destruct rest as [|c0 u]; [reflexivity|]. destruct Hr as (_ & H46 & _).
  cbn [number_frac]. destruct (N.eqb_spec c0 46); [contradiction | reflexivity].
Qed.

Lemma number_exp_delimited rest : delimited rest -> number_exp rest = Some (0%Z, rest).
Proof.
  intros Hr. destruct rest as [|c0 u]; [reflexivity|]. destruct Hr as (_ & _ & H1 & H2).
  cbn [number_exp]. destruct (N.eqb_spec c0 101); [contradiction|].
  destruct (N.eqb_spec c0 69); [contradiction | reflexivity].
Qed.

Lemma parse_number_digits (neg : bool) d n rest :
  canonical_digits d -> digits_value 10 0 d = Some n -> delimited rest ->
  parse_number ((if neg then [45] else []) ++ d ++ rest)
  = Some (round_decimal neg n 0, rest).
Proof.
  intros Hcd Hn Hr. unfold parse_number.
  assert (Hs : number_sign ((if neg then [45] else []) ++ d ++ rest) = (neg, d ++ rest)).
  { destruct Hcd as [Hd Hc]. destruct d as [|c t]; [easy|].
    apply number_sign_digits. now inversion Hd. }
  rewrite Hs, (number_int_canonical d rest Hcd Hr). cbn [mbind option_bind].
  rewrite (number_frac_delimited rest Hr). cbn [mbind option_bind].
  rewrite (number_exp_delimited rest Hr). cbn [mbind option_bind].
  rewrite app_nil_r, Hn. reflexivity.
Qed.

Lemma parse_int_string z rest :
  (Z.abs z <= MAX_EXACT)%Z -> delimited rest ->
  parse_number (int_string z ++ rest) = Some (Int z, rest).
Proof.
  intros Hz Hr. unfold int_string.
  pose proof (parse_number_digits (z <? 0)%Z (dec (Z.abs_N z)) (Z.abs_N z) rest
                (dec_canonical _) (digits_value_dec _) Hr) as H.
  assert (E : round_decimal (z <? 0)%Z (Z.abs_N z) 0 = Int z).
  { unfold round_decimal. destruct (N.eqb_spec (Z.abs_N z) 0) as [H0|H0].
    - f_equal. lia.
    - cbn [Z.leb Z.compare Z.ltb Z.pow Z.pow_pos Pos.iter]. rewrite Z.mul_1_r.
      destruct (Z.leb_spec (Z.of_N (Z.abs_N z)) MAX_EXACT); [|lia].
      destruct (Z.ltb_spec z 0); f_equal; lia. }
  rewrite E in H. destruct (z <? 0)%Z; exact H.
Qed.

(** *** Values *)

Lemma json_nested_ind (P : json -> Prop) :
  P JNull -> (forall b, P (JBool b)) -> (forall n, P (JNum n)) ->
  (forall s, P (JStr s)) ->
  (forall items, Forall P items -> P (JArr items)) ->
  (forall members, Forall (fun kv => P (snd kv)) members -> P (JObj members)) ->
  forall v, P v.
Proof.
  intros HN HB Hn HS HA HO.
  fix IH 1. intros [ | b | n | s | items | members ].
  - exact HN.
  - apply HB.
  - apply Hn.
  - apply HS.
  - apply HA. induction items as [|x r IHr]; constructor; [apply IH | exact IHr].
  - apply HO. induction members as [|[k x] r IHr]; constructor; [apply IH | exact IHr].
Qed.

Lemma skip_ws_app ws s : all_ws ws -> skip_ws (ws ++ s) = skip_ws s.
Proof. induction 1 as [|c ws Hc _ IH]; simpl; [reflexivity|]. now rewrite Hc. Qed.

Lemma skip_ws_head c s : is_json_ws c = false -> skip_ws (c :: s) = c :: s.
Proof. intros H. simpl. now rewrite H. Qed.

Lemma parse_value_ws fuel ws s :
  all_ws ws -> parse_value fuel (ws ++ s) = parse_value fuel s.
Proof.
  intros H. destruct fuel; [reflexivity|].
  cbn [parse_value]. unfold value_step. now rewrite skip_ws_app.
Qed.

Lemma all_ws_newline_indent ind : all_ws (newline_indent ind).
Proof.
  constructor; [reflexivity|]. induction ind; simpl; constructor; auto.
Qed.

Lemma join_one sep x : join sep [x] = x.
Proof. reflexivity. Qed.

Lemma join_more sep x y r : join sep (x :: y :: r) = x ++ sep ++ join sep (y :: r).
Proof. reflexivity. Qed.

Lemma int_string_head z :
  exists c t, int_string z = c :: t /\ (c = 45 \/ is_digit c = true).
Proof.
  unfold int_string. destruct (z <? 0)%Z; [eauto|].
  pose proof (dec_digits (Z.abs_N z)) as Hd. pose proof (dec_nonempty (Z.abs_N z)) as Hn.
  destruct (dec (Z.abs_N z)) as [|c t]; [congruence|].
  exists c, t. split; [reflexivity|]. right. now inversion Hd.
Qed.

Lemma digit_or_minus c :
  c = 45 \/ is_digit c = true ->
  value_start c /\ (c =? 34) = false /\ (c =? 91) = false /\ (c =? 123) = false
  /\ (c =? 116) = false /\ (c =? 102) = false /\ (c =? 110) = false.
Proof.
  unfold value_start, is_digit. intros [-> | H]; [repeat split; discriminate|].
  apply andb_true_iff in H as [?%N.leb_le ?%N.leb_le].
  repeat split; try lia; try (apply N.eqb_neq; lia).
  unfold is_json_ws.
  repeat match goal with
         | |- context [?a =? ?b] => destruct (N.eqb_spec a b); try lia
         end; reflexivity.
Qed.

Lemma serialize_head gap ind v :
  exists c t, serialize gap ind v = c :: t /\ value_start c.
Proof.
  destruct v as [ | [] | [ | z | neg m e | ] | s | items | members ]; cbn [serialize];
    try (eexists _, _; split; [reflexivity | repeat split; discriminate]).
  - destruct (int_string_head z) as (c & t & -> & H).
    exists c, t. split; [reflexivity|]. now apply digit_or_minus.
  - unfold wrap. destruct (map _ items); [|destruct gap];
      (eexists _, _; split; [reflexivity | repeat split; discriminate]).
  - unfold wrap. destruct (map _ members); [|destruct gap];
      (eexists _, _; split; [reflexivity | repeat split; discriminate]).
Qed.

Lemma delimited_start c s :
  (c = 44 \/ c = 93 \/ c = 125 \/ is_json_ws c = true) -> delimited (c :: s).
Proof.
  unfold delimited, is_digit, is_json_ws. intros H.
  assert (c = 44 \/ c = 93 \/ c = 125 \/ c = 32 \/ c = 9 \/ c = 10 \/ c = 13) as Hc.
  { destruct H as [H | [H | [H | H]]]; auto.
    rewrite !orb_true_iff, !N.eqb_eq in H. intuition. }
  repeat (destruct Hc as [-> | Hc]; [repeat split; discriminate|]).
  subst. repeat split; discriminate.
Qed.

Lemma delimited_ws_then ws c s :
  all_ws ws -> (c = 44 \/ c = 93 \/ c = 125) -> delimited (ws ++ c :: s).
Proof.
  intros Hw Hc. destruct Hw as [|w ws Hw _]; apply delimited_start; tauto.
Qed.

Lemma parse_elements_join gap ind (items : list json) :
  items <> [] -> Forall roundtrips items ->
  fold_right (fun x P => serializable x /\ P) True items ->
  forall fuel ws1 ws2 ws3 rest,
    all_ws ws1 -> all_ws ws2 -> all_ws ws3 ->
    (fold_right (fun x n => S (json_size x + n)) 0 items <= fuel)%nat ->
    parse_elements fuel
      (ws1 ++ join (44 :: ws2) (map (serialize gap ind) items) ++ ws3 ++ 93 :: rest)
    = Some (items, rest).
Proof.
  intros Hne HF. induction HF as [|x r Hx Hr IH]; [congruence|].
  intros [Sx Sr] fuel ws1 ws2 ws3 rest H1 H2 H3 Hfuel.
  cbn [fold_right] in Hfuel.
  destruct fuel as [|fuel]; [lia|]. cbn [parse_elements]. unfold elements_step.
  rewrite parse_value_ws by exact H1.
  destruct r as [|y r].
  - cbn [map]. rewrite join_one.
    rewrite (Hx Sx gap ind fuel (ws3 ++ 93 :: rest)); [|cbn in Hfuel; lia|].
    2:{ apply delimited_ws_then; auto. }
    cbn [mbind option_bind]. rewrite skip_ws_app by exact H3.
    reflexivity.
  - cbn [map]. rewrite join_more. rewrite <- !app_assoc. cbn [app].
    rewrite (Hx Sx gap ind fuel); [|lia|].
    2:{ apply delimited_start. auto. }
    cbn [mbind option_bind skip_ws is_json_ws N.eqb Pos.eqb orb].
    cbn [map] in IH.
    rewrite (IH ltac:(discriminate) Sr fuel ws2 ws2 ws3 rest H2 H2 H3 ltac:(lia)).
    reflexivity.
Qed.

Lemma parse_members_join gap ind (sp : jsstring) (members : list (jsstring * json)) :
  members <> [] -> Forall (fun kv => roundtrips (snd kv)) members ->
  fold_right (fun kv P => serializable (snd kv) /\ P) True members ->
  all_ws sp ->
  forall fuel ws1 ws2 ws3 rest,
    all_ws ws1 -> all_ws ws2 -> all_ws ws3 ->
    (fold_right (fun kv n => S (json_size (snd kv) + n)) 0 members <= fuel)%nat ->
    parse_members fuel
      (ws1 ++ join (44 :: ws2)
                (map (fun kv => QuoteJSONString (fst kv) ++ 58 :: sp
                                ++ serialize gap ind (snd kv)) members)
           ++ ws3 ++ 125 :: rest)
    = Some (members, rest).
Proof.
  intros Hne HF. induction HF as [|[k x] r Hx Hr IH]; [congruence|].
  intros [Sx Sr] Hsp fuel ws1 ws2 ws3 rest H1 H2 H3 Hfuel.
  cbn [fold_right snd fst] in *.
  destruct fuel as [|fuel]; [lia|]. cbn [parse_members]. unfold members_step.
  rewrite skip_ws_app by exact H1.
  assert (Hkey : forall tail,
             skip_ws ((QuoteJSONString k ++ 58 :: sp ++ serialize gap ind x) ++ tail)
             = 34 :: quote_body k ++ 34 :: 58 :: sp ++ serialize gap ind x ++ tail).
  { intros tail. unfold QuoteJSONString. cbn [app skip_ws is_json_ws N.eqb Pos.eqb orb].
    f_equal. repeat (rewrite <- app_assoc; cbn [app]). reflexivity. }
  destruct r as [|y r].
  - cbn [map]. rewrite join_one, Hkey.
    cbn [N.eqb Pos.eqb]. rewrite parse_quote_body. cbn [mbind option_bind].
    cbn [skip_ws is_json_ws N.eqb Pos.eqb orb].
    rewrite parse_value_ws by exact Hsp.
    rewrite (Hx Sx gap ind fuel (ws3 ++ 125 :: rest)); [|lia|].
    2:{ apply delimited_ws_then; auto. }
    cbn [mbind option_bind]. rewrite skip_ws_app by exact H3.
    reflexivity.
  - cbn [map]. rewrite join_more. rewrite <- app_assoc, Hkey.
    cbn [N.eqb Pos.eqb]. rewrite parse_quote_body. cbn [mbind option_bind].
    cbn [skip_ws is_json_ws N.eqb Pos.eqb orb].
    rewrite parse_value_ws by exact Hsp.
    rewrite <- !app_assoc. cbn [app].
    rewrite (Hx Sx gap ind fuel); [|lia|].
    2:{ apply delimited_start. auto. }
    cbn [mbind option_bind skip_ws is_json_ws N.eqb Pos.eqb orb].
    pose proof (IH ltac:(discriminate) Sr Hsp fuel ws2 ws2 ws3 rest H2 H2 H3
                  ltac:(cbn [fold_right] in *; lia)) as Hp.
    match goal with
    | |- ?X ≫= _ = _ => replace X with (Some (y :: r, rest)) by (symmetry; exact Hp)
    end.
    reflexivity.
Qed.

Lemma value_step_start elements members c t :
  value_start c ->
  value_step elements members (c :: t)
  = (if c =? 34 then '(u, r') ← parse_string_body t; Some (JStr u, r')
     else if c =? 91 then
       match skip_ws t with
       | [] => None
       | d :: r' =>
           if d =? 93 then Some (JArr [], r')
           else '(items, r'') ← elements t; Some (JArr items, r'')
       end
     else if c =? 123 then
       match skip_ws t with
       | [] => None
       | d :: r' =>
           if d =? 125 then Some (JObj [], r')
           else '(kvs, r'') ← members t; Some (JObj (build_object kvs), r'')
       end
     else if c =? 116 then r' ← expect (str "rue") t; Some (JBool true, r')
     else if c =? 102 then r' ← expect (str "alse") t; Some (JBool false, r')
     else if c =? 110 then r' ← expect (str "ull") t; Some (JNull, r')
     else '(n, r') ← parse_number (c :: t); Some (JNum n, r')).
Proof.
  intros [H _]. unfold value_step. now rewrite (skip_ws_head c t H).
Qed.

Lemma skip_ws_serialize gap ind v rest :
  exists c t, skip_ws (serialize gap ind v ++ rest) = c :: t
              /\ (c =? 93) = false /\ (c =? 125) = false.
Proof.
  destruct (serialize_head gap ind v) as (c & t & -> & Hw & H1 & H2).
  exists c, (t ++ rest). cbn [app]. rewrite (skip_ws_head _ _ Hw).
  split; [reflexivity|]. split; now apply N.eqb_neq.
Qed.

Lemma fold_right_Forall_and {A} (Q : A -> Prop) l :
  fold_right (fun x P => Q x /\ P) True l <-> Forall Q l.
Proof.
  induction l as [|x l IH]; simpl; [split; auto|].
  rewrite IH. split; [intros []; now constructor | now inversion 1].
Qed.

Lemma wrap_form opening closing gap ind parts :
  parts <> [] ->
  exists wsA wsB wsC,
    all_ws wsA /\ all_ws wsB /\ all_ws wsC
    /\ wrap opening closing gap ind parts
       = opening :: wsA ++ join (44 :: wsB) parts ++ wsC ++ [closing].
Proof.
  intros Hne. unfold wrap. destruct parts as [|p ps]; [congruence|].
  destruct gap as [|gap].
  - exists [], [], []. repeat split; constructor.
  - exists (newline_indent (ind + S gap)), (newline_indent (ind + S gap)),
      (newline_indent ind).
    repeat split; apply all_ws_newline_indent.
Qed.

Lemma skip_ws_join ws sep c t ps tail :
  all_ws ws -> is_json_ws c = false ->
  exists u, skip_ws (ws ++ join sep ((c :: t) :: ps) ++ tail) = c :: u.
Proof.
  intros Hw Hc. rewrite skip_ws_app by exact Hw.
  destruct ps as [|q ps].
  - rewrite join_one. cbn [app]. rewrite (skip_ws_head _ _ Hc). eauto.
  - rewrite join_more. cbn [app]. rewrite (skip_ws_head _ _ Hc). eauto.
Qed.

Lemma value_step_array elements members t items rest :
  (exists c u, skip_ws t = c :: u /\ (c =? 93) = false) ->
  elements t = Some (items, rest) ->
  value_step elements members (91 :: t) = Some (JArr items, rest).
Proof.
  intros (c & u & Hc & H93) He.
  rewrite value_step_start by (repeat split; discriminate).
  cbn [N.eqb Pos.eqb]. now rewrite Hc, H93, He.
Qed.

Lemma value_step_object elements members t kvs rest :
  (exists c u, skip_ws t = c :: u /\ (c =? 125) = false) ->
  members t = Some (kvs, rest) ->
  value_step elements members (123 :: t) = Some (JObj (build_object kvs), rest).
Proof.
  intros (c & u & Hc & H125) He.
  rewrite value_step_start by (repeat split; discriminate).
  cbn [N.eqb Pos.eqb]. now rewrite Hc, H125, He.
Qed.

(** Parsing the serialization of a serializable value gives the value
    back and leaves what followed it. *)
Lemma parse_serialize (v : json) : roundtrips v.
Proof.
  induction v as [ | b | n | s | items IH | members IH ] using json_nested_ind;
    intros Hs gap ind fuel rest Hfuel Hrest;
    (destruct fuel as [|fuel]; [cbn in Hfuel; lia|]); cbn [parse_value].
  - reflexivity.
  - destruct b; reflexivity.
  - destruct n as [ | z | neg m e | ]; try contradiction. cbn [serialize serializable] in *.
    destruct (int_string_head z) as (c & t & E & Hc).
    apply digit_or_minus in Hc as (Hv & H1 & H2 & H3 & H4 & H5 & H6).
    pose proof (parse_int_string z rest Hs Hrest) as Hp.
    rewrite E in *. cbn [app] in *.
    rewrite (value_step_start _ _ c (t ++ rest) Hv), H1, H2, H3, H4, H5, H6, Hp.
    reflexivity.
  - cbn [serialize]. unfold QuoteJSONString. cbn [app].
    rewrite value_step_start by (repeat split; discriminate).
    cbn [N.eqb Pos.eqb]. rewrite <- app_assoc. cbn [app].
    now rewrite parse_quote_body.
  - cbn [serialize serializable json_size] in *.
    destruct items as [|x r]; [reflexivity|].
    destruct (wrap_form 91 93 gap ind (map (serialize gap (ind + gap)) (x :: r)))
      as (wsA & wsB & wsC & HA & HB & HC & ->); [discriminate|].
    cbn [app]. repeat (rewrite <- app_assoc; cbn [app]).
    apply value_step_array.
    + cbn [map].
      destruct (serialize_head gap (ind + gap) x) as (c & t & -> & Hw & H93 & _).
      destruct (skip_ws_join wsA (44 :: wsB) c t (map (serialize gap (ind + gap)) r)
                  (wsC ++ 93 :: rest) HA Hw) as (u & Hu).
      exists c, u. split; [exact Hu | now apply N.eqb_neq].
    + apply (parse_elements_join gap (ind + gap) (x :: r)); auto; try discriminate; lia.
  - cbn [serialize serializable json_size] in *. destruct Hs as [Hb Hs].
    destruct members as [|[k x] r]; [reflexivity|].
    rewrite <- Hb at 2.
    destruct (wrap_form 123 125 gap ind
                (map (fun kv => QuoteJSONString (fst kv) ++ 58
                        :: match gap with O => [] | _ => [32] end
                        ++ serialize gap (ind + gap) (snd kv)) ((k, x) :: r)))
      as (wsA & wsB & wsC & HA & HB & HC & ->); [discriminate|].
    cbn [app]. repeat (rewrite <- app_assoc; cbn [app]).
    apply value_step_object.
    + cbn [map fst snd]. unfold QuoteJSONString at 1. cbn [app].
      match goal with
      | |- context [join ?sep ((34 :: ?t) :: ?ps) ++ ?tail] =>
          destruct (skip_ws_join wsA sep 34 t ps tail HA eq_refl) as (u & Hu)
      end.
      exists 34, u. split; [exact Hu | reflexivity].
    + apply (parse_members_join gap (ind + gap) _ ((k, x) :: r));
        auto; try discriminate; try lia.
      destruct gap; repeat constructor.
Qed.

(** *** The fuel [JSON_parse] gives is enough *)

Lemma join_length {A} (sz : A -> nat) (ser : A -> jsstring) sep (l : list A) :
  sep <> [] -> l <> [] -> Forall (fun x => (sz x <= length (ser x))%nat) l ->
  (fold_right (fun x n => S (sz x + n)) 0 l <= S (length (join sep (map ser l))))%nat.
Proof.
  intros Hsep Hne HF. induction HF as [|x r Hx Hr IH]; [congruence|].
  destruct r as [|y r].
  - cbn [fold_right map]. rewrite join_one. lia.
  - cbn [map] in *. rewrite join_more, !length_app.
    cbn [fold_right] in *. specialize (IH ltac:(discriminate)).
    destruct sep; [congruence|]. cbn [length]. lia.
Qed.

Lemma wrap_length opening closing gap ind parts :
  parts <> [] ->
  (2 + length (join (44%N :: match gap with
                            | O => []
                            | _ => newline_indent (ind + gap)
                            end) parts)
   <= length (wrap opening closing gap ind parts))%nat.
Proof.
  intros Hne. unfold wrap. destruct parts as [|p ps]; [congruence|].
  destruct gap; cbn [length]; rewrite !length_app; cbn [length]; lia.
Qed.

Lemma json_size_length (v : json) :
  forall gap ind, (json_size v <= length (serialize gap ind v))%nat.
Proof.
  induction v as [ | b | n | s | items IH | members IH ] using json_nested_ind;
    intros gap ind; cbn [json_size serialize].
  - cbn. lia.
  - destruct b; cbn; lia.
  - destruct n as [ | z | neg m e | ]; try (cbn; lia).
    destruct (int_string_head z) as (c & t & -> & _). cbn. lia.
  - unfold QuoteJSONString. cbn [length]. lia.
  - destruct items as [|x r]; [cbn; lia|].
    pose proof (wrap_length 91 93 gap ind (map (serialize gap (ind + gap)) (x :: r))
                  ltac:(discriminate)) as Hw.
    pose proof (join_length json_size (serialize gap (ind + gap))
                  (44 :: match gap with O => [] | _ => newline_indent (ind + gap) end)
                  (x :: r) ltac:(discriminate) ltac:(discriminate)) as Hj.
    specialize (Hj ltac:(eapply Forall_impl; [exact IH | intros y Hy; apply Hy])).
    lia.
  - destruct members as [|kv r]; [cbn; lia|].
    set (f := fun kv : jsstring * json =>
                QuoteJSONString (fst kv) ++ 58
                :: match gap with O => [] | _ => [32] end
                ++ serialize gap (ind + gap) (snd kv)).
    pose proof (wrap_length 123 125 gap ind (map f (kv :: r)) ltac:(discriminate)) as Hw.
    pose proof (join_length (fun kv => json_size (snd kv)) f
                  (44 :: match gap with O => [] | _ => newline_indent (ind + gap) end)
                  (kv :: r) ltac:(discriminate) ltac:(discriminate)) as Hj.
    assert (HF : Forall (fun x => (json_size (snd x) <= length (f x))%nat) (kv :: r)).
    { eapply Forall_impl; [exact IH|]. intros y Hy. unfold f.
      rewrite length_app. cbn [length]. rewrite length_app.
      specialize (Hy gap (ind + gap)%nat). lia. }
    specialize (Hj HF).
    exact (Nat.le_trans _ _ _ (le_n_S _ _ Hj) Hw).
Qed.

Lemma serializable_tracked (v : json) : serializable v -> tracked v = true.
Proof.
  induction v as [ | b | n | s | items IH | members IH ] using json_nested_ind;
    cbn [serializable tracked]; try reflexivity.
  - now destruct n.
  - intros Hs. apply forallb_forall. intros x Hx.
    apply fold_right_Forall_and in Hs.
    rewrite Forall_forall in IH, Hs. apply list_elem_of_In in Hx. auto.
  - intros [_ Hs]. apply forallb_forall. intros x Hx.
    apply (fold_right_Forall_and (fun kv => serializable (snd kv))) in Hs.
    rewrite Forall_forall in IH, Hs. apply list_elem_of_In in Hx. auto.
Qed.

(** [JSON.parse(JSON.stringify(v, null, space))] is [v], for every
    serializable value and every indentation. *)
Lemma JSON_parse_stringify (v : json) (space : nat) :
  serializable v ->
  exists text, JSON_stringify v space = Some text /\ JSON_parse text = Some v.
Proof.
  intros Hs. unfold JSON_stringify. rewrite (serializable_tracked v Hs).
  eexists. split; [reflexivity|]. unfold JSON_parse.
  set (text := serialize (Nat.min space 10) 0 v).
  pose proof (parse_serialize v Hs (Nat.min space 10) 0%nat
                (2 * length text + 2)%nat []) as Hp.
  rewrite app_nil_r in Hp. fold text in Hp.
  rewrite Hp; [reflexivity | | exact I].
  pose proof (json_size_length v (Nat.min space 10) 0%nat). fold text in H. lia.
Qed.

(** *** The parser does not run out of fuel

    What some amount of fuel parses, the fuel of [JSON_parse] parses
    too: its [None] is a syntax error. *)

Lemma skip_ws_length s : (length (skip_ws s) <= length s)%nat.
Proof.
  induction s as [|c s IH]; simpl; [lia|].
  destruct (is_json_ws c); simpl; lia.
Qed.

Lemma parse_string_body_length s t r :
  parse_string_body s = Some (t, r) -> (length r < length s)%nat.
Proof.
  remember (length s) as n eqn:Hn. revert s t r Hn.
  induction n as [n IH] using lt_wf_ind. intros s t r Hn H.
  destruct s as [|c s1]; [discriminate|]. cbn [parse_string_body] in H.
  destruct (c =? 34); [injection H as <- <-; simpl in *; lia|].
  destruct (c =? 92).
  - destruct s1 as [|e s2]; [discriminate|].
    destruct (e =? 117).
    + destruct s2 as [|h1 [|h2 [|h3 [|h4 s3]]]]; try discriminate.
      destruct (digits_value 16 0 [h1; h2; h3; h4]); [|discriminate].
      destruct (parse_string_body s3) as [[t' r']|] eqn:E; [|discriminate].
      injection H as <- <-.
      apply (IH (length s3)) in E; simpl in *; lia.
    + match type of H with
      | match ?u with _ => _ end = _ => destruct u; [|discriminate]
      end.
      destruct (parse_string_body s2) as [[t' r']|] eqn:E; [|discriminate].
      injection H as <- <-.
      apply (IH (length s2)) in E; simpl in *; lia.
  - destruct (c <? 32); [discriminate|].
    destruct (parse_string_body s1) as [[t' r']|] eqn:E; [|discriminate].
    injection H as <- <-.
    apply (IH (length s1)) in E; simpl in *; lia.
Qed.

Lemma expect_length lit s r : expect lit s = Some r -> (length r <= length s)%nat.
Proof.
  revert s. induction lit as [|c lit IH]; intros s H; simpl in H.
  - injection H as <-. lia.
  - destruct s as [|d s]; [discriminate|]. destruct (c =? d); [|discriminate].
    apply IH in H. simpl. lia.
Qed.

Lemma span_digits_length s d r :
  span_digits s = (d, r) -> length s = (length d + length r)%nat.
Proof.
  revert d r. induction s as [|c s IH]; intros d r H; simpl in H.
  - injection H as <- <-. reflexivity.
  - destruct (is_digit c).
    + destruct (span_digits s) as [d' r']. injection H as <- <-.
      simpl. now rewrite (IH d' r' eq_refl).
    + injection H as <- <-. reflexivity.
Qed.

Lemma take_sign_length s neg u : take_sign s = (neg, u) -> (length u <= length s)%nat.
Proof.
  unfold take_sign. destruct s as [|c s]; [intros [= <- <-]; lia|].
  destruct (c =? 43); [intros [= <- <-]; simpl; lia|].
  destruct (c =? 45); intros [= <- <-]; simpl; lia.
Qed.

Lemma parse_number_length s n r :
  parse_number s = Some (n, r) -> (length r < length s)%nat.
Proof.
  unfold parse_number.
  destruct (number_sign s) as [neg s1] eqn:E1.
  assert (H1 : (length s1 <= length s)%nat).
  { unfold number_sign in E1. destruct s as [|c u]; [injection E1 as <- <-; lia|].
    destruct (c =? 45); injection E1 as <- <-; simpl; lia. }
  destruct (number_int s1) as [[ip s2]|] eqn:E2; [|discriminate].
  assert (H2 : (length s2 < length s1)%nat).
  { unfold number_int in E2. destruct s1 as [|c u]; [discriminate|].
    destruct (c =? 48); [injection E2 as <- <-; simpl; lia|].
    destruct (is_digit c) eqn:Hc; [|discriminate]. injection E2 as E2.
    simpl in E2. rewrite Hc in E2. destruct (span_digits u) as [d' r'] eqn:E.
    injection E2 as <- <-. apply span_digits_length in E. simpl. lia. }
  cbn [mbind option_bind].
  destruct (number_frac s2) as [[fr s3]|] eqn:E3; [|discriminate].
  assert (H3 : (length s3 <= length s2)%nat).
  { unfold number_frac in E3. destruct s2 as [|c u]; [injection E3 as <- <-; lia|].
    destruct (c =? 46); [|injection E3 as <- <-; lia].
    destruct (span_digits u) as [d' r'] eqn:E. apply span_digits_length in E.
    destruct d'; [discriminate|]. injection E3 as <- <-. simpl in *. lia. }
  cbn [mbind option_bind].
  destruct (number_exp s3) as [[x s4]|] eqn:E4; [|discriminate].
  assert (H4 : (length s4 <= length s3)%nat).
  { unfold number_exp in E4. destruct s3 as [|c u]; [injection E4 as <- <-; lia|].
    destruct ((c =? 101) || (c =? 69)); [|injection E4 as <- <-; lia].
    destruct (take_sign u) as [eneg u'] eqn:Es. apply take_sign_length in Es.
    destruct (span_digits u') as [d' r'] eqn:E. apply span_digits_length in E.
    destruct d' as [|d0 d']; [discriminate|].
    destruct (digits_value 10 0 (d0 :: d')); [|discriminate].
    injection E4 as <- <-. simpl in *. lia. }
  cbn [mbind option_bind].
  destruct (digits_value 10 0 (ip ++ fr)); [|discriminate].
  cbn [mbind option_bind]. intros [= <- <-]. lia.
Qed.

Lemma value_step_shrinks e m : shrinks e -> shrinks m -> shrinks (value_step e m).
Proof.
  intros He Hm s v r. unfold value_step.
  pose proof (skip_ws_length s) as Hs.
  destruct (skip_ws s) as [|c t]; [discriminate|]. simpl in Hs.
  destruct (c =? 34).
  { destruct (parse_string_body t) as [[u r']|] eqn:E; [|discriminate].
    intros [= <- <-]. apply parse_string_body_length in E. lia. }
  destruct (c =? 91).
  { pose proof (skip_ws_length t) as Ht.
    destruct (skip_ws t) as [|d r']; [discriminate|]. simpl in Ht.
    destruct (d =? 93); [intros [= <- <-]; lia|].
    destruct (e t) as [[items r'']|] eqn:E; [|discriminate].
    intros [= <- <-]. apply He in E. lia. }
  destruct (c =? 123).
  { pose proof (skip_ws_length t) as Ht.
    destruct (skip_ws t) as [|d r']; [discriminate|]. simpl in Ht.
    destruct (d =? 125); [intros [= <- <-]; lia|].
    destruct (m t) as [[kvs r'']|] eqn:E; [|discriminate].
    intros [= <- <-]. apply Hm in E. lia. }
  destruct (c =? 116).
  { destruct (expect _ t) eqn:E; [|discriminate]. intros [= <- <-].
    apply expect_length in E. lia. }
  destruct (c =? 102).
  { destruct (expect _ t) eqn:E; [|discriminate]. intros [= <- <-].
    apply expect_length in E. lia. }
  destruct (c =? 110).
  { destruct (expect _ t) eqn:E; [|discriminate]. intros [= <- <-].
    apply expect_length in E. lia. }
  destruct (parse_number (c :: t)) as [[n r']|] eqn:E; [|discriminate].
  intros [= <- <-]. apply parse_number_length in E. simpl in E. lia.
Qed.

Lemma elements_step_shrinks v e : shrinks v -> shrinks e -> shrinks (elements_step v e).
Proof.
  intros Hv He s vs r. unfold elements_step.
  destruct (v s) as [[x r1]|] eqn:E; [|discriminate]. cbn [mbind option_bind].
  apply Hv in E. pose proof (skip_ws_length r1) as Hs.
  destruct (skip_ws r1) as [|c r']; [discriminate|]. simpl in Hs.
  destruct (c =? 44).
  - destruct (e r') as [[xs r'']|] eqn:E'; [|discriminate].
    intros [= <- <-]. apply He in E'. lia.
  - destruct (c =? 93); [|discriminate]. intros [= <- <-]. lia.
Qed.

Lemma members_step_shrinks v m : shrinks v -> shrinks m -> shrinks (members_step v m).
Proof.
  intros Hv Hm s kvs r. unfold members_step.
  pose proof (skip_ws_length s) as Hs.
  destruct (skip_ws s) as [|q r0]; [discriminate|]. simpl in Hs.
  destruct (q =? 34); [|discriminate].
  destruct (parse_string_body r0) as [[k r1]|] eqn:Ek; [|discriminate].
  cbn [mbind option_bind]. apply parse_string_body_length in Ek.
  pose proof (skip_ws_length r1) as Hs1.
  destruct (skip_ws r1) as [|colon r2]; [discriminate|]. simpl in Hs1.
  destruct (colon =? 58); [|discriminate].
  destruct (v r2) as [[x r3]|] eqn:E; [|discriminate]. cbn [mbind option_bind].
  apply Hv in E. pose proof (skip_ws_length r3) as Hs3.
  destruct (skip_ws r3) as [|c r']; [discriminate|]. simpl in Hs3.
  destruct (c =? 44).
  - destruct (m r') as [[xs r'']|] eqn:E'; [|discriminate].
    intros [= <- <-]. apply Hm in E'. lia.
  - destruct (c =? 125); [|discriminate]. intros [= <- <-]. lia.
Qed.

Lemma parse_shrinks fuel :
  shrinks (parse_value fuel) /\ shrinks (parse_elements fuel)
  /\ shrinks (parse_members fuel).
Proof.
  induction fuel as [|fuel (IHv & IHe & IHm)].
  - repeat split; intros s x r H; discriminate.
  - repeat split; cbn [parse_value parse_elements parse_members].
    + now apply value_step_shrinks.
    + now apply elements_step_shrinks.
    + now apply members_step_shrinks.
Qed.

Lemma value_step_extends e1 e2 m1 m2 s x :
  extends (length s) e1 e2 -> extends (length s) m1 m2 ->
  value_step e1 m1 s = Some x -> value_step e2 m2 s = Some x.
Proof.
  intros He Hm. unfold value_step.
  pose proof (skip_ws_length s) as Hs.
  destruct (skip_ws s) as [|c t]; [discriminate|]. simpl in Hs.
  destruct (c =? 34); [auto|].
  destruct (c =? 91).
  { destruct (skip_ws t) as [|d r']; [discriminate|].
    destruct (d =? 93); [auto|].
    destruct (e1 t) as [[items r'']|] eqn:E; [|discriminate].
    rewrite (He t _ ltac:(lia) E). auto. }
  destruct (c =? 123); [|auto].
  destruct (skip_ws t) as [|d r']; [discriminate|].
  destruct (d =? 125); [auto|].
  destruct (m1 t) as [[kvs r'']|] eqn:E; [|discriminate].
  rewrite (Hm t _ ltac:(lia) E). auto.
Qed.

Lemma elements_step_extends v1 v2 e1 e2 s x :
  shrinks v1 -> extends (S (length s)) v1 v2 -> extends (length s) e1 e2 ->
  elements_step v1 e1 s = Some x -> elements_step v2 e2 s = Some x.
Proof.
  intros Hsh Hv He. unfold elements_step.
  destruct (v1 s) as [[y r1]|] eqn:E; [|discriminate].
  rewrite (Hv s _ ltac:(lia) E). cbn [mbind option_bind].
  apply Hsh in E. pose proof (skip_ws_length r1) as Hs.
  destruct (skip_ws r1) as [|c r']; [discriminate|]. simpl in Hs.
  destruct (c =? 44); [|auto].
  destruct (e1 r') as [[xs r'']|] eqn:E'; [|discriminate].
  rewrite (He r' _ ltac:(lia) E'). auto.
Qed.

Lemma members_step_extends v1 v2 m1 m2 s x :
  shrinks v1 -> extends (length s) v1 v2 -> extends (length s) m1 m2 ->
  members_step v1 m1 s = Some x -> members_step v2 m2 s = Some x.
Proof.
  intros Hsh Hv Hm. unfold members_step.
  pose proof (skip_ws_length s) as Hs.
  destruct (skip_ws s) as [|q r0]; [discriminate|]. simpl in Hs.
  destruct (q =? 34); [|discriminate].
  destruct (parse_string_body r0) as [[k r1]|] eqn:Ek; [|discriminate].
  cbn [mbind option_bind]. apply parse_string_body_length in Ek.
  pose proof (skip_ws_length r1) as Hs1.
  destruct (skip_ws r1) as [|colon r2]; [discriminate|]. simpl in Hs1.
  destruct (colon =? 58); [|discriminate].
  destruct (v1 r2) as [[y r3]|] eqn:E; [|discriminate].
  rewrite (Hv r2 _ ltac:(lia) E). cbn [mbind option_bind].
  apply Hsh in E. pose proof (skip_ws_length r3) as Hs3.
  destruct (skip_ws r3) as [|c r']; [discriminate|]. simpl in Hs3.
  destruct (c =? 44); [|auto].
  destruct (m1 r') as [[xs r'']|] eqn:E'; [|discriminate].
  rewrite (Hm r' _ ltac:(lia) E'). auto.
Qed.

Lemma extends_le {A} (m n : nat) (p q : jsstring -> option (A * jsstring)) :
  (m <= n)%nat -> extends n p q -> extends m p q.
Proof. intros Hmn H s x Hs. apply H. lia. Qed.

(** On the texts shorter than [n], fuel [2 n] is as good as any. *)
Lemma parse_fuel_enough (n : nat) :
  forall f g,
    ((2 * n <= g + 1)%nat -> extends n (parse_value f) (parse_value g))
    /\ ((2 * n <= g)%nat ->
        extends n (parse_elements f) (parse_elements g)
        /\ extends n (parse_members f) (parse_members g)).
Proof.
  induction n as [|n IH].
  - intros f g. split; [|split]; intros s x Hs; lia.
  - assert (Hv : forall f g, (2 * S n <= g + 1)%nat ->
                   extends (S n) (parse_value f) (parse_value g)).
    { intros f g Hg s x Hs H. destruct f as [|f]; [discriminate|].
      destruct g as [|g]; [lia|]. cbn [parse_value] in *.
      destruct (proj2 (IH f g) ltac:(lia)) as [IHe IHm].
      eapply value_step_extends; [| |exact H].
      - apply (extends_le _ n); [lia | exact IHe].
      - apply (extends_le _ n); [lia | exact IHm]. }
    intros f g. split; [apply Hv|]. intros Hg.
    destruct f as [|f]; [split; intros s x Hs H; discriminate|].
    destruct g as [|g]; [lia|].
    destruct (proj2 (IH f g) ltac:(lia)) as [IHe IHm].
    destruct (parse_shrinks f) as [Hsh _].
    split; intros s x Hs H; cbn [parse_elements parse_members] in *.
    + eapply elements_step_extends; [exact Hsh | | | exact H].
      * apply (extends_le _ (S n)); [lia | apply Hv; lia].
      * apply (extends_le _ n); [lia | exact IHe].
    + eapply members_step_extends; [exact Hsh | | | exact H].
      * apply (extends_le _ (S n)); [lia | apply Hv; lia].
      * apply (extends_le _ n); [lia | exact IHm].
Qed.

(** What any amount of fuel parses, the fuel of [JSON_parse] parses. *)
Lemma JSON_parse_fuel (text : jsstring) (f : nat) (x : json * jsstring) :
  parse_value f text = Some x ->
  parse_value (2 * length text + 2) text = Some x.
Proof.
  intros H.
  apply (proj1 (parse_fuel_enough (S (length text)) f (2 * length text + 2))
           ltac:(lia) text x ltac:(lia) H).
Qed.

(** ** The remote sync client *)

Lemma serialize_nonempty gap ind v : serialize gap ind v <> [].
Proof. destruct (serialize_head gap ind v) as (c & t & -> & _). discriminate. Qed.

Lemma decompress_compress (LZString : LZStringLib) (P : json) :
  lz_roundtrip LZString -> serializable P ->
  exists text, compress LZString P = Some text /\ decompress LZString text = Ok P.
Proof.
  intros Hlz HP.
  destruct (JSON_parse_stringify P 0 HP) as (text & Hs & Hp).
  exists (compressToUTF16 LZString text). unfold compress, decompress.
  rewrite Hs. split; [reflexivity|].
  assert (Hne : text <> []).
  { unfold JSON_stringify in Hs. destruct (tracked P); [|discriminate].
    injection Hs as <-. apply serialize_nonempty. }
  rewrite (Hlz text Hne). destruct text as [|c t]; [congruence|].
  now rewrite Hp.
Qed.

(** C3: the compression codec is a round trip: when the library's
    decompression undoes its compression, every serializable payload
    [P] has a compressed text, and decompressing that text (the
    library, the emptiness check, [JSON.parse]) gives [P] back. *)
Theorem codec_roundtrip (LZString : LZStringLib) (P : json) :
  lz_roundtrip LZString -> serializable P ->
  exists text, compress LZString P = Some text /\ decompress LZString text = Ok P.
Proof.
  intros Hlz HP.
  destruct (JSON_parse_stringify P 0 HP) as (json & Hs & Hp).
  assert (Hne : json <> []).
  { unfold JSON_stringify in Hs. destruct (tracked P); [|discriminate].
    injection Hs as <-. apply serialize_nonempty. }
  exists (compressToUTF16 LZString json). split.
  - unfold compress. now rewrite Hs.
  - unfold decompress. rewrite (Hlz json Hne).
    destruct json as [|c t]; [congruence|]. now rewrite Hp.
Qed.

Lemma plain_codec_roundtrip : lz_roundtrip plain_codec.
Proof. intros [|c s] Hs; [contradiction | reflexivity]. Defined.

Lemma verbatim_codec_roundtrip : lz_roundtrip verbatim_codec.
Proof. intros s Hs. reflexivity. Defined.

Lemma sample_collection_serializable : Forall serializable sample_collection.
Proof.
  constructor; [|constructor].
  vm_compute. repeat split; discriminate.
Defined.

Lemma sample_cloud_data_serializable : serializable sample_cloud_data.
Proof. vm_compute. repeat split; discriminate. Defined.

Lemma codec_roundtrip_witness :
  exists text, compress plain_codec sample_cloud_data = Some text
               /\ decompress plain_codec text = Ok sample_cloud_data.
Proof.
  apply (codec_roundtrip plain_codec sample_cloud_data).
  - exact plain_codec_roundtrip.
  - exact sample_cloud_data_serializable.
Defined.

Lemma unwrap_under_record (payload : json) :
  truthy payload = true -> unwrap_record (under_record payload) = payload.
Proof.
  intros H. unfold unwrap_record, under_record.
  assert (E : get (JObj [(str "record", payload)]) (str "record") = Some payload)
    by reflexivity.
  rewrite E. cbn [truthy]. now rewrite H.
Qed.

(** C2 (as amended): when the library's decompression undoes its
    compression, the normalizer returns [D] on
    [{record: {compressed: true, data: compress(D)}}].  In general, let
    the payload of a response be its [record] when that is truthy and
    the response itself otherwise.  A payload whose [compressed] is
    [true] and whose [data] is a string, under [record] or not, is
    decompressed and parsed: the decompression error is raised when the
    library gives [null], when it gives the empty string and when the
    text does not parse, and the parsed value is returned otherwise.
    Every other payload is returned as it is, in particular one that
    has an array of templates and no [compressed] flag. *)
Theorem parseResponse_normalizes (LZString : LZStringLib) :
  lz_roundtrip LZString ->
  (forall D text,
     serializable D -> JSON_stringify D 0 = Some text ->
     parseResponse LZString
       (JObj [(str "record",
               JObj [(str "compressed", JBool true);
                     (str "data", JStr (compressToUTF16 LZString text))])])
     = Ok D)
  /\ (forall raw payload,
        (get raw (str "record") = Some payload /\ truthy payload = true
         \/ payload = raw
            /\ match get raw (str "record") with
               | Some record => truthy record = false
               | None => True
               end) ->
        (forall data,
           get payload (str "compressed") = Some (JBool true) ->
           get payload (str "data") = Some (JStr data) ->
           parseResponse LZString raw
           = match decompressFromUTF16 LZString data with
             | None | Some [] => Err DecompressionError
             | Some text => match JSON_parse text with
                            | Some parsedData => Ok parsedData
                            | None => Err DecompressionError
                            end
             end)
        /\ (get payload (str "compressed") <> Some (JBool true)
            \/ (forall data, get payload (str "data") <> Some (JStr data)) ->
            parseResponse LZString raw = Ok payload)
        /\ (forall ts,
              get payload (str "templates") = Some (JArr ts) ->
              get payload (str "compressed") = None ->
              parseResponse LZString raw = Ok payload)).
Proof.
  intros Hlz. split.
  - intros D text HD Hs.
    destruct (decompress_compress LZString D Hlz HD) as (c & Hc & Hd).
    unfold compress in Hc. rewrite Hs in Hc. injection Hc as <-.
    unfold parseResponse. exact Hd.
  - intros raw payload Hp.
    assert (Eu : unwrap_record raw = payload).
    { unfold unwrap_record. destruct Hp as [[Hr Ht] | [-> Hr]].
      - rewrite Hr, Ht. destruct raw; try discriminate. reflexivity.
      - destruct (truthy raw); [|reflexivity].
        destruct (get raw (str "record")) as [r|]; [now rewrite Hr | reflexivity]. }
    assert (Hplain : compressed_data payload = None -> parseResponse LZString raw = Ok payload).
    { intros Hn. unfold parseResponse. rewrite Eu, Hn. now destruct (_ && _). }
    split; [|split].
    + intros data Hc Hd. unfold parseResponse. rewrite Eu.
      unfold compressed_data. rewrite Hc, Hd.
      destruct payload; try discriminate. cbn [truthy]. unfold decompress.
      destruct (decompressFromUTF16 LZString data) as [[|c t]|]; reflexivity.
    + intros H. apply Hplain. unfold compressed_data.
      destruct (truthy payload); [|reflexivity].
      destruct (get payload (str "compressed")) as [[| [|] | | | |]|] eqn:Ec;
        try reflexivity.
      destruct (get payload (str "data")) as [[| | |d| |]|] eqn:Ed; try reflexivity.
      destruct H as [H | H]; [congruence | now destruct (H d)].
    + intros ts _ Hc. apply Hplain. unfold compressed_data. rewrite Hc.
      now destruct (truthy payload).
Qed.

(** The payloads of the specification, with the stand-in codec: the
    compressed form under [record] gives the data back; the legacy form
    [{templates, version}], alone and under [record], is returned as it
    is; compressed data that the library answers [null] to, compressed
    data that is not JSON, and, with the other stand-in, compressed
    data that decompresses to the empty string raise the decompression
    error. *)
Lemma parseResponse_normalizes_witness :
  (exists text, JSON_stringify sample_cloud_data 0 = Some text
                /\ parseResponse plain_codec (under_record (compressed_record text))
                   = Ok sample_cloud_data)
  /\ parseResponse plain_codec (legacy_payload sample_collection (str "1.0.0"))
     = Ok (legacy_payload sample_collection (str "1.0.0"))
  /\ parseResponse plain_codec (under_record (legacy_payload sample_collection (str "1.0.0")))
     = Ok (legacy_payload sample_collection (str "1.0.0"))
  /\ parseResponse plain_codec (compressed_record []) = Err DecompressionError
  /\ parseResponse plain_codec (under_record (compressed_record (str "{")))
     = Err DecompressionError
  /\ parseResponse plain_codec (compressed_record (str "[1]")) = Ok (JArr [JNum (Int 1)])
  /\ parseResponse verbatim_codec (compressed_record []) = Err DecompressionError.
Proof.
  pose proof (parseResponse_normalizes plain_codec plain_codec_roundtrip) as [H1 H2].
  pose proof (parseResponse_normalizes verbatim_codec verbatim_codec_roundtrip) as [_ H3].
  split; [|split; [|split; [|split; [|split; [|split]]]]].
  - eexists. split; [reflexivity|].
    apply (H1 sample_cloud_data _ sample_cloud_data_serializable). reflexivity.
  - apply (proj2 (proj2 (H2 (legacy_payload sample_collection (str "1.0.0")) _
                           (or_intror (conj eq_refl I)))) sample_collection);
      reflexivity.
  - apply (proj2 (proj2 (H2 (under_record (legacy_payload sample_collection (str "1.0.0")))
                           (legacy_payload sample_collection (str "1.0.0"))
                           (or_introl (conj eq_refl eq_refl)))) sample_collection);
      reflexivity.
  - exact (proj1 (H2 (compressed_record []) _ (or_intror (conj eq_refl I)))
             [] eq_refl eq_refl).
  - exact (proj1 (H2 (under_record (compressed_record (str "{")))
                    (compressed_record (str "{")) (or_introl (conj eq_refl eq_refl)))
             (str "{") eq_refl eq_refl).
  - exact (proj1 (H2 (compressed_record (str "[1]")) _ (or_intror (conj eq_refl I)))
             (str "[1]") eq_refl eq_refl).
  - exact (proj1 (H3 (compressed_record []) _ (or_intror (conj eq_refl I)))
             [] eq_refl eq_refl).
Defined.

(** C2 as stated fails on its last clause: a payload that is neither
    of the first two shapes is not always returned as it is.  With the
    library giving [null] on the empty string, [{compressed: true,
    data: <empty>}] raises the decompression error; and a compressed payload
    that is not under [record] is decompressed, not returned. *)
Lemma parseResponse_other_payload_counterexample :
  parseResponse plain_codec (compressed_record []) = Err DecompressionError
  /\ compress plain_codec JNull = Some (str "null")
  /\ parseResponse plain_codec (compressed_record (str "null")) = Ok JNull
  /\ parseResponse plain_codec (compressed_record (str "null"))
     <> Ok (compressed_record (str "null")).
Proof.
  split; [reflexivity|]. split; [reflexivity|].
  split; [vm_compute; reflexivity | vm_compute; discriminate].
Qed.

(** ** Import and export *)

Lemma Forall_fold_serializable (l : list json) :
  Forall serializable l -> fold_right (fun x P => serializable x /\ P) True l.
Proof. apply fold_right_Forall_and. Qed.





(** The empty string is not a revision, and the state never holds it:
    exported in the place of one, it is read as a missing version. *)
Example export_empty_string_as_revision :
  exists f, exportData sample_collection [] 1700000000500 = Some f
            /\ parseImportData (ReadText (content f)) = Err InvalidFileError.
Proof. eexists. split; [vm_compute; reflexivity|]. vm_compute. reflexivity. Qed.

(** What an import does with JSON content that lacks an array of
    templates or a version: it fails and the state is as before.  The
    error is the invalid-file one, except for the content [null]. *)
Lemma import_missing_fields (text : jsstring) (data : json) (confirmed : bool)
  (st : AppState) :
  JSON_parse text = Some data ->
  isArray (get data (str "templates")) = false \/ get data (str "version") = None ->
  parseImportData (ReadText text)
  = Err (match data with JNull => JsonReadError | _ => InvalidFileError end)
  /\ handleFileChange (Some (ReadText text)) confirmed st
     = (st, Some (RestoreFailed
                    (match data with JNull => JsonReadError | _ => InvalidFileError end))).
Proof.
  intros Hp Hl.
  assert (E : parseImportData (ReadText text)
              = Err (match data with JNull => JsonReadError | _ => InvalidFileError end)).
  { unfold parseImportData. rewrite Hp.
    destruct data; try reflexivity;
      destruct Hl as [Hl | Hl]; rewrite Hl;
      rewrite ?orb_true_r; cbn [negb orb truthy_opt]; rewrite ?orb_true_r; reflexivity. }
  split; [exact E|]. unfold handleFileChange. now rewrite E.
Qed.

(** C7, at the file whose content is [null]: the content is valid JSON
    and has neither templates nor version, reading [data.templates]
    throws inside the [try], and the import is rejected with the
    JSON-read error, not with the invalid-file error.  The state is
    left as it was. *)
Theorem import_null_file (confirmed : bool) (st : AppState) :
  JSON_parse (str "null") = Some JNull
  /\ parseImportData (ReadText (str "null")) = Err JsonReadError
  /\ parseImportData (ReadText (str "null")) <> Err InvalidFileError
  /\ handleFileChange (Some (ReadText (str "null"))) confirmed st
     = (st, Some (RestoreFailed JsonReadError)).
Proof. repeat split. discriminate. Qed.

(** ** The application state coordinator *)

Lemma get_Some_truthy (data : json) (k : jsstring) (v : json) :
  get data k = Some v -> truthy data = true.
Proof. destruct data; try discriminate. reflexivity. Qed.

(** C1 (as amended): a fetch-only sync that completes with data whose
    [templates] is an array replaces the collection by the fetched
    templates, whatever the collection was; it replaces the revision by
    the fetched version when that version is present and truthy, and
    keeps the revision otherwise.  The syncing flag ends lowered. *)
Theorem fetch_sync_overwrites (LZString : LZStringLib) (net : network) (date : Date)
  (st : AppState) (data : json) (ts : list json) :
  endpoint_set st = true ->
  fetchCloudData LZString net (cloudConfig st) = Ok data ->
  get data (str "templates") = Some (JArr ts) ->
  exists st', handleCloudSync LZString net true date st = Some st'
              /\ templates st' = ts
              /\ version st' = match get data (str "version") with
                               | Some v => if truthy v then v else version st
                               | None => version st
                               end
              /\ isSyncing st' = false.
Proof.
  intros He Hf Ht. unfold handleCloudSync, sync_body. rewrite He.
  change (cloudConfig (setIsSyncing true st)) with (cloudConfig st).
  rewrite Hf, (get_Some_truthy data _ _ Ht), Ht. cbn [mbind option_bind].
  eexists. split; [reflexivity|].
  destruct (get data (str "version")) as [v|]; [destruct (truthy v)|];
    repeat split.
Qed.

Lemma fetch_sync_overwrites_witness :
  exists st', handleCloudSync plain_codec
                (respond_with (serialize 0 0 sample_cloud_data)) true sample_date
                (setTemplates [] sample_state) = Some st'
              /\ templates st' = sample_collection
              /\ version st' = JStr (str "1.0.3")
              /\ isSyncing st' = false.
Proof.
  apply (fetch_sync_overwrites plain_codec
           (respond_with (serialize 0 0 sample_cloud_data)) sample_date
           (setTemplates [] sample_state) sample_cloud_data sample_collection);
    vm_compute; reflexivity.
Defined.

(** C1 as stated fails when the fetched version is empty: the fetched
    templates replace the collection, and the revision stays what it
    was instead of becoming the fetched one. *)
Lemma fetch_sync_revision_counterexample :
  JSON_parse empty_revision_body
  = Some (JObj [(str "version", JStr []); (str "templates", JArr [])])
  /\ exists st', handleCloudSync plain_codec (respond_with empty_revision_body)
                   true sample_date sample_state = Some st'
                 /\ templates st' = []
                 /\ version st' = JStr (str "1.0.5")
                 /\ version st' <> JStr [].
Proof.
  split; [vm_compute; reflexivity|].
  eexists. split; [vm_compute; reflexivity|].
  repeat split. discriminate.
Qed.

(** C8: a sync cycle whose fetch or save raises an error ends in the
    state it started from with the syncing flag lowered: the collection,
    the revision and the time of the last sync are what they were. *)
Theorem failed_sync_keeps_state (LZString : LZStringLib) (net : network)
  (fetchOnly : bool) (date : Date) (st : AppState) :
  endpoint_set st = true ->
  (if fetchOnly
   then exists e, fetchCloudData LZString net (cloudConfig st) = Err e
   else exists e, saveCloudData LZString net (cloudConfig st)
                    (CloudData (version st) (templates st) (Date_now date))
                    (toISOString date) = Some (Err e)) ->
  handleCloudSync LZString net fetchOnly date st = Some (setIsSyncing false st)
  /\ templates (setIsSyncing false st) = templates st
  /\ version (setIsSyncing false st) = version st
  /\ lastSyncTime (setIsSyncing false st) = lastSyncTime st
  /\ isSyncing (setIsSyncing false st) = false.
Proof.
  intros He Hfail. split; [|repeat split].
  unfold handleCloudSync, sync_body. rewrite He.
  change (cloudConfig (setIsSyncing true st)) with (cloudConfig st).
  change (version (setIsSyncing true st)) with (version st).
  change (templates (setIsSyncing true st)) with (templates st).
  destruct fetchOnly; destruct Hfail as [e Hfail]; rewrite Hfail; reflexivity.
Qed.

Lemma failed_sync_keeps_state_witness :
  handleCloudSync plain_codec respond_500 true sample_date sample_state
  = Some (setIsSyncing false sample_state)
  /\ templates (setIsSyncing false sample_state) = templates sample_state
  /\ version (setIsSyncing false sample_state) = version sample_state
  /\ lastSyncTime (setIsSyncing false sample_state) = lastSyncTime sample_state
  /\ isSyncing (setIsSyncing false sample_state) = false.
Proof.
  apply (failed_sync_keeps_state plain_codec respond_500 true sample_date sample_state).
  - reflexivity.
  - exists (SyncError 500 (str "Internal Server Error")). reflexivity.
Defined.

(** The failures C8 names do raise: a response whose status is not a
    success, a network that rejects the request, and a compressed
    payload that the library cannot decompress. *)
Lemma sync_failures_raise (LZString : LZStringLib) (net : network)
  (config : CloudConfig) :
  (forall res, (forall req, net req = Responded res) -> ok res = false ->
     fetchCloudData LZString net config = Err (SyncError (status res) (statusText res))
     /\ forall data t, saveCloudData LZString net config data t <> Some (Ok tt))
  /\ ((forall req, net req = Rejected) ->
      fetchCloudData LZString net config = Err FetchRejected
      /\ forall data t, saveCloudData LZString net config data t <> Some (Ok tt))
  /\ (forall res raw data,
        (forall req, net req = Responded res) -> ok res = true ->
        JSON_parse (body res) = Some raw ->
        compressed_data (unwrap_record raw) = Some data ->
        decompressFromUTF16 LZString data = None ->
        fetchCloudData LZString net config = Err DecompressionError).
Proof.
  repeat split.
  - unfold fetchCloudData. now rewrite H, H0.
  - intros data t. unfold saveCloudData.
    destruct (compressed_payload LZString data t); [|discriminate]. cbn [mbind option_bind].
    destruct (JSON_stringify _ 0); [|discriminate]. cbn [mbind option_bind].
    now rewrite H, H0.
  - unfold fetchCloudData. now rewrite H.
  - intros data t. unfold saveCloudData.
    destruct (compressed_payload LZString data t); [|discriminate]. cbn [mbind option_bind].
    destruct (JSON_stringify _ 0); [|discriminate]. cbn [mbind option_bind].
    now rewrite H.
  - intros res raw data Hn Hok Hp Hc Hd.
    unfold fetchCloudData. rewrite Hn, Hok, Hp. cbn [negb].
    unfold parseResponse, decompress. now rewrite Hc, Hd.
Qed.

(** *** Deleting a template *)

(** [incrementVersion] returns on every string. *)
Lemma incrementVersion_total (ls : Storage) (v : jsstring) :
  exists newVer, incrementVersion ls v = Some (newVer, <[VERSION_KEY := newVer]> ls).
Proof.
  unfold incrementVersion.
  destruct (invalid_format (map Number (split 46 v))) eqn:Hg; [eauto|].
  unfold invalid_format in Hg. apply orb_false_iff in Hg as [Hl _].
  apply negb_false_iff, Nat.eqb_eq in Hl. rewrite length_map in Hl.
  destruct (split 46 v) as [|a [|b [|c [|d r]]]]; try discriminate.
  cbn [map].
  destruct (rollover_total (Number a) (Number b) (Number c)) as [w ->].
  cbn [mbind option_bind]. eauto.
Qed.

Lemma filter_templates_spec (id : jsstring) (prev : list json) :
  Forall (fun t => t <> JNull) prev ->
  filter_templates id prev = Some (List.filter (fun t => negb (has_id id t)) prev).
Proof.
  induction 1 as [|t rest Ht _ IH]; [reflexivity|].
  cbn [filter_templates List.filter]. rewrite IH.
  unfold id_differs. destruct t; try congruence;
    cbn [mbind option_bind]; now destruct (negb _).
Qed.

Lemma filter_all_kept {A} (f : A -> bool) (l : list A) :
  (forall x, In x l -> f x = true) -> List.filter f l = l.
Proof.
  induction l as [|x l IH]; intros H; [reflexivity|]. cbn.
  rewrite (H x (or_introl eq_refl)). f_equal. apply IH. intros y Hy. apply H. now right.
Qed.

(** C10: deleting [id] from a state whose collection holds no [null]
    and whose revision is a string returns, removes every template
    whose [id] is the given one and
    keeps the others in their order; the revision becomes what
    [incrementVersion] returns, whether or not anything was removed, so
    that deleting an [id] no template has leaves the collection as it
    was and still advances the revision; and the auto-save effect then
    starts the two-second timer when an endpoint is configured. *)
Theorem handleDeleteTemplate_removes (id v : jsstring) (st : AppState) :
  Forall (fun t => t <> JNull) (templates st) ->
  version st = JStr v ->
  exists newVer st',
    incrementVersion (localStorage st) v
    = Some (newVer, <[VERSION_KEY := newVer]> (localStorage st))
    /\ handleDeleteTemplate id st = Some (Returns st')
    /\ templates st' = List.filter (fun t => negb (has_id id t)) (templates st)
    /\ (forall t, In t (templates st') -> has_id id t = false)
    /\ ((forall t, In t (templates st) -> has_id id t = false) ->
        templates st' = templates st)
    /\ version st' = JStr newVer
    /\ localStorage st' = <[VERSION_KEY := newVer]> (localStorage st)
    /\ saveTimer (autoSaveEffect st')
       = if endpoint_set st then Some 2000%nat else None.
Proof.
  intros Hn Hv.
  destruct (incrementVersion_total (localStorage st) v) as [newVer Hi].
  exists newVer. unfold handleDeleteTemplate.
  rewrite (filter_templates_spec id _ Hn).
  unfold bump_version.
  change (version (setTemplates _ st)) with (version st).
  change (localStorage (setTemplates _ st)) with (localStorage st).
  rewrite Hv, Hi. cbn [mbind option_bind].
  eexists. split; [reflexivity|]. split; [reflexivity|].
  cbn [templates version localStorage setVersion setLocalStorage setTemplates].
  repeat split.
  - intros t Hin. apply filter_In in Hin as [_ Hin]. now apply negb_true_iff in Hin.
  - intros H. apply filter_all_kept. intros t Hin. now rewrite (H t Hin).
Qed.

Lemma handleDeleteTemplate_removes_witness :
  exists st', handleDeleteTemplate (str "a") (setTemplates duplicate_collection sample_state)
              = Some (Returns st')
    /\ templates st'
       = [JObj [(str "id", JStr (str "b")); (str "name", JStr (str "second"))]]
    /\ version st' = JStr (str "1.0.6")
    /\ saveTimer (autoSaveEffect st') = Some 2000%nat.
Proof.
  destruct (handleDeleteTemplate_removes (str "a") (str "1.0.5")
              (setTemplates duplicate_collection sample_state))
    as (newVer & st' & H0 & H1 & H2 & _ & _ & H5 & _ & H7).
  - repeat (constructor; [discriminate|]). constructor.
  - reflexivity.
  - assert (E : fst <$> incrementVersion
                     (localStorage (setTemplates duplicate_collection sample_state))
                     (str "1.0.5") = Some (str "1.0.6"))
      by (vm_compute; reflexivity).
    rewrite H0 in E. injection E as ->.
    exists st'. repeat split; assumption.
Defined.

(** Deleting an [id] that no template has: the collection is as it
    was, the revision advances. *)
Example delete_absent_id :
  exists st', handleDeleteTemplate (str "zzz") sample_state = Some (Returns st')
              /\ templates st' = templates sample_state
              /\ version st' = JStr (str "1.0.6").
Proof. eexists. split; [vm_compute; reflexivity|]. split; reflexivity. Qed.

(** Adding a template and deleting it again: the collection is back to
    what it was, and the revision has gone from ["1.0.0"] to ["1.0.1"]
    to ["1.0.2"]. *)
Example add_then_delete :
  exists st1 st2,
    handleAddTemplate other_template fresh_state = Some (Returns st1)
    /\ templates st1 = other_template :: templates fresh_state
    /\ version st1 = JStr (str "1.0.1")
    /\ handleDeleteTemplate (str "tpl-002") st1 = Some (Returns st2)
    /\ templates st2 = templates fresh_state
    /\ version st2 = JStr (str "1.0.2")
    /\ getStoredVersion (localStorage st2) = str "1.0.2".
Proof.
  eexists. eexists.
  split; [vm_compute; reflexivity|]. split; [reflexivity|]. split; [reflexivity|].
  split; [vm_compute; reflexivity|]. split; [reflexivity|]. split; reflexivity.
Qed.

(** * Further properties *)

(** ** Versioning: what [incrementVersion] returns and stores *)

Lemma normalize_bound neg q u z :
  normalize neg q u = Int z -> (Z.abs z <= MAX_EXACT)%Z.
Proof.
  unfold normalize.
  destruct q as [|p|p]; try (intros [= <-]; vm_compute; discriminate).
  destruct (odd_part p) as [m n].
  destruct ((0 <=? u + n)%Z && (Z.pos m * 2 ^ (u + n) <=? MAX_EXACT)%Z) eqn:E;
    [|discriminate].
  apply andb_true_iff in E as [E1 E2]. apply Z.leb_le in E1, E2.
  assert (0 <= Z.pos m * 2 ^ (u + n))%Z
    by (apply Z.mul_nonneg_nonneg; [lia | apply Z.pow_nonneg; lia]).
  intros [= <-]. destruct neg; lia.
Qed.

Lemma round_ratio_bound neg num den z :
  round_ratio neg num den = Int z -> (Z.abs z <= MAX_EXACT)%Z.
Proof.
  unfold round_ratio. destruct (nearest num den) as [q u].
  destruct (_ && _); [discriminate | apply normalize_bound].
Qed.

Lemma round_decimal_bound neg m e z :
  round_decimal neg m e = Int z -> (Z.abs z <= MAX_EXACT)%Z.
Proof.
  unfold round_decimal.
  assert (H0 : (Z.abs 0 <= MAX_EXACT)%Z) by (vm_compute; discriminate).
  assert (Hfit : forall v, (0 <= v)%Z ->
            (if (v <=? MAX_EXACT)%Z then Int (if neg then (- v)%Z else v)
             else round_ratio neg v 1)
            = Int z -> (Z.abs z <= MAX_EXACT)%Z).
  { intros v Hv. destruct (Z.leb_spec v MAX_EXACT); [|apply round_ratio_bound].
    intros [= <-]. destruct neg; lia. }
  destruct (m =? 0); [now intros [= <-]|].
  destruct (0 <=? e)%Z eqn:He.
  - apply Hfit.
    apply Z.leb_le in He. apply Z.mul_nonneg_nonneg; [lia|]. now apply Z.pow_nonneg.
  - destruct (_ =? 0)%Z; [|apply round_ratio_bound].
    apply Hfit. apply Z.div_pos; [lia|]. apply Z.pow_pos_nonneg; [lia|].
    apply Z.leb_gt in He. lia.
Qed.

(** Every integer [Number] gives has magnitude at most 2^53. *)
Lemma Number_bound s z : Number s = Int z -> (Z.abs z <= MAX_EXACT)%Z.
Proof.
  assert (H0 : (Z.abs 0 <= MAX_EXACT)%Z) by (vm_compute; discriminate).
  unfold Number. destruct (trim s) as [|c t]; [now intros [= <-]|].
  destruct (non_decimal (c :: t)) as [x|] eqn:Hn.
  - intros ->. unfold non_decimal in Hn. destruct t as [|p ds]; [discriminate|].
    destruct (if c =? 48 then base_of_prefix p else None); [|discriminate].
    destruct (digits1_value _ ds) as [v|]; [|discriminate].
    destruct (Z.leb_spec (Z.of_N v) MAX_EXACT).
    + injection Hn as <-. lia.
    + injection Hn as Hn. exact (round_ratio_bound _ _ _ _ Hn).
  - unfold str_decimal. destruct (take_sign (c :: t)) as [neg u].
    destruct (jsstring_eqb u Infinity_lit); [discriminate|].
    unfold unsigned_decimal.
    destruct (cut_at _ u) as [mant expo]. destruct (cut_at _ mant) as [ipart fpart].
    repeat match goal with
           | |- match ?x with _ => _ end = _ -> _ => destruct x; try discriminate
           end; apply round_decimal_bound.
Qed.

Lemma revision_nonempty a b c : revision a b c <> [].
Proof. unfold revision. destruct (int_string a); discriminate. Qed.

Lemma carry_bound (major minor patch : Z) :
  (Z.abs major <= MAX_EXACT)%Z -> (Z.abs minor <= MAX_EXACT)%Z ->
  (Z.abs patch <= MAX_EXACT)%Z ->
  let '(a, b, c) := carry major minor patch in
  (Z.abs a <= MAX_EXACT)%Z /\ (Z.abs b <= MAX_EXACT)%Z /\ (Z.abs c <= MAX_EXACT)%Z.
Proof.
  unfold carry, succ_sat, MAX_EXACT. intros HM Hm Hp.
  repeat match goal with
         | |- context [(?a <? ?b)%Z] => destruct (Z.ltb_spec a b)
         end; lia.
Qed.

(** What the carry chain returns holds two dots. *)
Lemma rollover_nonempty (A B C : number) (w : jsstring) :
  rollover A B C = Some w -> w <> [].
Proof.
  unfold rollover.
  destruct (incr C) as [p1|]; [|discriminate]. cbn [mbind option_bind].
  destruct (gt p1 9) as [o1|]; [|discriminate]. cbn [mbind option_bind].
  destruct (if o1 then _ else _) as [[p2 m2]|]; [|discriminate]. cbn [mbind option_bind].
  destruct (gt m2 9) as [o2|]; [|discriminate]. cbn [mbind option_bind].
  destruct (if o2 then _ else _) as [[m3 M3]|]; [|discriminate]. cbn [mbind option_bind].
  destruct (ToString M3) as [a|]; [|discriminate]. cbn [mbind option_bind].
  destruct (ToString m3) as [b|]; [|discriminate]. cbn [mbind option_bind].
  destruct (ToString p2) as [c|]; [|discriminate]. cbn [mbind option_bind].
  intros [= <-]. destruct a; discriminate.
Qed.

(** What every call of [incrementVersion] that returns has returned
    and stored: a version that is not empty, written under the version
    key. *)
Lemma incrementVersion_Some (ls : Storage) (v v' : jsstring) (ls' : Storage) :
  incrementVersion ls v = Some (v', ls') ->
  ls' = <[VERSION_KEY := v']> ls /\ v' <> [].
Proof.
  unfold incrementVersion. destruct (invalid_format _) eqn:Hg.
  - intros [= <- <-]. split; [reflexivity | discriminate].
  - destruct (map Number (split 46 v)) as [|x [|y [|z [|]]]]; try discriminate.
    destruct (rollover x y z) as [w|] eqn:HR; [|discriminate].
    cbn [mbind option_bind]. intros [= <- <-]. split; [reflexivity|].
    exact (rollover_nonempty _ _ _ _ HR).
Qed.

(** X1: whenever [incrementVersion] returns, the version it returns is
    not empty, the store differs from the one before only under the
    version key, and [getStoredVersion] reads the returned version
    back. *)
Theorem incrementVersion_stored (ls : Storage) (v v' : jsstring) (ls' : Storage) :
  incrementVersion ls v = Some (v', ls') ->
  v' <> []
  /\ getStoredVersion ls' = v'
  /\ forall k, k <> VERSION_KEY -> ls' !! k = ls !! k.
Proof.
  intros H. destruct (incrementVersion_Some ls v v' ls' H) as (-> & Hne).
  split; [exact Hne|]. split.
  - now apply getStoredVersion_insert.
  - intros k Hk. now apply lookup_insert_ne.
Qed.

Lemma incrementVersion_stored_witness :
  str "1.0.6" <> []
  /\ getStoredVersion (<[VERSION_KEY := str "1.0.6"]> (<[str "legal_templates" := str "[]"]> ∅))
     = str "1.0.6"
  /\ forall k, k <> VERSION_KEY ->
       (<[VERSION_KEY := str "1.0.6"]> (<[str "legal_templates" := str "[]"]> ∅) : Storage) !! k
       = (<[str "legal_templates" := str "[]"]> ∅ : Storage) !! k.
Proof.
  apply (incrementVersion_stored (<[str "legal_templates" := str "[]"]> ∅) (str "1.0.5")).
  vm_compute. reflexivity.
Defined.

Lemma carry_moves (major minor patch : Z) :
  snd (carry major minor patch) <> patch.
Proof.
  unfold carry, succ_sat, MAX_EXACT.
  destruct (Z.ltb_spec patch 9007199254740992), (Z.ltb_spec minor 9007199254740992);
    repeat (match goal with
            | |- context [(?a <? ?b)%Z] => destruct (Z.ltb_spec a b)
            end; cbv beta iota zeta);
    cbn [snd]; lia.
Qed.

(** [Number] reads the parts of a revision of three integers back. *)
Lemma revision_parts (a b c : Z) :
  (Z.abs a <= MAX_EXACT)%Z -> (Z.abs b <= MAX_EXACT)%Z -> (Z.abs c <= MAX_EXACT)%Z ->
  map Number (split 46 (revision a b c)) = [Int a; Int b; Int c].
Proof.
  intros Ha Hb Hc. rewrite split_revision. cbn [map].
  now rewrite !Number_int_string.
Qed.

(** [incrementVersion] on a version whose three parts are integers:
    the revision of the carry chain, which differs from the version
    given. *)
Lemma incrementVersion_integers (ls : Storage) (v : jsstring) (a b c : Z) :
  map Number (split 46 v) = [Int a; Int b; Int c] ->
  exists a' b' c',
    carry a b c = (a', b', c')
    /\ incrementVersion ls v
       = Some (revision a' b' c', <[VERSION_KEY := revision a' b' c']> ls)
    /\ map Number (split 46 (revision a' b' c')) = [Int a'; Int b'; Int c']
    /\ revision a' b' c' <> v.
Proof.
  intros E.
  assert (Hb : (Z.abs a <= MAX_EXACT)%Z /\ (Z.abs b <= MAX_EXACT)%Z
               /\ (Z.abs c <= MAX_EXACT)%Z).
  { destruct (split 46 v) as [|x [|y [|z [|]]]]; try discriminate.
    cbn [map] in E. injection E as Ex Ey Ez.
    repeat split; eapply Number_bound; eassumption. }
  destruct Hb as (Ha & Hb & Hc).
  pose proof (carry_bound a b c Ha Hb Hc) as Hcb.
  pose proof (carry_moves a b c) as Hm.
  destruct (carry a b c) as [[a' b'] c'] eqn:Ec. destruct Hcb as (Ha' & Hb' & Hc').
  exists a', b', c'. split; [reflexivity|].
  pose proof (revision_parts a' b' c' Ha' Hb' Hc') as Ep.
  split; [|split; [exact Ep|]].
  - unfold incrementVersion. rewrite E.
    cbn [invalid_format length existsb isNaN Nat.eqb negb orb].
    now rewrite rollover_Int, Ec.
  - intros Ev. rewrite Ev, E in Ep. injection Ep as _ _ Ep. cbn [snd] in Hm. congruence.
Qed.

(** On the versions that the application gives itself, [incrementVersion]
    returns, and returns another version, whose parts are three
    integers. *)
Lemma incrementVersion_domain (ls : Storage) (v : jsstring) :
  reset_or_integers v ->
  exists v', incrementVersion ls v = Some (v', <[VERSION_KEY := v']> ls)
             /\ v' <> v
             /\ exists a b c, map Number (split 46 v') = [Int a; Int b; Int c].
Proof.
  intros [Hg | (a & b & c & E)].
  - exists (str "1.0.1"). unfold incrementVersion. rewrite Hg.
    split; [reflexivity|]. split.
    + intros <-. vm_compute in Hg. discriminate.
    + exists 1%Z, 0%Z, 1%Z. reflexivity.
  - destruct (incrementVersion_integers ls v a b c E) as (a' & b' & c' & _ & Hi & Ep & Hne).
    exists (revision a' b' c'). split; [exact Hi|]. split; [exact Hne|].
    now exists a', b', c'.
Qed.

(** X2: a version that [incrementVersion] returns, from a reset or
    from three integers of magnitude at most 2^53, passes the format
    guard: its parts are three such integers again, and
    [incrementVersion] takes it through the carry chain.  On revisions
    of integers, the reset to ["1.0.1"] can only happen to a version
    that did not come from [incrementVersion]. *)
Theorem incrementVersion_again (ls : Storage) (v : jsstring) :
  reset_or_integers v ->
  exists v',
    incrementVersion ls v = Some (v', <[VERSION_KEY := v']> ls)
    /\ invalid_format (map Number (split 46 v')) = false
    /\ forall ls2, exists v'' a b c,
         incrementVersion ls2 v' = Some (v'', <[VERSION_KEY := v'']> ls2)
         /\ map Number (split 46 v') = [Int a; Int b; Int c]
         /\ rollover (Int a) (Int b) (Int c) = Some v''.
Proof.
  intros Hd.
  destruct (incrementVersion_domain ls v Hd) as (v' & Hi & _ & a & b & c & E).
  exists v'. split; [exact Hi|]. split; [now rewrite E|].
  intros ls2. unfold incrementVersion. rewrite E. cbn [invalid_format length existsb isNaN
    Nat.eqb negb orb]. rewrite rollover_Int. cbn [mbind option_bind].
  eexists. exists a, b, c. split; [reflexivity|]. split; [reflexivity|].
  apply rollover_Int.
Qed.

Lemma incrementVersion_again_witness :
  exists v',
    incrementVersion ∅ (str "not-a-version") = Some (v', <[VERSION_KEY := v']> ∅)
    /\ invalid_format (map Number (split 46 v')) = false
    /\ forall ls2, exists v'' a b c,
         incrementVersion ls2 v' = Some (v'', <[VERSION_KEY := v'']> ls2)
         /\ map Number (split 46 v') = [Int a; Int b; Int c]
         /\ rollover (Int a) (Int b) (Int c) = Some v''.
Proof.
  apply (incrementVersion_again ∅ (str "not-a-version")).
  left. vm_compute. reflexivity.
Defined.

(** Outside those versions a returned version can fail the guard: the
    first part of ["1e-1.0.0"] is 0.1, the version returned is
    ["0.1.0.1"], of four parts, and the next call resets it. *)
Example incrementVersion_fraction_then_reset :
  fst <$> incrementVersion ∅ (str "1e-1.0.0") = Some (str "0.1.0.1")
  /\ invalid_format (map Number (split 46 (str "0.1.0.1"))) = true
  /\ fst <$> incrementVersion ∅ (str "0.1.0.1") = Some (str "1.0.1").
Proof. repeat split; vm_compute; reflexivity. Qed.

Lemma int_string_nat n : int_string (Z.of_N n) = dec n.
Proof. pose proof (ToString_nat n) as H. now injection H. Qed.

Lemma revision_nat a b c :
  revision (Z.of_N a) (Z.of_N b) (Z.of_N c) = version_string a b c.
Proof. unfold revision, version_string. now rewrite !int_string_nat. Qed.

(** The carry chain on three naturals below 2^53: the two lower
    components come out as digits, and the triple grows. *)
Lemma carry_nat (major minor patch : N) :
  (Z.of_N major < MAX_EXACT)%Z -> (Z.of_N minor < MAX_EXACT)%Z ->
  (Z.of_N patch < MAX_EXACT)%Z ->
  exists a b c,
    carry (Z.of_N major) (Z.of_N minor) (Z.of_N patch) = (Z.of_N a, Z.of_N b, Z.of_N c)
    /\ b <= 9 /\ c <= 9
    /\ (major < a \/ major = a /\ (minor < b \/ minor = b /\ patch < c)).
Proof.
  intros HM Hm Hp. unfold carry, succ_sat.
  destruct (Z.ltb_spec (Z.of_N patch) MAX_EXACT); [|lia].
  destruct (Z.ltb_spec (Z.of_N minor) MAX_EXACT); [|lia].
  destruct (Z.ltb_spec (Z.of_N major) MAX_EXACT); [|lia].
  destruct (Z.ltb_spec 9 (Z.of_N patch + 1)).
  - destruct (Z.ltb_spec 9 (Z.of_N minor + 1)).
    + exists (major + 1), 0, 0. rewrite N2Z.inj_add. split; [reflexivity | lia].
    + exists major, (minor + 1), 0. rewrite N2Z.inj_add. split; [reflexivity | lia].
  - destruct (Z.ltb_spec 9 (Z.of_N minor)).
    + exists (major + 1), 0, (patch + 1). rewrite !N2Z.inj_add. split; [reflexivity | lia].
    + exists major, minor, (patch + 1). rewrite N2Z.inj_add. split; [reflexivity | lia].
Qed.

(** X3: on a revision of three naturals below 2^53, whatever the size
    of its minor and patch components, [incrementVersion] returns a
    revision whose minor and patch components are digits, and which is
    greater than the given one in the order of revisions (major first,
    then minor, then patch). *)
Theorem incrementVersion_normalises (ls : Storage) (major minor patch : N) :
  (Z.of_N major < MAX_EXACT)%Z -> (Z.of_N minor < MAX_EXACT)%Z ->
  (Z.of_N patch < MAX_EXACT)%Z ->
  exists a b c,
    incrementVersion ls (version_string major minor patch)
    = Some (version_string a b c, <[VERSION_KEY := version_string a b c]> ls)
    /\ b <= 9 /\ c <= 9
    /\ (major < a \/ major = a /\ (minor < b \/ minor = b /\ patch < c)).
Proof.
  intros HM Hm Hp.
  destruct (carry_nat major minor patch HM Hm Hp) as (a & b & c & Hc & Hr).
  exists a, b, c. split; [|exact Hr].
  unfold incrementVersion. rewrite split_version. cbn [map].
  rewrite !Number_dec by lia.
  cbn [invalid_format length existsb isNaN Nat.eqb negb orb].
  rewrite rollover_Int, Hc, revision_nat. reflexivity.
Qed.

(** A patch component and a minor component that are not digits:
    ["1.0.15"] becomes ["1.1.0"], ["1.15.3"] becomes ["2.0.4"]. *)
Lemma incrementVersion_normalises_witness :
  exists a b c,
    incrementVersion ∅ (version_string 1 15 3)
    = Some (version_string a b c, <[VERSION_KEY := version_string a b c]> ∅)
    /\ b <= 9 /\ c <= 9
    /\ (1 < a \/ 1 = a /\ (15 < b \/ 15 = b /\ 3 < c)).
Proof. apply (incrementVersion_normalises ∅ 1 15 3); reflexivity. Defined.

Example incrementVersion_large_components :
  fst <$> incrementVersion ∅ (str "1.0.15") = Some (str "1.1.0")
  /\ fst <$> incrementVersion ∅ (str "1.15.3") = Some (str "2.0.4").
Proof. split; vm_compute; reflexivity. Qed.


(** ** The coordinator: adding and deleting *)

Lemma bump_version_current (st : AppState) : bump_version st = bump_version_of (version st) st.
Proof. reflexivity. Qed.

(** How a bump ends: it returns with the version [incrementVersion]
    gives, or the revision its render saw is not a string and it
    raises. *)
Lemma bump_version_of_cases (seen : json) (st : AppState) (e : ending) :
  bump_version_of seen st = Some e ->
  (exists v newVer,
     seen = JStr v
     /\ incrementVersion (localStorage st) v
        = Some (newVer, <[VERSION_KEY := newVer]> (localStorage st))
     /\ newVer <> []
     /\ e = Returns (setVersion (JStr newVer)
                       (setLocalStorage (<[VERSION_KEY := newVer]> (localStorage st)) st)))
  \/ ((forall v, seen <> JStr v) /\ e = Throws st).
Proof.
  unfold bump_version_of.
  destruct seen as [| | |v| |]; try (intros [= <-]; right; split; [discriminate | reflexivity]).
  destruct (incrementVersion (localStorage st) v) as [[newVer ls]|] eqn:E; [|discriminate].
  cbn [mbind option_bind]. intros [= <-].
  destruct (incrementVersion_Some _ _ _ _ E) as (-> & Hne).
  left. exists v, newVer. repeat split; assumption.
Qed.

(** On a revision that the application gives itself, a bump returns
    and the revision is another one, of the same kind. *)
Lemma bump_version_domain (v : jsstring) (st : AppState) :
  version st = JStr v -> reset_or_integers v ->
  exists newVer,
    bump_version st
    = Some (Returns (setVersion (JStr newVer)
                       (setLocalStorage (<[VERSION_KEY := newVer]> (localStorage st)) st)))
    /\ newVer <> v
    /\ reset_or_integers newVer.
Proof.
  intros Hv Hd.
  destruct (incrementVersion_domain (localStorage st) v Hd) as (newVer & Hi & Hne & Hint).
  exists newVer. unfold bump_version. rewrite Hv, Hi. cbn [mbind option_bind].
  split; [reflexivity|]. split; [exact Hne | now right].
Qed.

Lemma filter_templates_Some (id : jsstring) (prev kept : list json) :
  filter_templates id prev = Some kept ->
  Forall (fun t => t <> JNull) prev
  /\ kept = List.filter (fun t => negb (has_id id t)) prev.
Proof.
  revert kept. induction prev as [|t rest IH]; intros kept.
  - intros [= <-]. split; [constructor | reflexivity].
  - cbn [filter_templates List.filter].
    destruct (id_differs id t) as [keep|] eqn:Ed; [|discriminate].
    destruct (filter_templates id rest) as [k|]; [|discriminate].
    cbn [mbind option_bind]. intros [= <-].
    destruct (IH k eq_refl) as (Hn & ->).
    assert (Ht : t <> JNull) by (intros ->; discriminate).
    split; [now constructor|].
    unfold id_differs in Ed. destruct t; try congruence; injection Ed as <-; reflexivity.
Qed.

Lemma filter_no_null (f : json -> bool) (l : list json) :
  Forall (fun t => t <> JNull) l -> Forall (fun t => t <> JNull) (List.filter f l).
Proof.
  induction 1 as [|t l Ht _ IH]; [constructor|].
  cbn [List.filter]. destruct (f t); [now constructor | exact IH].
Qed.

Lemma filter_twice {A} (f : A -> bool) (l : list A) :
  List.filter f (List.filter f l) = List.filter f l.
Proof. apply filter_all_kept. intros x Hx. now apply filter_In in Hx. Qed.

(** An addition and a deletion on a revision that the application
    gives itself. *)
Lemma handleAddTemplate_domain (newTemplate : json) (v : jsstring) (st : AppState) :
  version st = JStr v -> reset_or_integers v ->
  exists newVer st',
    handleAddTemplate newTemplate st = Some (Returns st')
    /\ templates st' = newTemplate :: templates st
    /\ version st' = JStr newVer
    /\ newVer <> v
    /\ reset_or_integers newVer.
Proof.
  intros Hv Hd. unfold handleAddTemplate.
  destruct (bump_version_domain v (setTemplates (newTemplate :: templates st) st) Hv Hd)
    as (newVer & Hb & Hne & Hd').
  exists newVer. eexists. split; [exact Hb|]. repeat split; assumption.
Qed.

Lemma handleDeleteTemplate_domain (id v : jsstring) (st : AppState) :
  version st = JStr v -> reset_or_integers v ->
  Forall (fun t => t <> JNull) (templates st) ->
  exists newVer st',
    handleDeleteTemplate id st = Some (Returns st')
    /\ templates st' = List.filter (fun t => negb (has_id id t)) (templates st)
    /\ version st' = JStr newVer
    /\ newVer <> v
    /\ reset_or_integers newVer.
Proof.
  intros Hv Hd Hn. unfold handleDeleteTemplate.
  rewrite (filter_templates_spec id _ Hn).
  destruct (bump_version_domain v
              (setTemplates (List.filter (fun t => negb (has_id id t)) (templates st)) st)
              Hv Hd) as (newVer & Hb & Hne & Hd').
  exists newVer. eexists. split; [exact Hb|]. repeat split; assumption.
Qed.

(** X4: a bump changes every revision that the application gives
    itself.  On a version that is reset, and on one whose three parts
    are integers of magnitude at most 2^53 (also at that bound, where
    [x++] no longer changes a number), [incrementVersion] returns
    another version than the one it was given; so on such a revision
    [handleAddTemplate] returns, and [handleDeleteTemplate] on a
    collection without [null] returns, with a revision different from
    the one they found, whether or not the collection has changed.
    The restriction is needed: the versions ["1.0.-1e+300"] and
    ["1.0.-Infinity"], which an import can bring, are returned as they
    are. *)
Theorem revision_always_changes :
  (forall ls v, reset_or_integers v ->
     exists v', incrementVersion ls v = Some (v', <[VERSION_KEY := v']> ls) /\ v' <> v)
  /\ (forall newTemplate v st,
        version st = JStr v -> reset_or_integers v ->
        exists st', handleAddTemplate newTemplate st = Some (Returns st')
                    /\ version st' <> version st)
  /\ (forall id v st,
        version st = JStr v -> reset_or_integers v ->
        Forall (fun t => t <> JNull) (templates st) ->
        exists st', handleDeleteTemplate id st = Some (Returns st')
                    /\ version st' <> version st)
  /\ incrementVersion ∅ (str "1.0.-1e+300")
     = Some (str "1.0.-1e+300", <[VERSION_KEY := str "1.0.-1e+300"]> ∅)
  /\ incrementVersion ∅ (str "1.0.-Infinity")
     = Some (str "1.0.-Infinity", <[VERSION_KEY := str "1.0.-Infinity"]> ∅).
Proof.
  split; [|split; [|split; [|split]]].
  - intros ls v Hd.
    destruct (incrementVersion_domain ls v Hd) as (v' & Hi & Hne & _). eauto.
  - intros t v st Hv Hd.
    destruct (handleAddTemplate_domain t v st Hv Hd) as (newVer & st' & Ha & _ & Hv' & Hne & _).
    exists st'. split; [exact Ha|]. rewrite Hv, Hv'. congruence.
  - intros id v st Hv Hd Hn.
    destruct (handleDeleteTemplate_domain id v st Hv Hd Hn)
      as (newVer & st' & Ha & _ & Hv' & Hne & _).
    exists st'. split; [exact Ha|]. rewrite Hv, Hv'. congruence.
  - vm_compute. reflexivity.
  - vm_compute. reflexivity.
Qed.

(** At 2^53: the patch of ["1.0.9007199254740992"] does not change when
    one is added, and the carry gives ["1.1.0"]. *)
Lemma revision_always_changes_witness :
  (exists v', incrementVersion ∅ (str "1.0.9007199254740992")
              = Some (v', <[VERSION_KEY := v']> ∅)
              /\ v' <> str "1.0.9007199254740992")
  /\ (exists st', handleDeleteTemplate (str "zzz") sample_state = Some (Returns st')
                  /\ version st' <> version sample_state).
Proof.
  split.
  - apply (proj1 revision_always_changes ∅ (str "1.0.9007199254740992")).
    right. exists 1%Z, 0%Z, 9007199254740992%Z. vm_compute. reflexivity.
  - apply (proj1 (proj2 (proj2 revision_always_changes)) (str "zzz") (str "1.0.5")
             sample_state).
    + reflexivity.
    + right. exists 1%Z, 0%Z, 5%Z. vm_compute. reflexivity.
    + repeat (constructor; [discriminate|]). constructor.
Defined.

(** X5: deleting the same [id] a second time, from a collection
    without [null] and a revision that the application gives itself
    (one that is reset, or three integers of magnitude at most 2^53):
    both deletions return, the second leaves the collection as the
    first made it, and each of them changes the revision. *)
Theorem handleDeleteTemplate_again (id v : jsstring) (st : AppState) :
  version st = JStr v -> reset_or_integers v ->
  Forall (fun t => t <> JNull) (templates st) ->
  exists st1 st2,
    handleDeleteTemplate id st = Some (Returns st1)
    /\ handleDeleteTemplate id st1 = Some (Returns st2)
    /\ templates st1 = List.filter (fun t => negb (has_id id t)) (templates st)
    /\ templates st2 = templates st1
    /\ version st1 <> version st
    /\ version st2 <> version st1.
Proof.
  intros Hv Hd Hn.
  destruct (handleDeleteTemplate_domain id v st Hv Hd Hn)
    as (v1 & st1 & H1 & Ht1 & Hv1 & Hne1 & Hd1).
  assert (Hn1 : Forall (fun t => t <> JNull) (templates st1))
    by (rewrite Ht1; now apply filter_no_null).
  destruct (handleDeleteTemplate_domain id v1 st1 Hv1 Hd1 Hn1)
    as (v2 & st2 & H2 & Ht2 & Hv2 & Hne2 & _).
  exists st1, st2. split; [exact H1|]. split; [exact H2|]. split; [exact Ht1|].
  split; [|split].
  - now rewrite Ht2, Ht1, filter_twice.
  - rewrite Hv, Hv1. congruence.
  - rewrite Hv1, Hv2. congruence.
Qed.

Lemma handleDeleteTemplate_again_witness :
  exists st1 st2,
    handleDeleteTemplate (str "tpl-001") sample_state = Some (Returns st1)
    /\ handleDeleteTemplate (str "tpl-001") st1 = Some (Returns st2)
    /\ templates st1
       = List.filter (fun t => negb (has_id (str "tpl-001") t)) (templates sample_state)
    /\ templates st2 = templates st1
    /\ version st1 <> version sample_state
    /\ version st2 <> version st1.
Proof.
  apply (handleDeleteTemplate_again (str "tpl-001") (str "1.0.5") sample_state).
  - reflexivity.
  - right. exists 1%Z, 0%Z, 5%Z. vm_compute. reflexivity.
  - repeat (constructor; [discriminate|]). constructor.
Defined.

(** X6: deleting, by its [id], a template that has just been added,
    on a collection without [null] and a revision that the application
    gives itself (one that is reset, or three integers of magnitude at
    most 2^53): both calls return; the collection is as it was before
    the addition, less the templates that had the same [id]: the very
    collection when the [id] was new.  The revision has changed
    twice. *)
Theorem add_then_delete_restores (id v : jsstring) (newTemplate : json)
  (st : AppState) :
  version st = JStr v -> reset_or_integers v ->
  Forall (fun t => t <> JNull) (templates st) ->
  has_id id newTemplate = true ->
  exists st1 st2,
    handleAddTemplate newTemplate st = Some (Returns st1)
    /\ templates st1 = newTemplate :: templates st
    /\ version st1 <> version st
    /\ handleDeleteTemplate id st1 = Some (Returns st2)
    /\ templates st2 = List.filter (fun t => negb (has_id id t)) (templates st)
    /\ ((forall t, In t (templates st) -> has_id id t = false) ->
        templates st2 = templates st)
    /\ version st2 <> version st1.
Proof.
  intros Hv Hd Hn Hid.
  destruct (handleAddTemplate_domain newTemplate v st Hv Hd)
    as (v1 & st1 & H1 & Ht1 & Hv1 & Hne1 & Hd1).
  assert (Hnew : newTemplate <> JNull) by (intros ->; discriminate).
  assert (Hn1 : Forall (fun t => t <> JNull) (templates st1))
    by (rewrite Ht1; now constructor).
  destruct (handleDeleteTemplate_domain id v1 st1 Hv1 Hd1 Hn1)
    as (v2 & st2 & H2 & Ht2 & Hv2 & Hne2 & _).
  assert (Et : templates st2 = List.filter (fun t => negb (has_id id t)) (templates st)).
  { rewrite Ht2, Ht1. cbn [List.filter]. now rewrite Hid. }
  exists st1, st2. split; [exact H1|]. split; [exact Ht1|].
  split; [rewrite Hv, Hv1; congruence|]. split; [exact H2|]. split; [exact Et|].
  split.
  - intros Hfresh. rewrite Et. apply filter_all_kept.
    intros t Hin. now rewrite (Hfresh t Hin).
  - rewrite Hv1, Hv2. congruence.
Qed.

Lemma add_then_delete_restores_witness :
  exists st1 st2,
    handleAddTemplate other_template fresh_state = Some (Returns st1)
    /\ templates st1 = other_template :: templates fresh_state
    /\ version st1 <> version fresh_state
    /\ handleDeleteTemplate (str "tpl-002") st1 = Some (Returns st2)
    /\ templates st2
       = List.filter (fun t => negb (has_id (str "tpl-002") t)) (templates fresh_state)
    /\ ((forall t, In t (templates fresh_state) -> has_id (str "tpl-002") t = false) ->
        templates st2 = templates fresh_state)
    /\ version st2 <> version st1.
Proof.
  apply (add_then_delete_restores (str "tpl-002") (str "1.0.0") other_template fresh_state).
  - reflexivity.
  - right. exists 1%Z, 0%Z, 0%Z. vm_compute. reflexivity.
  - repeat (constructor; [discriminate|]). constructor.
  - reflexivity.
Defined.

(** Outside those revisions an addition and a deletion can return
    with the revision they found: the patch of ["1.0.-Infinity"] is not
    changed by adding one. *)
Example revision_kept_on_infinite_patch :
  exists st1 st2,
    handleAddTemplate other_template
      (setVersion (JStr (str "1.0.-Infinity")) fresh_state) = Some (Returns st1)
    /\ version st1 = JStr (str "1.0.-Infinity")
    /\ handleDeleteTemplate (str "tpl-002") st1 = Some (Returns st2)
    /\ version st2 = JStr (str "1.0.-Infinity")
    /\ templates st2 = templates fresh_state.
Proof.
  eexists. eexists. split; [vm_compute; reflexivity|]. split; [reflexivity|].
  split; [vm_compute; reflexivity|]. split; reflexivity.
Qed.


(** ** The remote store: saving, then fetching *)

Lemma saveCloudData_sends (LZString : LZStringLib) (net : network) (config : CloudConfig)
  (data : json) (updatedAt : jsstring) :
  saveCloudData LZString net config data updatedAt
  = (payload ← compressed_payload LZString data updatedAt;
     text ← JSON_stringify payload 0;
     Some (save_outcome (net (put_request config text)))).
Proof.
  unfold saveCloudData.
  destruct (compressed_payload LZString data updatedAt) as [payload|]; [|reflexivity].
  cbn [mbind option_bind].
  destruct (JSON_stringify payload 0) as [text|]; [|reflexivity].
  cbn [mbind option_bind]. unfold put_request, save_outcome.
  destruct (net _) as [|res]; [reflexivity|]. now destruct (negb (ok res)).
Qed.

Lemma fetchCloudData_respond_with (LZString : LZStringLib) (config : CloudConfig)
  (text : jsstring) (raw : json) :
  JSON_parse text = Some raw ->
  fetchCloudData LZString (respond_with text) config = parseResponse LZString raw.
Proof. intros H. unfold fetchCloudData, respond_with. cbn [ok negb body]. now rewrite H. Qed.

(** The payload [saveCloudData] builds for serializable data: its
    text parses back to it, and the normalizer finds the data in it,
    also when it comes under [record]. *)
Lemma saved_payload (LZString : LZStringLib) (data : json) (updatedAt : jsstring) :
  lz_roundtrip LZString -> serializable data ->
  exists payload text,
    compressed_payload LZString data updatedAt = Some payload
    /\ serializable payload
    /\ JSON_stringify payload 0 = Some text
    /\ JSON_parse text = Some payload
    /\ parseResponse LZString payload = Ok data
    /\ forall metadata, parseResponse LZString (jsonbin_body payload metadata) = Ok data.
Proof.
  intros Hlz Hd.
  destruct (decompress_compress LZString data Hlz Hd) as (c & Hc & Hdc).
  set (payload := JObj [(str "compressed", JBool true); (str "data", JStr c);
                        (str "updatedAt", JStr updatedAt)]).
  assert (Hp : compressed_payload LZString data updatedAt = Some payload)
    by (unfold compressed_payload; now rewrite Hc).
  assert (Hs : serializable payload).
  { unfold payload. cbn [serializable fold_right snd]. split; [reflexivity|].
    repeat split. }
  destruct (JSON_parse_stringify payload 0 Hs) as (text & Ht & Hparse).
  exists payload, text.
  split; [exact Hp|]. split; [exact Hs|]. split; [exact Ht|]. split; [exact Hparse|].
  split.
  - unfold parseResponse.
    change (unwrap_record payload) with payload.
    change (compressed_data payload) with (Some c). exact Hdc.
  - intros metadata. unfold parseResponse.
    change (unwrap_record (jsonbin_body payload metadata)) with payload.
    change (compressed_data payload) with (Some c). exact Hdc.
Qed.

(** X7: what [saveCloudData] sends can be fetched back.  For
    serializable data, and a library whose decompression undoes its
    compression, [saveCloudData] makes one PUT request, whose body is
    the text of the compressed payload; [fetchCloudData] returns the
    saved data from a store that answers with that text, and from one
    that answers, as JSONBin does, with the payload under [record]. *)
Theorem save_then_fetch (LZString : LZStringLib) (config config' : CloudConfig)
  (data : json) (updatedAt : jsstring) :
  lz_roundtrip LZString -> serializable data ->
  exists payload text,
    compressed_payload LZString data updatedAt = Some payload
    /\ JSON_stringify payload 0 = Some text
    /\ (forall net, saveCloudData LZString net config data updatedAt
                    = Some (save_outcome (net (put_request config text))))
    /\ fetchCloudData LZString (respond_with text) config' = Ok data
    /\ forall metadata, serializable metadata ->
         exists text', JSON_stringify (jsonbin_body payload metadata) 0 = Some text'
                       /\ fetchCloudData LZString (respond_with text') config' = Ok data.
Proof.
  intros Hlz Hd.
  destruct (saved_payload LZString data updatedAt Hlz Hd)
    as (payload & text & Hp & Hs & Ht & Hparse & Hr & Hb).
  exists payload, text. split; [exact Hp|]. split; [exact Ht|]. split; [|split].
  - intros net. rewrite saveCloudData_sends, Hp. cbn [mbind option_bind].
    now rewrite Ht.
  - now rewrite (fetchCloudData_respond_with LZString config' text payload Hparse).
  - intros metadata Hm.
    assert (Hs' : serializable (jsonbin_body payload metadata)).
    { unfold jsonbin_body. cbn [serializable fold_right snd].
      split; [reflexivity|]. split; [exact Hs|]. split; [exact Hm | exact I]. }
    destruct (JSON_parse_stringify _ 0 Hs') as (text' & Ht' & Hparse').
    exists text'. split; [exact Ht'|].
    rewrite (fetchCloudData_respond_with LZString config' text' _ Hparse').
    apply Hb.
Qed.

Lemma save_then_fetch_witness :
  exists payload text,
    compressed_payload plain_codec sample_cloud_data (str "2023-11-14T22:13:20.500Z")
    = Some payload
    /\ JSON_stringify payload 0 = Some text
    /\ (forall net, saveCloudData plain_codec net sample_config sample_cloud_data
                      (str "2023-11-14T22:13:20.500Z")
                    = Some (save_outcome (net (put_request sample_config text))))
    /\ fetchCloudData plain_codec (respond_with text) sample_config = Ok sample_cloud_data
    /\ forall metadata, serializable metadata ->
         exists text', JSON_stringify (jsonbin_body payload metadata) 0 = Some text'
                       /\ fetchCloudData plain_codec (respond_with text') sample_config
                          = Ok sample_cloud_data.
Proof.
  apply (save_then_fetch plain_codec sample_config sample_config sample_cloud_data).
  - exact plain_codec_roundtrip.
  - exact sample_cloud_data_serializable.
Defined.


(** ** The coordinator: a sync cycle *)

Lemma CloudData_serializable (v : json) (ts : list json) (now : Z) :
  serializable v -> Forall serializable ts -> (Z.abs now <= MAX_EXACT)%Z ->
  serializable (CloudData v ts now).
Proof.
  intros Hv Ht Hn. unfold CloudData. cbn [serializable fold_right snd].
  split; [reflexivity|]. split; [exact Hv|]. split; [|split; [exact Hn | exact I]].
  now apply Forall_fold_serializable.
Qed.

(** X8: what one device saves, another fetches.  A save from a state
    with a serializable collection and revision makes one PUT request
    and, when the store accepts it, only records the time of the sync;
    a fetch by any other state with an endpoint, from a store that
    answers with the body of that request, ends with the collection of
    the saving state, and with its revision when that is truthy. *)
Theorem sync_between_devices (LZString : LZStringLib) (date date' : Date)
  (stA stB : AppState) :
  lz_roundtrip LZString ->
  endpoint_set stA = true -> endpoint_set stB = true ->
  Forall serializable (templates stA) -> serializable (version stA) ->
  (Z.abs (Date_now date) <= MAX_EXACT)%Z ->
  exists text,
    (forall net,
       handleCloudSync LZString net false date stA
       = Some (setIsSyncing false
                 match save_outcome (net (put_request (cloudConfig stA) text)) with
                 | Ok _ => setLastSyncTime (toLocaleTimeString date) stA
                 | Err _ => stA
                 end))
    /\ exists stB',
         handleCloudSync LZString (respond_with text) true date' stB = Some stB'
         /\ templates stB' = templates stA
         /\ version stB' = (if truthy (version stA) then version stA else version stB)
         /\ lastSyncTime stB' = toLocaleTimeString date'
         /\ isSyncing stB' = false.
Proof.
  intros Hlz HeA HeB Ht Hv Hn.
  set (data := CloudData (version stA) (templates stA) (Date_now date)).
  assert (Hd : serializable data) by now apply CloudData_serializable.
  destruct (saved_payload LZString data (toISOString date) Hlz Hd)
    as (payload & text & Hp & _ & Hs & Hparse & Hr & _).
  assert (Hsave : forall net,
            saveCloudData LZString net (cloudConfig stA) data (toISOString date)
            = Some (save_outcome (net (put_request (cloudConfig stA) text)))).
  { intros net. rewrite saveCloudData_sends, Hp. cbn [mbind option_bind].
    now rewrite Hs. }
  assert (Hfetch : fetchCloudData LZString (respond_with text) (cloudConfig stB) = Ok data)
    by now rewrite (fetchCloudData_respond_with LZString _ text payload Hparse).
  exists text. split.
  - intros net. unfold handleCloudSync, sync_body. rewrite HeA.
    change (cloudConfig (setIsSyncing true stA)) with (cloudConfig stA).
    change (version (setIsSyncing true stA)) with (version stA).
    change (templates (setIsSyncing true stA)) with (templates stA).
    fold data. rewrite (Hsave net). cbn [mbind option_bind].
    now destruct (save_outcome _).
  - unfold handleCloudSync, sync_body. rewrite HeB.
    change (cloudConfig (setIsSyncing true stB)) with (cloudConfig stB).
    rewrite Hfetch.
    change (truthy data) with true. cbv iota.
    change (get data (str "templates")) with (Some (JArr (templates stA))).
    change (get data (str "version")) with (Some (version stA)).
    cbn [mbind option_bind]. eexists. split; [reflexivity|].
    destruct (truthy (version stA)); repeat split.
Qed.

Lemma sync_between_devices_witness :
  exists text,
    (forall net,
       handleCloudSync plain_codec net false sample_date sample_state
       = Some (setIsSyncing false
                 match save_outcome (net (put_request (cloudConfig sample_state) text)) with
                 | Ok _ => setLastSyncTime (toLocaleTimeString sample_date) sample_state
                 | Err _ => sample_state
                 end))
    /\ exists stB',
         handleCloudSync plain_codec (respond_with text) true sample_date fresh_state
         = Some stB'
         /\ templates stB' = templates sample_state
         /\ version stB' = (if truthy (version sample_state) then version sample_state
                            else version fresh_state)
         /\ lastSyncTime stB' = toLocaleTimeString sample_date
         /\ isSyncing stB' = false.
Proof.
  apply (sync_between_devices plain_codec sample_date sample_date sample_state fresh_state).
  - exact plain_codec_roundtrip.
  - reflexivity.
  - reflexivity.
  - exact sample_collection_serializable.
  - exact I.
  - vm_compute. discriminate.
Defined.

Lemma sync_body_frame (LZString : LZStringLib) (net : network)
  (fetchOnly : bool) (date : Date) (st st' : AppState) :
  sync_body LZString net fetchOnly date st = Some st' ->
  cloudConfig st' = cloudConfig st
  /\ localStorage st' = localStorage st
  /\ saveTimer st' = saveTimer st
  /\ isSyncing st' = isSyncing st
  /\ (fetchOnly = false -> templates st' = templates st /\ version st' = version st)
  /\ (forall data, fetchOnly = true ->
        fetchCloudData LZString net (cloudConfig st) = Ok data ->
        isArray (get data (str "templates")) = false ->
        templates st' = templates st /\ version st' = version st
        /\ lastSyncTime st' = lastSyncTime st).
Proof.
  unfold sync_body. destruct fetchOnly.
  - destruct (fetchCloudData LZString net (cloudConfig st)) as [data|e] eqn:Ef.
    + destruct (truthy data) eqn:Et.
      * destruct (get data (str "templates")) as [ts|] eqn:Eg.
        -- destruct ts as [| | | |ts|]; intros [= <-];
             try (repeat split; try discriminate; intros; reflexivity).
           assert (Hv : forall s : AppState,
                     let s' := match get data (str "version") with
                               | Some v => if truthy v then setVersion v s else s
                               | None => s
                               end in
                     cloudConfig s' = cloudConfig s /\ localStorage s' = localStorage s
                     /\ saveTimer s' = saveTimer s /\ isSyncing s' = isSyncing s).
           { intros s. destruct (get data (str "version")) as [v|]; [destruct (truthy v)|];
               repeat split. }
           destruct (Hv (setTemplates ts st)) as (H1 & H2 & H3 & H4).
           cbn [cloudConfig localStorage saveTimer isSyncing setLastSyncTime].
           split; [exact H1|]. split; [exact H2|]. split; [exact H3|]. split; [exact H4|].
           split; [discriminate|].
           intros data' _ [= <-] Ha. rewrite Eg in Ha. discriminate.
        -- intros [= <-]. repeat split; try discriminate; intros; reflexivity.
      * intros [= <-]. repeat split; try discriminate; intros; reflexivity.
    + intros [= <-]. repeat split; try discriminate; intros; reflexivity.
  - destruct (saveCloudData _ _ _ _ _) as [[[]|e]|]; cbn [mbind option_bind];
      [| |discriminate]; intros [= <-]; repeat split; discriminate.
Qed.

(** X9: what a sync never does.  [handleCloudSync] leaves the
    configuration, local storage and the pending save timer as they
    are; without an endpoint it leaves the whole state as it is,
    whatever the network would answer; with one, it ends with the
    syncing flag lowered; a save leaves the collection and the revision
    as they are; and a fetch whose data has no array of templates
    leaves the collection, the revision and the time of the last sync
    as they are, also when the data has a version. *)
Theorem handleCloudSync_frame (LZString : LZStringLib) (net : network)
  (fetchOnly : bool) (date : Date) (st st' : AppState) :
  handleCloudSync LZString net fetchOnly date st = Some st' ->
  cloudConfig st' = cloudConfig st
  /\ localStorage st' = localStorage st
  /\ saveTimer st' = saveTimer st
  /\ (endpoint_set st = false -> st' = st)
  /\ (endpoint_set st = true -> isSyncing st' = false)
  /\ (fetchOnly = false -> templates st' = templates st /\ version st' = version st)
  /\ (forall data, fetchOnly = true ->
        fetchCloudData LZString net (cloudConfig st) = Ok data ->
        isArray (get data (str "templates")) = false ->
        templates st' = templates st /\ version st' = version st
        /\ lastSyncTime st' = lastSyncTime st).
Proof.
  unfold handleCloudSync. destruct (endpoint_set st) eqn:He.
  2:{ intros [= <-]. repeat split; try discriminate; intros; reflexivity. }
  destruct (sync_body _ _ _ _ _) as [s|] eqn:Eb; [|discriminate].
  cbn [mbind option_bind]. intros [= <-].
  destruct (sync_body_frame _ _ _ _ _ _ Eb) as (H1 & H2 & H3 & _ & H5 & H6).
  split; [exact H1|]. split; [exact H2|]. split; [exact H3|].
  split; [discriminate|]. split; [reflexivity|]. split; [exact H5|].
  intros data Hf Hd Ha. exact (H6 data Hf Hd Ha).
Qed.

(** A store that answers with status 200 and the body [{}]: the state
    is kept. *)
Lemma handleCloudSync_frame_witness :
  cloudConfig (setIsSyncing false sample_state) = cloudConfig sample_state
  /\ localStorage (setIsSyncing false sample_state) = localStorage sample_state
  /\ saveTimer (setIsSyncing false sample_state) = saveTimer sample_state
  /\ (endpoint_set sample_state = false -> setIsSyncing false sample_state = sample_state)
  /\ (endpoint_set sample_state = true -> isSyncing (setIsSyncing false sample_state) = false)
  /\ (true = false ->
      templates (setIsSyncing false sample_state) = templates sample_state
      /\ version (setIsSyncing false sample_state) = version sample_state)
  /\ (forall data, true = true ->
        fetchCloudData plain_codec (respond_with (str "{}")) (cloudConfig sample_state)
        = Ok data ->
        isArray (get data (str "templates")) = false ->
        templates (setIsSyncing false sample_state) = templates sample_state
        /\ version (setIsSyncing false sample_state) = version sample_state
        /\ lastSyncTime (setIsSyncing false sample_state) = lastSyncTime sample_state).
Proof.
  apply (handleCloudSync_frame plain_codec (respond_with (str "{}")) true sample_date
           sample_state).
  vm_compute. reflexivity.
Defined.


(** ** The coordinator: backup and restore *)

Lemma parseImportData_accepts (text : jsstring) (data : json) (ts : list json) (v : json) :
  JSON_parse text = Some data ->
  get data (str "templates") = Some (JArr ts) ->
  get data (str "version") = Some v -> truthy v = true ->
  parseImportData (ReadText text) = Ok (ts, v).
Proof.
  intros Hp Ht Hv Hy. unfold parseImportData. rewrite Hp, Ht, Hv.
  cbn [truthy_opt truthy isArray negb orb]. rewrite Hy. cbn [negb].
  destruct data; try reflexivity; discriminate.
Qed.

Lemma exportData_text (ts : list json) (v : jsstring) (now : Z) :
  Forall serializable ts -> (Z.abs now <= MAX_EXACT)%Z ->
  exists f, exportData ts v now = Some f
            /\ JSON_parse (content f)
               = Some (JObj [(str "version", JStr v); (str "templates", JArr ts);
                             (str "exportedAt", JNum (Int now))]).
Proof.
  intros Ht Hn.
  set (data := JObj [(str "version", JStr v); (str "templates", JArr ts);
                     (str "exportedAt", JNum (Int now))]).
  assert (Hs : serializable data).
  { unfold data. cbn [serializable fold_right snd]. split; [reflexivity|].
    repeat split; [|exact Hn]. now apply Forall_fold_serializable. }
  destruct (JSON_parse_stringify data 2 Hs) as (text & Hst & Hp).
  unfold exportData. fold data. rewrite Hst. cbn [mbind option_bind].
  eexists. split; [reflexivity | exact Hp].
Qed.

(** X10: restoring a backup brings back the state it was exported
    from.  From a state whose revision is a string that is not empty
    and whose collection is serializable, [handleExport] produces a
    file; [handleFileChange] on that file, in any state and once the
    user confirms, succeeds and sets the collection and the revision to
    those of the exporting state; when the user declines, the state
    stays as it is and nothing is reported. *)
Theorem backup_restore (now : Z) (v : jsstring) (st other : AppState) :
  version st = JStr v -> v <> [] ->
  Forall serializable (templates st) -> (Z.abs now <= MAX_EXACT)%Z ->
  exists f,
    handleExport now st = Some f
    /\ handleFileChange (Some (ReadText (content f))) true other
       = (setVersion (version st) (setTemplates (templates st) other),
          Some RestoreSucceeded)
    /\ handleFileChange (Some (ReadText (content f))) false other = (other, None).
Proof.
  intros Hv Hne Ht Hn.
  destruct (exportData_text (templates st) v now Ht Hn) as (f & He & Hp).
  exists f. unfold handleExport. rewrite Hv. split; [exact He|].
  assert (Hi : parseImportData (ReadText (content f)) = Ok (templates st, JStr v)).
  { apply (parseImportData_accepts _ _ _ _ Hp); [reflexivity | reflexivity |].
    destruct v; [congruence | reflexivity]. }
  unfold handleFileChange. rewrite Hi. split; reflexivity.
Qed.

Lemma backup_restore_witness :
  exists f,
    handleExport 1700000000500 sample_state = Some f
    /\ handleFileChange (Some (ReadText (content f))) true fresh_state
       = (setVersion (version sample_state)
            (setTemplates (templates sample_state) fresh_state),
          Some RestoreSucceeded)
    /\ handleFileChange (Some (ReadText (content f))) false fresh_state
       = (fresh_state, None).
Proof.
  apply (backup_restore 1700000000500 (str "1.0.5") sample_state fresh_state).
  - reflexivity.
  - discriminate.
  - exact sample_collection_serializable.
  - vm_compute. discriminate.
Defined.

(** X11: a backup whose version is truthy and not a string is
    accepted, and leaves a revision on which every addition and every
    deletion raises.  [parseImportData] checks the version for
    truthiness only; once [handleFileChange] has stored it as the
    revision, [incrementVersion] is called on a value that has no
    [split]: in every state with that revision, [handleAddTemplate] and
    [handleDeleteTemplate] end with a TypeError after the update of the
    collection has been queued, so that the template is added, or the
    templates are removed, while the revision and the store stay as
    they are; the state after is again one with that revision. *)
Theorem restore_non_string_revision (text : jsstring) (data : json)
  (ts : list json) (v : json) (st : AppState) :
  JSON_parse text = Some data ->
  get data (str "templates") = Some (JArr ts) ->
  get data (str "version") = Some v -> truthy v = true ->
  (forall s, v <> JStr s) ->
  handleFileChange (Some (ReadText text)) true st
  = (setVersion v (setTemplates ts st), Some RestoreSucceeded)
  /\ forall s : AppState,
       version s = v ->
       (forall newTemplate,
          handleAddTemplate newTemplate s
          = Some (Throws (setTemplates (newTemplate :: templates s) s))
          /\ version (setTemplates (newTemplate :: templates s) s) = v)
       /\ (forall id,
             Forall (fun t => t <> JNull) (templates s) ->
             let kept := List.filter (fun t => negb (has_id id t)) (templates s) in
             handleDeleteTemplate id s = Some (Throws (setTemplates kept s))
             /\ version (setTemplates kept s) = v).
Proof.
  intros Hp Ht Hv Hy Hs.
  assert (Hb : forall s : AppState, version s = v -> bump_version s = Some (Throws s)).
  { intros s E. unfold bump_version. rewrite E.
    destruct v; try reflexivity. now destruct (Hs s0). }
  split.
  - unfold handleFileChange. now rewrite (parseImportData_accepts _ _ _ _ Hp Ht Hv Hy).
  - intros s Es. split.
    + intros t. split; [|exact Es]. unfold handleAddTemplate. now apply Hb.
    + intros id Hn. cbv zeta. split; [|exact Es]. unfold handleDeleteTemplate.
      rewrite (filter_templates_spec id _ Hn). now apply Hb.
Qed.

(** The backup [{templates: [], version: 2}]. *)
Lemma restore_non_string_revision_witness :
  handleFileChange
    (Some (ReadText (serialize 0 0 (JObj [(str "templates", JArr []);
                                          (str "version", JNum (Int 2))]))))
    true sample_state
  = (setVersion (JNum (Int 2)) (setTemplates [] sample_state), Some RestoreSucceeded)
  /\ forall s : AppState,
       version s = JNum (Int 2) ->
       (forall newTemplate,
          handleAddTemplate newTemplate s
          = Some (Throws (setTemplates (newTemplate :: templates s) s))
          /\ version (setTemplates (newTemplate :: templates s) s) = JNum (Int 2))
       /\ (forall id,
             Forall (fun t => t <> JNull) (templates s) ->
             let kept := List.filter (fun t => negb (has_id id t)) (templates s) in
             handleDeleteTemplate id s = Some (Throws (setTemplates kept s))
             /\ version (setTemplates kept s) = JNum (Int 2)).
Proof.
  apply (restore_non_string_revision _
           (JObj [(str "templates", JArr []); (str "version", JNum (Int 2))])).
  - vm_compute. reflexivity.
  - reflexivity.
  - reflexivity.
  - reflexivity.
  - discriminate.
Defined.

(** After that backup, two additions: both raise, both templates are in
    the collection, the revision is still 2 and the store is as it
    was. *)
Example additions_after_non_string_revision :
  let s0 := setVersion (JNum (Int 2)) (setTemplates [] sample_state) in
  exists s1 s2,
    handleAddTemplate other_template s0 = Some (Throws s1)
    /\ handleAddTemplate (Template_to_json sample_template) s1 = Some (Throws s2)
    /\ templates s2 = [Template_to_json sample_template; other_template]
    /\ version s2 = JNum (Int 2)
    /\ localStorage s2 = localStorage sample_state.
Proof. cbv zeta. eexists. eexists. repeat split. Qed.


(** ** The coordinator: local persistence *)

Lemma JSON_stringify_nonempty (v : json) (space : nat) (text : jsstring) :
  JSON_stringify v space = Some text -> text <> [].
Proof.
  unfold JSON_stringify. destruct (tracked v); [|discriminate].
  intros [= <-]. apply serialize_nonempty.
Qed.

Lemma storage_keys_distinct :
  CLOUD_CONFIG_KEY <> TEMPLATES_KEY /\ CLOUD_CONFIG_KEY <> VERSION_KEY
  /\ VERSION_KEY <> TEMPLATES_KEY.
Proof. repeat split; intros E; vm_compute in E; discriminate. Qed.

Lemma CloudConfig_json_roundtrip (c : CloudConfig) :
  serializable (CloudConfig_to_json c)
  /\ CloudConfig_of_json (CloudConfig_to_json c) = Some c.
Proof.
  split.
  - unfold CloudConfig_to_json. cbn [serializable fold_right snd].
    split; [reflexivity | repeat split].
  - now destruct c.
Qed.

(** X12: the state survives a reload of the page.  Once the two
    persistence effects have run on a state whose collection is
    serializable and whose revision is a string that is not empty, and
    the settings have been saved, the state that a new page starts in
    has the same collection (the initial templates are not brought
    back, also when the collection is empty), the same revision and the
    saved configuration. *)
Theorem reload_restores (INITIAL_TEMPLATES : list json) (newConfig : CloudConfig)
  (v : jsstring) (st : AppState) :
  version st = JStr v -> v <> [] -> Forall serializable (templates st) ->
  exists st1 st2 st3 st',
    persistTemplatesEffect st = Some st1
    /\ persistVersionEffect st1 = Some st2
    /\ saveSettings newConfig st2 = Some st3
    /\ initialState INITIAL_TEMPLATES (localStorage st3) = Some st'
    /\ templates st' = templates st
    /\ version st' = version st
    /\ cloudConfig st' = newConfig.
Proof.
  intros Hv Hne Ht.
  assert (Hs : serializable (JArr (templates st)))
    by now apply Forall_fold_serializable.
  destruct (JSON_parse_stringify _ 0 Hs) as (text & Hst & Hp).
  destruct (CloudConfig_json_roundtrip newConfig) as (Hc & Hof).
  destruct (JSON_parse_stringify _ 0 Hc) as (ctext & Hcst & Hcp).
  destruct storage_keys_distinct as (K1 & K2 & K3).
  unfold persistTemplatesEffect. rewrite Hst. cbn [mbind option_bind].
  eexists. eexists. eexists. eexists. split; [reflexivity|].
  unfold persistVersionEffect. cbn [version setLocalStorage]. rewrite Hv.
  split; [reflexivity|].
  unfold saveSettings. rewrite Hcst. cbn [mbind option_bind].
  split; [reflexivity|].
  cbn [localStorage setLocalStorage setCloudConfig].
  change (str "legal_app_version") with VERSION_KEY.
  unfold initialState, initialCloudConfig, initialTemplates, getStoredVersion.
  rewrite lookup_insert_eq.
  rewrite (lookup_insert_ne _ CLOUD_CONFIG_KEY TEMPLATES_KEY) by exact K1.
  rewrite (lookup_insert_ne _ VERSION_KEY TEMPLATES_KEY) by exact K3.
  rewrite lookup_insert_eq.
  rewrite (lookup_insert_ne _ CLOUD_CONFIG_KEY VERSION_KEY) by exact K2.
  rewrite lookup_insert_eq.
  pose proof (JSON_stringify_nonempty _ _ _ Hst) as Hn1.
  pose proof (JSON_stringify_nonempty _ _ _ Hcst) as Hn2.
  destruct ctext as [|c1 ctext]; [congruence|].
  destruct text as [|c2 text]; [congruence|].
  rewrite Hcp, Hp. cbn [mbind option_bind]. rewrite Hof. cbn [mbind option_bind].
  split; [reflexivity|].
  cbn [templates version cloudConfig]. split; [reflexivity|].
  split; [|reflexivity]. destruct v; [congruence | reflexivity].
Qed.

Lemma reload_restores_witness :
  exists st1 st2 st3 st',
    persistTemplatesEffect (setTemplates [] sample_state) = Some st1
    /\ persistVersionEffect st1 = Some st2
    /\ saveSettings sample_config st2 = Some st3
    /\ initialState sample_collection (localStorage st3) = Some st'
    /\ templates st' = templates (setTemplates [] sample_state)
    /\ version st' = version (setTemplates [] sample_state)
    /\ cloudConfig st' = sample_config.
Proof.
  apply (reload_restores sample_collection sample_config (str "1.0.5")
           (setTemplates [] sample_state)).
  - reflexivity.
  - discriminate.
  - constructor.
Defined.

(** ** The coordinator: an invariant of the revision *)

Lemma getStoredVersion_nonempty (ls : Storage) : getStoredVersion ls <> [].
Proof.
  unfold getStoredVersion. destruct (ls !! VERSION_KEY) as [[|c v]|]; discriminate.
Qed.

Lemma parseImportData_Ok (file : file_read) (ts : list json) (v : json) :
  parseImportData file = Ok (ts, v) -> truthy v = true.
Proof.
  unfold parseImportData. destruct file as [text|]; [|discriminate].
  destruct (JSON_parse text) as [data|]; [|discriminate].
  assert (H : (if negb (truthy_opt (get data (str "templates")))
                  || negb (isArray (get data (str "templates")))
                  || negb (truthy_opt (get data (str "version")))
               then Err InvalidFileError
               else match get data (str "templates"), get data (str "version") with
                    | Some (JArr templates), Some version => Ok (templates, version)
                    | _, _ => Err InvalidFileError
                    end) = Ok (ts, v) -> truthy v = true).
  { destruct (get data (str "version")) as [w|]; cbn [truthy_opt].
    - destruct (truthy w) eqn:Ew; cbn [negb]; rewrite ?orb_true_r, ?orb_false_r.
      + destruct (_ || _); [discriminate|].
        destruct (get data (str "templates")) as [[]|]; try discriminate.
        now intros [= _ <-].
      + discriminate.
    - rewrite orb_true_r. discriminate. }
  destruct data; try exact H. discriminate.
Qed.

Lemma run_keeps_revision_truthy (LZString : LZStringLib) (e : event) (st st' : AppState) :
  truthy (version st) = true -> run LZString e st = Some st' ->
  truthy (version st') = true.
Proof.
  intros Hy. destruct e as [seen t|seen id|net fetchOnly date|file confirmed|c| | |];
    cbn [run].
  - unfold handleAddTemplate_of.
    destruct (bump_version_of _ _) as [e|] eqn:Eb; [|discriminate].
    cbn [mbind option_bind].
    destruct (bump_version_of_cases _ _ _ Eb)
      as [(v & newVer & _ & _ & Hne & ->) | (_ & ->)]; intros [= <-].
    + cbn [version setVersion truthy]. now destruct newVer.
    + exact Hy.
  - unfold handleDeleteTemplate_of.
    destruct (filter_templates id (templates st)).
    + destruct (bump_version_of _ _) as [e|] eqn:Eb; [|discriminate].
      cbn [mbind option_bind].
      destruct (bump_version_of_cases _ _ _ Eb)
        as [(v & newVer & _ & _ & Hne & ->) | (_ & ->)]; intros [= <-].
      * cbn [version setVersion truthy]. now destruct newVer.
      * exact Hy.
    + destruct (bump_version_of _ _); discriminate.
  - unfold handleCloudSync. destruct (endpoint_set st); [|now intros [= <-]].
    unfold sync_body. destruct fetchOnly.
    + destruct (fetchCloudData _ _ _) as [data|err]; [|now intros [= <-]].
      destruct (if truthy data then get data (str "templates") else None)
        as [[| | | |ts|]|]; cbn [mbind option_bind]; intros [= <-]; try exact Hy.
      destruct (get data (str "version")) as [w|]; [|exact Hy].
      destruct (truthy w) eqn:Ew; [exact Ew | exact Hy].
    + destruct (saveCloudData _ _ _ _ _) as [[[]|err]|]; cbn [mbind option_bind];
        [| |discriminate]; now intros [= <-].
  - intros [= <-]. unfold handleFileChange. destruct file as [f|]; [|exact Hy].
    destruct (parseImportData f) as [[ts w]|err] eqn:Ei; [|exact Hy].
    destruct confirmed; [|exact Hy]. exact (parseImportData_Ok _ _ _ Ei).
  - unfold saveSettings. destruct (JSON_stringify _ 0); [|discriminate].
    now intros [= <-].
  - unfold persistTemplatesEffect. destruct (JSON_stringify _ 0); [|discriminate].
    now intros [= <-].
  - unfold persistVersionEffect. destruct (version st) eqn:E; try discriminate.
    intros [= <-]. cbn [version setLocalStorage]. now rewrite E.
  - now intros [= <-].
Qed.

(** X13: the revision is never falsy.  In every state that a run of
    the application reaches from its first render (additions and
    deletions by handlers of any render, syncs, imports, settings, the
    effects, as far as the model follows them), the revision is a
    truthy value, and so never the empty string: the value that
    [handleCloudSync] and [parseImportData] refuse to take as a
    version is never the revision of the application itself. *)
Theorem revision_never_falsy (LZString : LZStringLib) (INITIAL_TEMPLATES : list json)
  (ls : Storage) (es : list event) (st0 st : AppState) :
  initialState INITIAL_TEMPLATES ls = Some st0 ->
  run_all LZString es st0 = Some st ->
  truthy (version st) = true /\ version st <> JStr [].
Proof.
  intros H0 Hr.
  assert (Hy : truthy (version st0) = true).
  { unfold initialState in H0.
    destruct (initialCloudConfig ls); [|discriminate].
    destruct (initialTemplates _ ls); [|discriminate].
    injection H0 as <-. cbn [version truthy].
    pose proof (getStoredVersion_nonempty ls). now destruct (getStoredVersion ls). }
  assert (H : truthy (version st) = true).
  { clear H0. revert st0 Hy Hr. induction es as [|e es IH]; intros st0 Hy.
    - now intros [= <-].
    - cbn [run_all]. destruct (run LZString e st0) as [s|] eqn:E; [|discriminate].
      cbn [mbind option_bind]. apply IH.
      exact (run_keeps_revision_truthy LZString e st0 s Hy E). }
  split; [exact H|]. intros E. now rewrite E in H.
Qed.

Lemma revision_never_falsy_witness :
  exists st0 st,
    initialState sample_collection ∅ = Some st0
    /\ run_all plain_codec
         [AddTemplate (JStr (str "1.0.0")) other_template;
          CloudSync (respond_with empty_revision_body) true sample_date;
          FileChange (Some (ReadText (str "null"))) true;
          DeleteTemplate (JStr (str "1.0.1")) (str "tpl-002");
          AutoSave] st0 = Some st
    /\ truthy (version st) = true /\ version st <> JStr [].
Proof.
  eexists. eexists. split; [vm_compute; reflexivity|].
  split; [vm_compute; reflexivity|].
  apply (revision_never_falsy plain_codec sample_collection ∅
           [AddTemplate (JStr (str "1.0.0")) other_template;
            CloudSync (respond_with empty_revision_body) true sample_date;
            FileChange (Some (ReadText (str "null"))) true;
            DeleteTemplate (JStr (str "1.0.1")) (str "tpl-002");
            AutoSave]
           {| templates := sample_collection; version := JStr (str "1.0.0");
              cloudConfig := {| endpoint := []; apiKey := [] |}; isSyncing := false;
              lastSyncTime := []; localStorage := ∅; saveTimer := None |}).
  - vm_compute. reflexivity.
  - vm_compute. reflexivity.
Defined.


(** ** The template manager *)

Lemma get_serializable (v : json) (k : jsstring) (x : json) :
  serializable v -> get v k = Some x -> serializable x.
Proof.
  destruct v as [| | | | |members]; try discriminate. cbn [serializable get].
  intros (_ & H). induction members as [|[k' y] r IH]; [discriminate|].
  cbn [assoc fold_right snd] in *. destruct H as (Hy & Hr).
  destruct (jsstring_eqb k k'); [now intros [= <-] | now apply IH].
Qed.

Lemma or_else_serializable (x : option json) (d : json) :
  (forall v, x = Some v -> serializable v) -> serializable d ->
  serializable (or_else x d).
Proof.
  intros Hx Hd. unfold or_else. destruct x as [v|]; [|exact Hd].
  destruct (truthy v); [now apply Hx | exact Hd].
Qed.

Lemma or_else_truthy (x : option json) (d : json) :
  truthy d = true -> truthy (or_else x d) = true.
Proof.
  intros Hd. unfold or_else. destruct x as [v|]; [|exact Hd].
  now destruct (truthy v) eqn:E.
Qed.

(** X14: every template the manager builds is well formed, whatever
    the analysis returned: it has the generated [id], so that
    [handleDeleteTemplate] finds it by that [id]; its name, its
    category and its description are truthy; and when the result of the
    analysis is serializable and the clock is an integer of magnitude
    at most 2^53, the template is serializable, so that it goes through
    the export, the local store and the remote store unchanged. *)
Theorem newTemplate_well_formed (uuid : jsstring) (now : Z) (result : json)
  (originalFile : option OriginalFile) :
  let t := newTemplate uuid now result originalFile in
  has_id uuid t = true
  /\ id_differs uuid t = Some false
  /\ truthy_opt (get t (str "name")) = true
  /\ truthy_opt (get t (str "category")) = true
  /\ truthy_opt (get t (str "description")) = true
  /\ (serializable result -> (Z.abs now <= MAX_EXACT)%Z -> serializable t).
Proof.
  cbv zeta.
  assert (Hid : has_id uuid (newTemplate uuid now result originalFile) = true).
  { unfold has_id, newTemplate. cbn [get app assoc].
    change (jsstring_eqb (str "id") (str "id")) with true. cbv iota.
    unfold jsstring_eqb. now apply bool_decide_eq_true. }
  split; [exact Hid|]. split; [unfold id_differs, newTemplate; fold (newTemplate uuid now result originalFile); now rewrite Hid|].
  split; [|split; [|split]].
  - change (get (newTemplate uuid now result originalFile) (str "name"))
      with (Some (or_else (get result (str "name")) (JStr (str "Untitled Template")))).
    now apply or_else_truthy.
  - change (get (newTemplate uuid now result originalFile) (str "category"))
      with (Some (or_else (get result (str "category")) (JStr (str "General")))).
    now apply or_else_truthy.
  - change (get (newTemplate uuid now result originalFile) (str "description"))
      with (Some (or_else (get result (str "description"))
                    (JStr (str "Imported template")))).
    now apply or_else_truthy.
  - intros Hr Hn.
    assert (Ho : forall k d, serializable d ->
                   serializable (or_else (get result (str k)) d)).
    { intros k d Hd. apply or_else_serializable; [|exact Hd].
      intros v Hv. exact (get_serializable result _ v Hr Hv). }
    unfold newTemplate. destruct originalFile as [f|];
      cbn [serializable fold_right snd app OriginalFile_to_json];
      (split; [reflexivity|]); repeat split; try exact Hn; now apply Ho.
Qed.


Lemma newTemplate_well_formed_witness :
  let t := newTemplate (str "uuid-0") 1700000000000 (sample_result "Notice")
             (Some (sample_original "a.txt")) in
  has_id (str "uuid-0") t = true
  /\ id_differs (str "uuid-0") t = Some false
  /\ truthy_opt (get t (str "name")) = true
  /\ truthy_opt (get t (str "category")) = true
  /\ truthy_opt (get t (str "description")) = true
  /\ (serializable (sample_result "Notice") ->
      (Z.abs 1700000000000 <= MAX_EXACT)%Z -> serializable t).
Proof.
  apply (newTemplate_well_formed (str "uuid-0") 1700000000000 (sample_result "Notice")
           (Some (sample_original "a.txt"))).
Defined.

(** What [incrementVersion] returns on a version does not depend on
    the store. *)
Lemma incrementVersion_any_store (ls ls2 : Storage) (v newVer : jsstring) (ls' : Storage) :
  incrementVersion ls v = Some (newVer, ls') ->
  incrementVersion ls2 v = Some (newVer, <[VERSION_KEY := newVer]> ls2).
Proof.
  unfold incrementVersion. destruct (invalid_format _); [now intros [= <- _]|].
  destruct (map Number (split 46 v)) as [|A [|B [|C [|]]]]; try discriminate.
  destruct (rollover A B C); [|discriminate]. cbn [mbind option_bind].
  now intros [= <- _].
Qed.

Lemma setTemplates_same (st : AppState) : setTemplates (templates st) st = st.
Proof. now destruct st. Qed.

(** One input of a batch: the template made from a usable result is
    handed to [onAddTemplate]. *)
Lemma process_made {UserFile : Type} (env : @Environment UserFile)
  (onAdd : json -> AppState -> option ending) (ret : bool) (g : AppState -> AppState)
  (st : AppState) (position : nat) (a : analysis) (o : option OriginalFile)
  (raised : cause -> batch_error) (empty : option batch_error)
  (sofar : list json) (p : progress) :
  (forall t s, onAdd t s
               = Some ((if ret then Returns else Throws)
                         (g (setTemplates (t :: templates s) s)))) ->
  (forall s, templates (g s) = templates s) ->
  (forall l s, g (setTemplates l (g s)) = g (setTemplates l s)) ->
  batch_invariant g ret st sofar p ->
  exists p',
    process onAdd env position a o raised empty p = Some p'
    /\ batch_invariant g ret st
         (sofar ++ match usable a with
                   | Some result =>
                       [newTemplate (randomUUID env position) (Date_now_at env position)
                          result o]
                   | None => []
                   end) p'.
Proof.
  intros Hadd Hg Hgg (Hs & Hc & He).
  assert (Hpush : forall e, batch_invariant g ret st sofar (push e p)).
  { intros e. split; [exact Hs|]. split; [exact Hc|].
    intros Hr. specialize (He Hr). cbn [push errors]. rewrite length_app. lia. }
  unfold process, usable. destruct a as [result|message].
  2:{ eexists. split; [reflexivity|]. rewrite app_nil_r. apply Hpush. }
  destruct (has_structure result) as [[|]|].
  2:{ eexists. split; [reflexivity|]. rewrite app_nil_r.
      destruct empty; [apply Hpush | now repeat split]. }
  2:{ eexists. split; [reflexivity|]. rewrite app_nil_r. apply Hpush. }
  unfold addTemplateResult. rewrite Hadd. cbn [mbind option_bind].
  set (t := newTemplate _ _ result o).
  assert (Hst : g (setTemplates (t :: templates (appState p)) (appState p))
                = g (setTemplates (rev (sofar ++ [t]) ++ templates st) st)).
  { rewrite rev_app_distr. cbn [rev app]. rewrite Hs. destruct sofar as [|x r].
    - reflexivity.
    - rewrite Hg. cbn [templates setTemplates]. now rewrite Hgg. }
  assert (Hshape : forall s : AppState,
            match sofar ++ [t] with
            | [] => st
            | _ :: _ => s
            end = s) by (intros s'; now destruct sofar).
  destruct ret; eexists; (split; [reflexivity|]); unfold batch_invariant;
    cbn [appState successCount errors].
  - split; [now rewrite Hshape|]. split; [|discriminate].
    rewrite length_app. cbn [length]. lia.
  - split; [now rewrite Hshape|]. split; [exact Hc|].
    intros _. specialize (He eq_refl). rewrite !length_app. cbn [length]. lia.
Qed.

Lemma process_files_made {UserFile : Type} (name_of : UserFile -> jsstring)
  (env : @Environment UserFile)
  (onAdd : json -> AppState -> option ending) (ret : bool) (g : AppState -> AppState)
  (st : AppState) (files : list UserFile) (i : nat) (sofar : list json) (p : progress) :
  (forall t s, onAdd t s
               = Some ((if ret then Returns else Throws)
                         (g (setTemplates (t :: templates s) s)))) ->
  (forall s, templates (g s) = templates s) ->
  (forall l s, g (setTemplates l (g s)) = g (setTemplates l s)) ->
  batch_invariant g ret st sofar p ->
  exists p',
    process_files name_of onAdd env i files p = Some p'
    /\ batch_invariant g ret st (sofar ++ made_of_files env i files) p'.
Proof.
  intros Hadd Hg Hgg. revert i sofar p.
  induction files as [|file rest IH]; intros i sofar p Hp.
  - exists p. split; [reflexivity|]. cbn [made_of_files]. now rewrite app_nil_r.
  - cbn [process_files made_of_files].
    destruct (analyse_file env i file) as [originalFile a|message].
    + destruct (process_made env onAdd ret g st (S i) a (Some originalFile)
                  (FileError (name_of file)) (Some (NoStructure (name_of file)))
                  sofar p Hadd Hg Hgg Hp) as (p1 & -> & H1).
      cbn [mbind option_bind].
      destruct (IH (S i) _ p1 H1) as (p2 & -> & H2).
      exists p2. split; [reflexivity|]. now rewrite app_assoc.
    + cbn [mbind option_bind app].
      apply IH. destruct Hp as (Hs & Hc & He).
      split; [exact Hs|]. split; [exact Hc|].
      intros Hr. specialize (He Hr). cbn [push errors]. rewrite length_app. lia.
Qed.

(** A batch hands the templates [made] to [onAddTemplate], in their
    order; when it had something to analyse, it ends with no file
    selected and the report of the loop. *)
Lemma batch_made {UserFile : Type} (name_of : UserFile -> jsstring)
  (env : @Environment UserFile)
  (onAdd : json -> AppState -> option ending) (ret : bool) (g : AppState -> AppState)
  (st : AppState) (m : @ManagerState UserFile) :
  (forall t s, onAdd t s
               = Some ((if ret then Returns else Throws)
                         (g (setTemplates (t :: templates s) s)))) ->
  (forall s, templates (g s) = templates s) ->
  (forall l s, g (setTemplates l (g s)) = g (setTemplates l s)) ->
  exists m' p,
    handleBatchAnalyze name_of onAdd env m st = Some (m', appState p)
    /\ batch_invariant g ret st (made env m) p
    /\ (selectedFiles m <> [] \/ trim (inputText m) <> [] ->
        selectedFiles m' = [] /\ errorState m' = report p).
Proof.
  intros Hadd Hg Hgg.
  set (p0 := {| appState := st; successCount := 0; errors := [] |}).
  assert (H0 : batch_invariant g ret st [] p0).
  { split; [reflexivity|]. split; [now destruct ret|]. intros _. cbn. lia. }
  assert (Hrun : forall typed : bool,
    exists (m' : @ManagerState UserFile) p,
      (p1 ← (if typed
             then process onAdd env 0 (analyse_text env) None ManualInputError None p0
             else Some p0);
       p2 ← process_files name_of onAdd env 0 (selectedFiles m) p1;
       Some ({| inputText := match successCount p1 with
                             | O => inputText m
                             | S _ => []
                             end;
                selectedFiles := [];
                errorState := report p2 |}, appState p2)) = Some (m', appState p)
      /\ batch_invariant g ret st
           ((if typed
             then match usable (analyse_text env) with
                  | Some result =>
                      [newTemplate (randomUUID env 0) (Date_now_at env 0) result None]
                  | None => []
                  end
             else []) ++ made_of_files env 0 (selectedFiles m)) p
      /\ selectedFiles m' = [] /\ errorState m' = report p).
  { intros typed.
    assert (H1 : exists p1,
              (if typed
               then process onAdd env 0 (analyse_text env) None ManualInputError None p0
               else Some p0) = Some p1
              /\ batch_invariant g ret st
                   (if typed
                    then match usable (analyse_text env) with
                         | Some result =>
                             [newTemplate (randomUUID env 0) (Date_now_at env 0) result None]
                         | None => []
                         end
                    else []) p1).
    { destruct typed; [|now exists p0].
      exact (process_made env onAdd ret g st 0 (analyse_text env) None ManualInputError
               None [] p0 Hadd Hg Hgg H0). }
    destruct H1 as (p1 & -> & H1). cbn [mbind option_bind].
    destruct (process_files_made name_of env onAdd ret g st (selectedFiles m) 0 _ p1
                Hadd Hg Hgg H1) as (p2 & -> & H2).
    cbn [mbind option_bind]. eexists. exists p2. split; [reflexivity|].
    split; [exact H2|]. split; reflexivity. }
  unfold handleBatchAnalyze, made. fold p0.
  destruct (selectedFiles m) as [|f fs] eqn:Ef.
  - destruct (trim (inputText m)) as [|c t] eqn:Et.
    + exists m, p0. split; [reflexivity|]. split; [exact H0|].
      intros [H | H]; contradiction.
    + destruct (Hrun true) as (m' & p & H & Hi & Hsel). exists m', p.
      split; [exact H|]. split; [exact Hi|]. intros _. exact Hsel.
  - destruct (Hrun (match trim (inputText m) with [] => false | _ => true end))
      as (m' & p & H & Hi & Hsel).
    exists m', p. split; [exact H|]. split.
    + destruct (trim (inputText m)); exact Hi.
    + intros _. exact Hsel.
Qed.

(** X15: a batch changes the revision once, however many templates it
    adds.  All the additions of a batch go through the
    [handleAddTemplate] of the render that started it, which computes
    the new revision from the revision that render saw.  The templates
    made are those of the usable results, the typed text first and then
    the files in their order, each with the identifier and the time
    stamp drawn for its input and, for a file, with the file.  On a
    revision that is a string the batch ends with the collection grown by the templates made, the
    last one first, and, when one was made, with the revision and the
    store as a single addition leaves them; after a batch that ran, no
    file is selected and the report counts the templates made.  On a
    revision that is not a string every addition raises after the
    template is in the collection: the batch ends with the same
    collection, the revision as it was, no template counted and an
    error reported for each. *)
Theorem batch_bumps_revision_once {UserFile : Type} (name_of : UserFile -> jsstring)
  (env : @Environment UserFile) (st : AppState) (m : @ManagerState UserFile) :
  (forall v,
     version st = JStr v ->
     exists newVer m',
       (forall t, handleAddTemplate t st
                  = Some (Returns
                            (setVersion (JStr newVer)
                               (setLocalStorage (<[VERSION_KEY := newVer]> (localStorage st))
                                  (setTemplates (t :: templates st) st)))))
       /\ handleBatchAnalyze name_of (handleAddTemplate_of (version st)) env m st
          = Some (m', match made env m with
                      | [] => st
                      | _ :: _ =>
                          setVersion (JStr newVer)
                            (setLocalStorage (<[VERSION_KEY := newVer]> (localStorage st))
                               (setTemplates (rev (made env m) ++ templates st) st))
                      end)
       /\ (selectedFiles m <> [] \/ trim (inputText m) <> [] ->
           selectedFiles m' = []
           /\ match errorState m' with
              | Some (CompletedWithErrors n errs) =>
                  n = length (made env m) /\ errs <> []
              | Some NothingCreated => made env m = []
              | None => made env m <> []
              end))
  /\ ((forall v, version st <> JStr v) ->
      exists m',
        handleBatchAnalyze name_of (handleAddTemplate_of (version st)) env m st
        = Some (m', setTemplates (rev (made env m) ++ templates st) st)
        /\ (selectedFiles m <> [] \/ trim (inputText m) <> [] ->
            selectedFiles m' = []
            /\ match errorState m' with
               | Some (CompletedWithErrors n errs) =>
                   n = 0%nat /\ (length (made env m) <= length errs)%nat
               | Some NothingCreated => made env m = []
               | None => False
               end)).
Proof.
  split.
  - intros v Hv.
    destruct (incrementVersion_total (localStorage st) v) as [newVer Hi].
    set (g := fun s : AppState =>
                setVersion (JStr newVer)
                  (setLocalStorage (<[VERSION_KEY := newVer]> (localStorage s)) s)).
    assert (Hadd : forall t s,
              handleAddTemplate_of (version st) t s
              = Some (Returns (g (setTemplates (t :: templates s) s)))).
    { intros t s. unfold handleAddTemplate_of, bump_version_of. rewrite Hv.
      cbn [localStorage setTemplates].
      now rewrite (incrementVersion_any_store _ (localStorage s) _ _ _ Hi). }
    assert (Hg : forall s, templates (g s) = templates s) by reflexivity.
    assert (Hgg : forall l s, g (setTemplates l (g s)) = g (setTemplates l s)).
    { intros l s. unfold g, setVersion, setLocalStorage, setTemplates.
      cbn [templates version cloudConfig isSyncing lastSyncTime localStorage saveTimer].
      now rewrite insert_insert_eq. }
    destruct (batch_made name_of env _ true g st m Hadd Hg Hgg)
      as (m' & p & Hb & (Hs & Hc & _) & Hrep).
    exists newVer, m'. split; [|split].
    + intros t. exact (Hadd t st).
    + rewrite Hb, Hs. reflexivity.
    + intros Hin. destruct (Hrep Hin) as (Hsel & Herr). split; [exact Hsel|].
      rewrite Herr. unfold report. rewrite Hc.
      destruct (errors p) as [|e es]; [|split; [reflexivity | discriminate]].
      destruct (made env m); [reflexivity | discriminate].
  - intros Hv.
    assert (Hadd : forall t s,
              handleAddTemplate_of (version st) t s
              = Some (Throws (setTemplates (t :: templates s) s))).
    { intros t s. unfold handleAddTemplate_of, bump_version_of.
      destruct (version st) as [| | |v| |] eqn:E; try reflexivity. now destruct (Hv v). }
    destruct (batch_made name_of env _ false (fun s => s) st m Hadd
                ltac:(reflexivity) ltac:(reflexivity))
      as (m' & p & Hb & (Hs & Hc & He) & Hrep).
    exists m'. split.
    + rewrite Hb, Hs. destruct (made env m); [|reflexivity].
      cbn [rev app]. now rewrite setTemplates_same.
    + intros Hin. destruct (Hrep Hin) as (Hsel & Herr). split; [exact Hsel|].
      rewrite Herr. unfold report. rewrite Hc. specialize (He eq_refl).
      destruct (errors p) as [|e es]; [|now split].
      destruct (made env m); [reflexivity | cbn in He; lia].
Qed.

(** Three files, of which the first and the third give a template:
    the collection grows by the two templates, the third file's first,
    the revision goes from ["1.0.0"] to ["1.0.1"], as after one
    addition, and the report counts two templates and names the second
    file.  And the same batch on the revision 2, which is not a string:
    the two templates are in the collection, none is counted. *)
Lemma batch_bumps_revision_once_witness :
  (exists newVer m',
     (forall t, handleAddTemplate t fresh_state
                = Some (Returns
                          (setVersion (JStr newVer)
                             (setLocalStorage
                                (<[VERSION_KEY := newVer]> (localStorage fresh_state))
                                (setTemplates (t :: templates fresh_state) fresh_state)))))
     /\ handleBatchAnalyze (fun f => f) (handleAddTemplate_of (version fresh_state))
          sample_environment sample_manager fresh_state
        = Some (m', match made sample_environment sample_manager with
                    | [] => fresh_state
                    | _ :: _ =>
                        setVersion (JStr newVer)
                          (setLocalStorage
                             (<[VERSION_KEY := newVer]> (localStorage fresh_state))
                             (setTemplates
                                (rev (made sample_environment sample_manager)
                                 ++ templates fresh_state) fresh_state))
                    end)
     /\ (selectedFiles sample_manager <> [] \/ trim (inputText sample_manager) <> [] ->
         selectedFiles m' = []
         /\ match errorState m' with
            | Some (CompletedWithErrors n errs) =>
                n = length (made sample_environment sample_manager) /\ errs <> []
            | Some NothingCreated => made sample_environment sample_manager = []
            | None => made sample_environment sample_manager <> []
            end))
  /\ made sample_environment sample_manager
     = [newTemplate (str "uuid-1") 1700000000000 (sample_result "Notice")
          (Some (sample_original "a.txt"));
        newTemplate (str "uuid-3") 1700000000000 (sample_result "Notice")
          (Some (sample_original "a.txt"))]
  /\ (exists m',
        handleBatchAnalyze (fun f => f)
          (handleAddTemplate_of (version (setVersion (JNum (Int 2)) fresh_state)))
          sample_environment sample_manager (setVersion (JNum (Int 2)) fresh_state)
        = Some (m', setTemplates
                      (rev (made sample_environment sample_manager)
                       ++ templates (setVersion (JNum (Int 2)) fresh_state))
                      (setVersion (JNum (Int 2)) fresh_state))
        /\ (selectedFiles sample_manager <> [] \/ trim (inputText sample_manager) <> [] ->
            selectedFiles m' = []
            /\ match errorState m' with
               | Some (CompletedWithErrors n errs) =>
                   n = 0%nat
                   /\ (length (made sample_environment sample_manager) <= length errs)%nat
               | Some NothingCreated => made sample_environment sample_manager = []
               | None => False
               end)).
Proof.
  split; [|split].
  - apply (proj1 (batch_bumps_revision_once (fun f => f) sample_environment fresh_state
                    sample_manager) (str "1.0.0")).
    reflexivity.
  - vm_compute. reflexivity.
  - apply (proj2 (batch_bumps_revision_once (fun f => f) sample_environment
                    (setVersion (JNum (Int 2)) fresh_state) sample_manager)).
    discriminate.
Defined.

(** The same batch in full: what the state and the report are. *)
Example batch_of_three_files :
  exists m' st',
    handleBatchAnalyze (fun f => f) (handleAddTemplate_of (version fresh_state))
      sample_environment sample_manager fresh_state = Some (m', st')
    /\ templates st'
       = newTemplate (str "uuid-3") 1700000000000 (sample_result "Notice")
           (Some (sample_original "a.txt"))
         :: newTemplate (str "uuid-1") 1700000000000 (sample_result "Notice")
              (Some (sample_original "a.txt"))
         :: templates fresh_state
    /\ version st' = JStr (str "1.0.1")
    /\ errorState m' = Some (CompletedWithErrors 2 [NoStructure (str "b.txt")]).
Proof.
  eexists. eexists. split; [vm_compute; reflexivity|].
  split; [reflexivity|]. split; reflexivity.
Qed.


Lemma filter_index_past {A} (i index : nat) (l : list A) :
  (index < i)%nat -> filter_index i index l = l.
Proof.
  revert i. induction l as [|x l IH]; intros i Hi; [reflexivity|].
  cbn [filter_index]. destruct (Nat.eqb_spec i index) as [E|_]; [lia|].
  f_equal. apply IH. lia.
Qed.

Lemma filter_index_spec {A} (i index : nat) (l : list A) :
  (i <= index)%nat ->
  filter_index i index l = firstn (index - i) l ++ skipn (S (index - i)) l.
Proof.
  revert i. induction l as [|x l IH]; intros i Hi.
  - now destruct (index - i)%nat.
  - cbn [filter_index]. destruct (Nat.eqb_spec i index) as [->|Hne].
    + rewrite Nat.sub_diag. cbn [firstn skipn app]. apply filter_index_past. lia.
    + rewrite IH by lia.
      replace (index - i)%nat with (S (index - S i)) by lia.
      reflexivity.
Qed.

(** X16: [handleRemoveFile] removes the file at the given index and no
    other: the files before it and the files after it stay, in their
    order; an index past the end removes nothing.  A file that
    [handleFileSelect] has just appended is removed again by its
    index, which gives the selection as it was. *)
Theorem handleRemoveFile_removes {UserFile : Type} (index : nat)
  (m : @ManagerState UserFile) :
  selectedFiles (handleRemoveFile index m)
  = firstn index (selectedFiles m) ++ skipn (S index) (selectedFiles m)
  /\ ((length (selectedFiles m) <= index)%nat ->
      selectedFiles (handleRemoveFile index m) = selectedFiles m)
  /\ ((index < length (selectedFiles m))%nat ->
      S (length (selectedFiles (handleRemoveFile index m))) = length (selectedFiles m))
  /\ forall file,
       selectedFiles (handleRemoveFile (length (selectedFiles m))
                        (handleFileSelect [file] m))
       = selectedFiles m.
Proof.
  assert (E : forall k (l : list UserFile),
            filter_index 0 k l = firstn k l ++ skipn (S k) l).
  { intros k l. rewrite filter_index_spec by lia. now rewrite Nat.sub_0_r. }
  cbn [handleRemoveFile selectedFiles]. rewrite !E. split; [reflexivity|].
  split; [|split].
  - intros Hl. rewrite firstn_all2 by exact Hl.
    rewrite skipn_all2 by lia. apply app_nil_r.
  - intros Hl. rewrite length_app, length_firstn, length_skipn. lia.
  - intros file. cbn [handleFileSelect selectedFiles]. rewrite E.
    rewrite firstn_app, Nat.sub_diag, firstn_all. cbn [firstn].
    rewrite skipn_all2 by (rewrite length_app; cbn [length]; lia).
    now rewrite !app_nil_r.
Qed.


Lemma handleRemoveFile_removes_witness :
  selectedFiles (handleRemoveFile 1 sample_manager)
  = firstn 1 (selectedFiles sample_manager) ++ skipn 2 (selectedFiles sample_manager)
  /\ ((length (selectedFiles sample_manager) <= 1)%nat ->
      selectedFiles (handleRemoveFile 1 sample_manager) = selectedFiles sample_manager)
  /\ ((1 < length (selectedFiles sample_manager))%nat ->
      S (length (selectedFiles (handleRemoveFile 1 sample_manager)))
      = length (selectedFiles sample_manager))
  /\ forall file,
       selectedFiles (handleRemoveFile (length (selectedFiles sample_manager))
                        (handleFileSelect [file] sample_manager))
       = selectedFiles sample_manager.
Proof. apply (handleRemoveFile_removes 1 sample_manager). Defined.

(** X17: a stored file downloads as it was uploaded.  When the reader
    gives the data URL [data:<mime>;base64,<data>], with no comma in
    the media type nor in the data, [getBase64] keeps exactly the data;
    and the link [downloadOriginalFile] makes for the stored file has
    the name of the file and a data URL of the same data, under the type
    of the file, or under [application/octet-stream] when the file has
    no type. *)
Theorem stored_file_download (fileName fileType mime data : jsstring) :
  Forall (fun c => (c =? 44) = false) mime ->
  Forall (fun c => (c =? 44) = false) data ->
  exists f,
    originalFileObj fileName fileType (str "data:" ++ mime ++ str ";base64," ++ data)
    = Some f
    /\ file_data f = data
    /\ download (downloadOriginalFile f) = fileName
    /\ href (downloadOriginalFile f)
       = str "data:" ++ match fileType with
                        | [] => str "application/octet-stream"
                        | _ => fileType
                        end ++ str ";base64," ++ data.
Proof.
  intros Hm Hd. unfold originalFileObj, getBase64.
  assert (E : str "data:" ++ mime ++ str ";base64," ++ data
              = (str "data:" ++ mime ++ str ";base64") ++ 44 :: data).
  { change (str ";base64,") with (str ";base64" ++ [44]).
    now rewrite <- !app_assoc. }
  rewrite E, split_app, (split_no_sep 44 data Hd).
  - cbn [nth_error mbind option_bind]. eexists. split; [reflexivity|]. repeat split.
  - apply Forall_app. split; [repeat constructor|].
    apply Forall_app. split; [exact Hm | repeat constructor].
Qed.

Lemma stored_file_download_witness :
  exists f,
    originalFileObj (str "a.txt") []
      (str "data:" ++ str "application/octet-stream" ++ str ";base64," ++ str "QUJD")
    = Some f
    /\ file_data f = str "QUJD"
    /\ download (downloadOriginalFile f) = str "a.txt"
    /\ href (downloadOriginalFile f)
       = str "data:" ++ str "application/octet-stream" ++ str ";base64," ++ str "QUJD".
Proof.
  apply (stored_file_download (str "a.txt") [] (str "application/octet-stream") (str "QUJD"));
    repeat constructor.
Defined.

(** A data URL without a comma, as a reader gives for an empty file in
    some browsers: there is no data to keep. *)
Example getBase64_no_comma : getBase64 (str "data:") = None.
Proof. reflexivity. Qed.


(** ** The drafting workspace *)

Lemma drop_ws_nonblank (s : jsstring) : nonblank s -> nonblank (drop_ws s).
Proof.
  unfold nonblank. induction 1 as [c s Hc | c s _ IH]; cbn [drop_ws].
  - rewrite Hc. now constructor.
  - destruct (is_StrWhiteSpaceChar c) eqn:E; [exact IH | now constructor].
Qed.

Lemma nonblank_rev (s : jsstring) : nonblank s -> nonblank (rev s).
Proof.
  unfold nonblank. rewrite !List.Exists_exists. intros (c & Hin & Hc).
  exists c. split; [now apply in_rev in Hin | exact Hc].
Qed.

(** [trim] leaves something of a string that is not blank. *)
Lemma trim_nonblank (s : jsstring) : nonblank s -> trim s <> [].
Proof.
  intros H. unfold trim.
  pose proof (drop_ws_nonblank _ (nonblank_rev _ (drop_ws_nonblank s H))) as Hn.
  intros E. apply (f_equal (@rev N)) in E. rewrite rev_involutive in E.
  cbn [rev] in E. rewrite E in Hn. inversion Hn.
Qed.

Lemma info_lines_strings (members : list (jsstring * json)) :
  strings members -> exists lines, info_lines members = Some lines.
Proof.
  induction 1 as [|[k v] r (s & Hs) _ (lines & IH)]; [now exists []|].
  cbn [snd] in Hs. subst v. cbn [info_lines]. rewrite IH. cbn [mbind option_bind].
  eauto.
Qed.

Lemma info_lines_blank (members : list (jsstring * json)) :
  strings members ->
  (forall k s, In (k, JStr s) members -> trim s = []) ->
  info_lines members = Some [].
Proof.
  induction 1 as [|[k v] r (s & Hs) _ IH]; intros Hb; [reflexivity|].
  cbn [snd] in Hs. subst v. cbn [info_lines].
  rewrite IH by (intros k' s' Hin; apply (Hb k' s'); now right).
  cbn [mbind option_bind]. now rewrite (Hb k s (or_introl eq_refl)).
Qed.

Lemma info_lines_value (members : list (jsstring * json)) (lines : list jsstring)
  (k s : jsstring) :
  info_lines members = Some lines -> In (k, JStr s) members -> trim s <> [] ->
  lines <> [].
Proof.
  revert lines. induction members as [|[k' v] r IH]; intros lines; [contradiction|].
  cbn [info_lines]. destruct v as [| | |s'| |]; try discriminate.
  destruct (info_lines r) as [ls|]; [|discriminate]. cbn [mbind option_bind].
  intros [= <-] [[= -> ->] | Hin] Hs.
  - destruct (trim s); [congruence | discriminate].
  - specialize (IH ls eq_refl Hin Hs). now destruct (trim s').
Qed.

Lemma info_lines_heads (members : list (jsstring * json)) (lines : list jsstring) :
  info_lines members = Some lines ->
  Forall (fun line => exists t, line = 45 :: t) lines.
Proof.
  revert lines. induction members as [|[k v] r IH]; intros lines.
  - intros [= <-]. constructor.
  - cbn [info_lines]. destruct v as [| | |s| |]; try discriminate.
    destruct (info_lines r) as [ls|]; [|discriminate]. cbn [mbind option_bind].
    intros [= <-]. specialize (IH ls eq_refl).
    destruct (trim s); [exact IH|]. constructor; [|exact IH]. now eexists.
Qed.

Lemma join_head (sep : jsstring) (lines : list jsstring) :
  lines <> [] -> Forall (fun line => exists t, line = 45 :: t) lines ->
  exists t, join sep lines = 45 :: t.
Proof.
  intros Hne H. destruct lines as [|x r]; [congruence|].
  apply List.Forall_inv in H as (t & ->).
  cbn [join]. destruct r; eexists; reflexivity.
Qed.

Lemma update_strings (k : jsstring) (v : json) (members : list (jsstring * json)) :
  strings members -> (exists s, v = JStr s) -> strings (update k v members).
Proof.
  intros H Hv. induction H as [|[k' v'] r Hh Hr IH]; [constructor|].
  cbn [update]. destruct (jsstring_eqb k k'); constructor;
    first [exact Hh | exact Hv | exact Hr | exact IH].
Qed.

Lemma insert_index_strings (n : N) (k : jsstring) (v : json)
  (members : list (jsstring * json)) :
  strings members -> (exists s, v = JStr s) -> strings (insert_index n k v members).
Proof.
  intros H Hv. induction H as [|[k' v'] r Hh Hr IH]; [repeat constructor; exact Hv|].
  cbn [insert_index]. destruct (array_index k') as [n'|].
  - destruct (n <? n'); repeat (constructor; first [exact Hh | exact Hv | exact Hr | exact IH | idtac]).
  - repeat (constructor; first [exact Hh | exact Hv | exact Hr | idtac]).
Qed.

Lemma define_property_strings (k : jsstring) (v : json)
  (members : list (jsstring * json)) :
  strings members -> (exists s, v = JStr s) -> strings (define_property k v members).
Proof.
  intros H Hv. unfold define_property. destruct (has_key k members).
  - now apply update_strings.
  - destruct (array_index k); [now apply insert_index_strings|].
    apply Forall_app. split; [exact H | repeat constructor; exact Hv].
Qed.

Lemma build_object_strings (members : list (jsstring * json)) :
  strings members -> strings (build_object members).
Proof.
  unfold build_object. intros H.
  assert (G : forall acc, strings acc ->
            strings (fold_left (fun acc kv => define_property (fst kv) (snd kv) acc)
                       members acc)).
  { induction H as [|[k v] r Hh _ IH]; intros acc Ha; [exact Ha|].
    cbn [fold_left fst snd]. apply IH. now apply define_property_strings. }
  apply G. constructor.
Qed.

Lemma update_In (k : jsstring) (v : json) (members : list (jsstring * json)) :
  has_key k members = true -> In (k, v) (update k v members).
Proof.
  induction members as [|[k' v'] r IH]; [discriminate|].
  cbn [has_key update]. unfold jsstring_eqb at 1 2.
  destruct (bool_decide (k = k')) eqn:E.
  - apply bool_decide_eq_true in E. subst k'. intros _. now left.
  - cbn [orb]. intros H. right. now apply IH.
Qed.

Lemma insert_index_In (n : N) (k : jsstring) (v : json) (members : list (jsstring * json)) :
  In (k, v) (insert_index n k v members).
Proof.
  induction members as [|[k' v'] r IH]; [now left|].
  cbn [insert_index]. destruct (array_index k') as [n'|]; [|now left].
  destruct (n <? n'); [now left | now right].
Qed.

Lemma define_property_In (k : jsstring) (v : json) (members : list (jsstring * json)) :
  In (k, v) (define_property k v members).
Proof.
  unfold define_property. destruct (has_key k members) eqn:E.
  - now apply update_In.
  - destruct (array_index k); [apply insert_index_In|].
    apply in_or_app. right. now left.
Qed.

(** X18: a redraft is asked for exactly when a missing value has been
    given.  With only blank values, [handleRedraftWithMissingInfo]
    leaves the workspace as it is and the model is not asked.  With a
    value that is not blank, and a template to draft from, the model is
    asked, even when the request itself is blank, on the request
    followed by the heading and the values given; the result of the
    previous draft and the values are kept when the model fails.  And a
    value typed into a field by [handleMissingValueChange] is such a
    value. *)
Theorem redraft_when_value_given (templates : list json)
  (answer : jsstring -> drafting) (w : WorkspaceState) :
  strings (missingValues w) ->
  ((forall k s, In (k, JStr s) (missingValues w) -> trim s = []) ->
   handleRedraftWithMissingInfo templates answer w = Some w)
  /\ (forall k s, In (k, JStr s) (missingValues w) -> trim s <> [] ->
      templates <> [] ->
      exists info,
        infoString (missingValues w) = Some info /\ info <> []
        /\ handleRedraftWithMissingInfo templates answer w
           = Some match answer (request w ++ SUPPLEMENT_HEADING ++ info) with
                  | Drafted data =>
                      {| request := request w; isDrafting := false;
                         draftResult := Some data; draftError := None;
                         missingValues := [] |}
                  | DraftRaised message =>
                      {| request := request w; isDrafting := false;
                         draftResult := draftResult w;
                         draftError := Some match message with
                                            | [] => DraftFailedUnknown
                                            | _ => DraftFailed message
                                            end;
                         missingValues := missingValues w |}
                  end)
  /\ (forall field value,
        strings (missingValues (handleMissingValueChange field value w))
        /\ In (field, JStr value)
             (missingValues (handleMissingValueChange field value w))).
Proof.
  intros Hs. split; [|split].
  - intros Hb. unfold handleRedraftWithMissingInfo, infoString.
    now rewrite (info_lines_blank _ Hs Hb).
  - intros k s Hin Hne Ht.
    destruct (info_lines_strings _ Hs) as (lines & Hl).
    pose proof (info_lines_value _ _ _ _ Hl Hin Hne) as Hn.
    destruct (join_head [10] lines Hn (info_lines_heads _ _ Hl)) as (t & Hj).
    exists (45 :: t). unfold handleRedraftWithMissingInfo, infoString.
    rewrite Hl. cbn [fmap option_fmap option_map mbind option_bind]. rewrite Hj.
    split; [reflexivity|]. split; [discriminate|].
    unfold handleDraft.
    assert (Hnb : trim (request w ++ SUPPLEMENT_HEADING ++ 45 :: t) <> []).
    { apply trim_nonblank. unfold nonblank. apply Exists_app. right.
      apply Exists_app. right. now constructor. }
    destruct (trim (request w ++ SUPPLEMENT_HEADING ++ 45 :: t)); [congruence|].
    destruct templates; [congruence|]. reflexivity.
  - intros field value. cbn [handleMissingValueChange missingValues]. split.
    + apply define_property_strings; [now apply build_object_strings | now eexists].
    + apply define_property_In.
Qed.

Lemma redraft_when_value_given_witness :
  let w := {| request := []; isDrafting := false; draftResult := None;
              draftError := None;
              missingValues := [(str "DATE", JStr (str " ")); (str "NAME", JStr (str "An"))] |} in
  exists info,
    infoString (missingValues w) = Some info /\ info <> []
    /\ handleRedraftWithMissingInfo sample_collection (fun _ => DraftRaised []) w
       = Some match DraftRaised [] with
              | Drafted data =>
                  {| request := request w; isDrafting := false;
                     draftResult := Some data; draftError := None;
                     missingValues := [] |}
              | DraftRaised message =>
                  {| request := request w; isDrafting := false;
                     draftResult := draftResult w;
                     draftError := Some match message with
                                        | [] => DraftFailedUnknown
                                        | _ => DraftFailed message
                                        end;
                     missingValues := missingValues w |}
              end.
Proof.
  cbv zeta.
  apply (proj1 (proj2 (redraft_when_value_given sample_collection (fun _ => DraftRaised [])
                         {| request := []; isDrafting := false; draftResult := None;
                            draftError := None;
                            missingValues := [(str "DATE", JStr (str " "));
                                              (str "NAME", JStr (str "An"))] |}
                         ltac:(repeat constructor; eexists; reflexivity)))
           (str "NAME") (str "An")).
  - right. now left.
  - discriminate.
  - discriminate.
Defined.

